(** * Karere backend: local store, relay server, connection manager, sync engine

    A shallow embedding of the JavaScript backend of Karere:

    - [database.js]: the SQLite store ([saveChat], [saveMessage],
      [getChats], [getMessages], ...), with the tables as lists of rows in
      rowid order and the SQL statements as list functions;
    - [backend.js]: the relay server, the connection handler and the sync
      engine, with the module-level variables ([clientSocket],
      [initialChatsPayload], [reconnectAttempts], ...) as one record that every
      handler takes and returns.

    Time ([Date.now()], [strftime('%s','now')]) is an explicit argument, the
    upstream library (Baileys) is an oracle for its answers, and what the
    backend writes to the UI client is a log kept in the state. *)

From Stdlib Require Import String Ascii List ZArith Lia Bool Sorted Permutation.
From Stdlib Require Import DecimalString DecimalZ.
Import ListNotations.

Local Open Scope string_scope.
Local Open Scope Z_scope.

(** ** JavaScript values

    The upstream library hands over loosely typed objects; the handlers test
    them with truthiness ([if (x)], [a || b]) and read properties that may be
    absent. *)
Module Js.

#[local] Unset Elimination Schemes.
Inductive value : Type :=
| Undefined
| Null
| Bool (b : bool)
| Num (z : Z)
| Str (s : string)
| Obj (fields : list (string * value)).
#[local] Set Elimination Schemes.

(** [ToBoolean]: [undefined], [null], [false], [0] and [''] are falsy, every
    object is truthy. *)
Definition truthy (v : value) : bool :=
  match v with
  | Undefined | Null => false
  | Bool b => b
  | Num z => negb (z =? 0)
  | Str s => negb (s =? "")%string
  | Obj _ => true
  end.

(** [a || b] *)
Definition or (a b : value) : value := if truthy a then a else b.

Fixpoint lookup (k : string) (fields : list (string * value)) : value :=
  match fields with
  | [] => Undefined
  | (k', v) :: rest => if (k' =? k)%string then v else lookup k rest
  end.

(** [o.k] on a value that is already known to be truthy: an own property
    for an object, [undefined] for a primitive. *)
Definition get (o : value) (k : string) : value :=
  match o with
  | Obj fields => lookup k fields
  | _ => Undefined
  end.

(** Truthiness of nullable text ([TEXT] columns, optional strings). *)
Definition truthy_text (o : option string) : bool :=
  match o with
  | Some s => negb (s =? "")%string
  | None => false
  end.

Definition or_text (a b : option string) : option string :=
  if truthy_text a then a else b.

End Js.

(** ** Messages as the upstream library delivers them *)
Module WAMessage.

Record t := {
  key_id : string;          (* msg.key.id *)
  key_fromMe : bool;        (* msg.key.fromMe *)
  messageTimestamp : Z;     (* seconds *)
  pushName : option string;
  message : Js.value        (* the payload; absent for stubs *)
}.

End WAMessage.

(** ** Display-content derivation *)
Module Display.

Import Js.

(** [getDisplayMessage(msg)] *)
Definition getDisplayMessage (msg : WAMessage.t) : value :=
  let message := WAMessage.message msg in
  if negb (truthy message) then Str ""
  else if truthy (get message "conversation") then get message "conversation"
  else if truthy (get message "extendedTextMessage")
       then get (get message "extendedTextMessage") "text"
  else if truthy (get message "imageMessage")
       then or (get (get message "imageMessage") "caption") (Str "[Image]")
  else if truthy (get message "videoMessage")
       then or (get (get message "videoMessage") "caption") (Str "[Video]")
  else Str "[Unsupported Message]".

(** The table of [getMessageType], in insertion order, which is the order
    [Object.entries] walks it. *)
Definition messageTypes : list (string * string) :=
  [ ("conversation", "text");
    ("extendedTextMessage", "text");
    ("imageMessage", "image");
    ("videoMessage", "video");
    ("audioMessage", "audio");
    ("documentMessage", "document");
    ("stickerMessage", "sticker");
    ("locationMessage", "location");
    ("liveLocationMessage", "live_location");
    ("contactMessage", "contact");
    ("contactsArrayMessage", "contacts");
    ("groupInviteMessage", "group_invite");
    ("buttonsMessage", "buttons");
    ("templateMessage", "template");
    ("listMessage", "list");
    ("reactionMessage", "reaction");
    ("pollCreationMessage", "poll");
    ("pollUpdateMessage", "poll_update") ].

Fixpoint firstType (message : value) (table : list (string * string)) : string :=
  match table with
  | [] => "unknown"
  | (type, displayType) :: rest =>
      if truthy (get message type) then displayType else firstType message rest
  end.

(** [getMessageType(msg)] *)
Definition getMessageType (msg : WAMessage.t) : string :=
  if negb (truthy (WAMessage.message msg)) then "text"
  else firstType (WAMessage.message msg) messageTypes.

(** [formatLastMessageContent(content, messageType)]; the result [Null] is
    the JavaScript [null]. *)
Definition formatLastMessageContent (content : value) (messageType : string) : value :=
  if (messageType =? "text")%string then or content (Str "No messages yet")
  else Null.

(** The chat-list preview of a message, as [handleHistorySet] builds it. *)
Definition lastMessagePreview (msg : WAMessage.t) : value :=
  formatLastMessageContent (getDisplayMessage msg) (getMessageType msg).

(** A payload has one of the text-bearing shapes when one of the four keys
    that [getDisplayMessage] reads is set. *)
Definition textShape (message : value) : bool :=
  truthy (get message "conversation")
  || truthy (get message "extendedTextMessage")
  || truthy (get message "imageMessage")
  || truthy (get message "videoMessage").

(** The typed classifications other than ['text']. *)
Definition nonTextTypes : list string :=
  [ "image"; "video"; "audio"; "document"; "sticker"; "location";
    "live_location"; "contact"; "contacts"; "group_invite"; "buttons";
    "template"; "list"; "reaction"; "poll"; "poll_update"; "unknown" ].

End Display.

(** ** The local store ([database.js])

    Each table is the list of its rows in rowid order.  [PRAGMA foreign_keys
    = ON] is set at initialisation, so the foreign keys of the schema are
    enforced: a message needs its chat, and deleting a row (which is what
    [INSERT OR REPLACE] does to the row it replaces) runs the [ON DELETE]
    actions of the rows that refer to it.  [database.js] has no statement
    that writes [media] or [settings] rows that the functions below read, so
    these two tables are left out.  Failures of the storage itself (disk,
    locking) are not modelled; a violated constraint is. *)
Module Chat.
Record row := {
  jid : string;                          (* TEXT PRIMARY KEY *)
  name : option string;
  last_message_id : option string;
  last_message_timestamp : option Z;
  unread_count : Z;                      (* DEFAULT 0 *)
  is_archived : bool;                    (* DEFAULT FALSE *)
  created_at : Z;                        (* DEFAULT now *)
  updated_at : Z
}.
End Chat.

Module Message.
Record row := {
  id : string;                           (* TEXT PRIMARY KEY *)
  chat_jid : string;                     (* NOT NULL, REFERENCES chats (jid) ON DELETE CASCADE *)
  from_me : bool;
  message_type : string;
  content : option string;
  timestamp : Z;                         (* NOT NULL *)
  status : string;
  reply_to_id : option string;           (* REFERENCES messages (id) ON DELETE SET NULL *)
  created_at : Z
}.
End Message.

Module Contact.
Record row := {
  jid : string;                          (* TEXT PRIMARY KEY *)
  name : option string;
  phone_number : option string;
  avatar_path : option string;
  is_blocked : bool;
  created_at : Z;
  updated_at : Z
}.
End Contact.

(** A row of the result of [getChats]: the columns of [chats], the two
    columns joined from [messages], and the properties that the relay reads
    from such a row although this query does not select them. *)
Module ChatListRow.
Record row := {
  jid : string;
  name : option string;
  last_message_id : option string;
  unread_count : Z;
  is_archived : bool;
  created_at : Z;
  updated_at : Z;
  last_message_content : option string;  (* m.content *)
  last_message_timestamp : option Z;     (* m.timestamp, which takes the place
                                            of the column of the same name of c.* *)
  (* not selected: reading them from a row of this query gives undefined *)
  contact_name : option string;
  contact_avatar_base64 : option string;
  contact_phone_number : option string;
  avatar_base64 : option string;
  last_message_type : option string;
  last_message_from : option string
}.
End ChatListRow.

Module Database.

Record t := {
  chats : list Chat.row;
  messages : list Message.row;
  contacts : list Contact.row
}.

Definition empty : t :=
  {| chats := []; messages := []; contacts := [] |}.

(** What a statement gives back: the new state, or the error that the
    method wraps with [errorHandler.database] and throws. *)
Inductive result (A : Type) : Type :=
| Ok (a : A)
| DatabaseError (operation : string).
Arguments Ok {A} a.
Arguments DatabaseError {A} operation.

(** *** ORDER BY, LIMIT, OFFSET *)

(** [ORDER BY key DESC], as an insertion sort; rows with equal keys stay in
    table order (SQL leaves their order open). *)
Fixpoint insertDesc {A : Type} (key : A -> Z) (x : A) (l : list A) : list A :=
  match l with
  | [] => [x]
  | y :: rest =>
      if key y <=? key x then x :: y :: rest else y :: insertDesc key x rest
  end.

Definition orderByDesc {A : Type} (key : A -> Z) (l : list A) : list A :=
  fold_right (insertDesc key) [] l.

(** [LIMIT limit OFFSET offset]: a negative limit is no limit, a negative
    offset is 0. *)
Definition limitOffset {A : Type} (limit offset : Z) (l : list A) : list A :=
  let rest := skipn (Z.to_nat offset) l in
  if limit <? 0 then rest else firstn (Z.to_nat limit) rest.

(** *** Row deletion with the foreign-key actions of the schema *)

(** Deleting the message [id]: the replies to it lose their target ([ON
    DELETE SET NULL]). *)
Definition clearReply (id : string) (m : Message.row) : Message.row :=
  match Message.reply_to_id m with
  | Some r =>
      if (r =? id)%string then
        {| Message.id := Message.id m;
           Message.chat_jid := Message.chat_jid m;
           Message.from_me := Message.from_me m;
           Message.message_type := Message.message_type m;
           Message.content := Message.content m;
           Message.timestamp := Message.timestamp m;
           Message.status := Message.status m;
           Message.reply_to_id := None;
           Message.created_at := Message.created_at m |}
      else m
  | None => m
  end.

Definition deleteMessage (id : string) (d : t) : t :=
  {| chats := chats d;
     messages :=
       map (clearReply id)
           (filter (fun m => negb (Message.id m =? id)%string) (messages d));
     contacts := contacts d |}.

(** Deleting the chat [jid]: its messages go ([ON DELETE CASCADE]), each
    with its own actions. *)
Definition deleteChat (jid : string) (d : t) : t :=
  let gone :=
    map Message.id (filter (fun m => (Message.chat_jid m =? jid)%string) (messages d)) in
  let d' := fold_left (fun acc id => deleteMessage id acc) gone d in
  {| chats := filter (fun c => negb (Chat.jid c =? jid)%string) (chats d');
     messages := messages d';
     contacts := contacts d' |}.

(** *** Chat operations *)

(** [saveChat(jid, name = null, lastMessageId = null, timestamp = null)]:
    [INSERT OR REPLACE INTO chats (jid, name, last_message_id,
    last_message_timestamp, updated_at)]. *)
Definition saveChat (now : Z) (jid : string) (name lastMessageId : option string)
    (timestamp : option Z) (d : t) : t :=
  let d' := deleteChat jid d in
  {| chats :=
       chats d' ++
       [ {| Chat.jid := jid;
            Chat.name := name;
            Chat.last_message_id := lastMessageId;
            Chat.last_message_timestamp := timestamp;
            Chat.unread_count := 0;
            Chat.is_archived := false;
            Chat.created_at := now;
            Chat.updated_at := now |} ];
     messages := messages d';
     contacts := contacts d' |}.

(** The [LEFT JOIN messages m ON c.last_message_id = m.id] of [getChats]. *)
Definition findMessage (id : string) (d : t) : option Message.row :=
  find (fun m => (Message.id m =? id)%string) (messages d).

Definition joinLastMessage (d : t) (c : Chat.row) : ChatListRow.row :=
  let m :=
    match Chat.last_message_id c with
    | Some id => findMessage id d
    | None => None
    end in
  {| ChatListRow.jid := Chat.jid c;
     ChatListRow.name := Chat.name c;
     ChatListRow.last_message_id := Chat.last_message_id c;
     ChatListRow.unread_count := Chat.unread_count c;
     ChatListRow.is_archived := Chat.is_archived c;
     ChatListRow.created_at := Chat.created_at c;
     ChatListRow.updated_at := Chat.updated_at c;
     ChatListRow.last_message_content :=
       match m with Some r => Message.content r | None => None end;
     ChatListRow.last_message_timestamp :=
       match m with Some r => Some (Message.timestamp r) | None => None end;
     ChatListRow.contact_name := None;
     ChatListRow.contact_avatar_base64 := None;
     ChatListRow.contact_phone_number := None;
     ChatListRow.avatar_base64 := None;
     ChatListRow.last_message_type := None;
     ChatListRow.last_message_from := None |}.

(** [getChats(limit = 50)]: [SELECT c.*, m.content as last_message_content,
    m.timestamp as last_message_timestamp FROM chats c LEFT JOIN messages m
    ON c.last_message_id = m.id WHERE c.is_archived = FALSE ORDER BY
    c.updated_at DESC LIMIT ?]. *)
Definition getChats (limit : Z) (d : t) : list ChatListRow.row :=
  limitOffset limit 0
    (orderByDesc ChatListRow.updated_at
       (map (joinLastMessage d)
            (filter (fun c => negb (Chat.is_archived c)) (chats d)))).

(** *** Message operations *)

Definition chatExists (jid : string) (d : t) : bool :=
  existsb (fun c => (Chat.jid c =? jid)%string) (chats d).

(** [UPDATE chats SET last_message_id = ?, last_message_timestamp = ?,
    updated_at = now WHERE jid = ?] *)
Definition touchChat (now : Z) (id : string) (timestamp : Z) (chatJid : string)
    (c : Chat.row) : Chat.row :=
  if (Chat.jid c =? chatJid)%string then
    {| Chat.jid := Chat.jid c;
       Chat.name := Chat.name c;
       Chat.last_message_id := Some id;
       Chat.last_message_timestamp := Some timestamp;
       Chat.unread_count := Chat.unread_count c;
       Chat.is_archived := Chat.is_archived c;
       Chat.created_at := Chat.created_at c;
       Chat.updated_at := now |}
  else c.

(** [saveMessage(id, chatJid, fromMe, content, timestamp, messageType =
    'text', status = 'sent')]: [INSERT OR REPLACE INTO messages (id,
    chat_jid, from_me, message_type, content, timestamp, status)], then the
    update of the owning chat.  The insert is refused, and nothing is
    written, when [chatJid] is not the key of a chat. *)
Definition saveMessage (now : Z) (id chatJid : string) (fromMe : bool)
    (content : option string) (timestamp : Z) (messageType status : string)
    (d : t) : result t :=
  if negb (chatExists chatJid d) then DatabaseError "saveMessage"
  else
    let d' := deleteMessage id d in
    Ok {| chats := map (touchChat now id timestamp chatJid) (chats d');
          messages :=
            messages d' ++
            [ {| Message.id := id;
                 Message.chat_jid := chatJid;
                 Message.from_me := fromMe;
                 Message.message_type := messageType;
                 Message.content := content;
                 Message.timestamp := timestamp;
                 Message.status := status;
                 Message.reply_to_id := None;
                 Message.created_at := now |} ];
               contacts := contacts d' |}.

(** The query of [getMessages]: [SELECT * FROM messages WHERE chat_jid = ?
    ORDER BY timestamp DESC LIMIT ? OFFSET ?]. *)
Definition selectMessages (chatJid : string) (limit offset : Z) (d : t) : list Message.row :=
  limitOffset limit offset
    (orderByDesc Message.timestamp
       (filter (fun m => (Message.chat_jid m =? chatJid)%string) (messages d))).

(** [getMessages(chatJid, limit = 50, offset = 0)]: the rows of the query,
    reversed. *)
Definition getMessages (chatJid : string) (limit offset : Z) (d : t) : list Message.row :=
  rev (selectMessages chatJid limit offset d).

(** Modelled from the spec: [getMessage(id)], the existence check of the
    dedup rule, which the sync engine calls and [database.js] does not
    define: the row with that identifier, if there is one. *)
Definition getMessage (id : string) (d : t) : option Message.row :=
  findMessage id d.

(** *** Contact operations *)

(** [saveContact(jid, name, phoneNumber = null)]: [INSERT OR REPLACE INTO
    contacts (jid, name, phone_number, updated_at)]. *)
Definition saveContact (now : Z) (jid : string) (name phoneNumber : option string)
    (d : t) : t :=
  {| chats := chats d;
     messages := messages d;
     contacts :=
       filter (fun k => negb (Contact.jid k =? jid)%string) (contacts d) ++
       [ {| Contact.jid := jid;
            Contact.name := name;
            Contact.phone_number := phoneNumber;
            Contact.avatar_path := None;
            Contact.is_blocked := false;
            Contact.created_at := now;
            Contact.updated_at := now |} ] |}.

(** [getContact(jid)] *)
Definition getContact (jid : string) (d : t) : option Contact.row :=
  find (fun k => (Contact.jid k =? jid)%string) (contacts d).

(** [updateMessageStatus(messageId, status)]: [UPDATE messages SET status
    = ? WHERE id = ?]. *)
Definition setStatus (messageId status : string) (m : Message.row) : Message.row :=
  if (Message.id m =? messageId)%string then
    {| Message.id := Message.id m;
       Message.chat_jid := Message.chat_jid m;
       Message.from_me := Message.from_me m;
       Message.message_type := Message.message_type m;
       Message.content := Message.content m;
       Message.timestamp := Message.timestamp m;
       Message.status := status;
       Message.reply_to_id := Message.reply_to_id m;
       Message.created_at := Message.created_at m |}
  else m.

Definition updateMessageStatus (messageId status : string) (d : t) : t :=
  {| chats := chats d;
     messages := map (setStatus messageId status) (messages d);
     contacts := contacts d |}.

(** *** Cleanup *)

(** [6 * 30 * 24 * 60 * 60 * 1000] milliseconds. *)
Definition sixMonths : Z := 6 * 30 * 24 * 60 * 60 * 1000.

(** A reply to one of the deleted messages loses its target. *)
Definition clearReplies (gone : list string) (m : Message.row) : Message.row :=
  match Message.reply_to_id m with
  | Some r =>
      if existsb (fun id => (r =? id)%string) gone then
        {| Message.id := Message.id m;
           Message.chat_jid := Message.chat_jid m;
           Message.from_me := Message.from_me m;
           Message.message_type := Message.message_type m;
           Message.content := Message.content m;
           Message.timestamp := Message.timestamp m;
           Message.status := Message.status m;
           Message.reply_to_id := None;
           Message.created_at := Message.created_at m |}
      else m
  | None => m
  end.

(** [cleanup()] when [Date.now()] reads [nowMs]: [DELETE FROM messages
    WHERE timestamp < sixMonthsAgo], then [VACUUM], which changes no row. *)
Definition cleanup (nowMs : Z) (d : t) : t :=
  let sixMonthsAgo := nowMs - sixMonths in
  let old := fun m => Message.timestamp m <? sixMonthsAgo in
  let gone := map Message.id (filter old (messages d)) in
  {| chats := chats d;
     messages := map (clearReplies gone) (filter (fun m => negb (old m)) (messages d));
     contacts := contacts d |}.

End Database.

(** ** The settings table

    [settings] has no foreign key, so it is kept apart from the other
    tables: the list of its rows, each a key and the stored text ([None] is
    [NULL]). *)
Module Settings.

Definition t : Type := list (string * option string).

(** What [JSON.parse] makes of a text. *)
Inductive parsed : Type :=
| Parsed (v : Js.value)
| SyntaxError.

(** What [getSetting] gives back: a value, or the wrapped error. *)
Inductive outcome : Type :=
| Value (v : Js.value)
| DatabaseError (operation : string).

Section Json.

(** [JSON.stringify] and [JSON.parse] of the runtime.  [stringify] gives no
    text for [undefined], which is then stored as [NULL]; [parse] reads a
    [NULL] column as the text [null]. *)
Variable stringify : Js.value -> option string.
Variable parse : string -> parsed.

(** [setSetting(key, value)]: [INSERT OR REPLACE INTO settings (key, value,
    updated_at)]. *)
Definition setSetting (key : string) (value : Js.value) (s : t) : t :=
  (filter (fun r => negb (fst r =? key)%string) s ++ [(key, stringify value)])%list.

(** [getSetting(key, defaultValue = null)] *)
Definition getSetting (key : string) (defaultValue : Js.value) (s : t) : outcome :=
  match find (fun r => (fst r =? key)%string) s with
  | Some (_, text) =>
      match parse (match text with Some x => x | None => "null" end) with
      | Parsed v => Value v
      | SyntaxError => DatabaseError "getSetting"
      end
  | None => Value defaultValue
  end.

End Json.

End Settings.

(** ** The backend ([backend.js]) *)
Module Backend.

(** *** Configuration *)
Definition MAX_RECONNECT_ATTEMPTS : Z := 5.
Definition RECONNECT_DELAY : Z := 5000.

(** [DisconnectReason.loggedOut] of the upstream library. *)
Definition loggedOut : Z := 401.

(** *** What goes to the UI client *)

(** An entry of the chat list, as [handleGetInitialChats], [loadInitialChats]
    and [handleHistorySet] build it. *)
Module ChatData.
Record t := {
  jid : string;
  name : option string;
  lastMessage : Js.value;
  timestamp : option Z;
  lastMessageType : string;
  lastMessageFrom : option string;
  unreadCount : Z;
  avatarBase64 : option string;
  chatAvatarBase64 : option string;
  phoneNumber : option string
}.
End ChatData.

(** The [data] of an event. *)
Inductive data : Type :=
| NoData                                             (* {} *)
| Chats (chats : list ChatData.t)                    (* { chats } *)
| TypedError (type message : string)                 (* { type, message } *)
| ErrorResponse (category context : string)          (* errorHandler.category(error, context) *)
| ConnectionStatus (status : string) (reason : option string)
| Reason (reason : string)                           (* { reason } *)
| QrUrl (url : string).                              (* { url } *)

(** One call of [sendToFrontend]: the event, and whether it was written to
    the client socket ([true]) or dropped with a warning because no open
    client socket was attached ([false]). *)
Record sent := {
  sentType : string;
  sentData : data;
  delivered : bool
}.

Module WebSocket.
Definition OPEN : Z := 1.
Record t := {
  ident : nat;
  readyState : Z
}.
End WebSocket.

(** *** Global state *)
Record t := {
  clientSocket : option WebSocket.t;
  initialChatsPayload : option (list ChatData.t);
  baileysConnectionStatus : option string;   (* [None] is undefined *)
  sock : bool;                               (* the upstream socket exists *)
  clientIsWaitingForChats : bool;
  reconnectAttempts : Z;
  (* the environment *)
  authInfo : bool;             (* the directory baileys_auth_info exists *)
  timers : list Z;             (* pending setTimeout(() => connectToWhatsApp(), delay) *)
  frontend : list sent;        (* the calls of sendToFrontend, oldest first *)
  fetches : list (string * Z); (* the calls of sock.fetchMessageHistory, oldest first *)
  now : Z;                     (* Date.now() *)
  db : Database.t
}.

Definition initial (now0 : Z) (d : Database.t) : t :=
  {| clientSocket := None;
     initialChatsPayload := None;
     baileysConnectionStatus := Some "closed";
     sock := false;
     clientIsWaitingForChats := false;
     reconnectAttempts := 0;
     authInfo := false;
     timers := [];
     frontend := [];
     fetches := [];
     now := now0;
     db := d |}.

Definition set_clientSocket (v : option WebSocket.t) (st : t) : t :=
  {| clientSocket := v; initialChatsPayload := initialChatsPayload st;
     baileysConnectionStatus := baileysConnectionStatus st; sock := sock st;
     clientIsWaitingForChats := clientIsWaitingForChats st;
     reconnectAttempts := reconnectAttempts st; authInfo := authInfo st;
     timers := timers st; frontend := frontend st; fetches := fetches st;
     now := now st; db := db st |}.

Definition set_initialChatsPayload (v : option (list ChatData.t)) (st : t) : t :=
  {| clientSocket := clientSocket st; initialChatsPayload := v;
     baileysConnectionStatus := baileysConnectionStatus st; sock := sock st;
     clientIsWaitingForChats := clientIsWaitingForChats st;
     reconnectAttempts := reconnectAttempts st; authInfo := authInfo st;
     timers := timers st; frontend := frontend st; fetches := fetches st;
     now := now st; db := db st |}.

Definition set_baileysConnectionStatus (v : option string) (st : t) : t :=
  {| clientSocket := clientSocket st; initialChatsPayload := initialChatsPayload st;
     baileysConnectionStatus := v; sock := sock st;
     clientIsWaitingForChats := clientIsWaitingForChats st;
     reconnectAttempts := reconnectAttempts st; authInfo := authInfo st;
     timers := timers st; frontend := frontend st; fetches := fetches st;
     now := now st; db := db st |}.

Definition set_sock (v : bool) (st : t) : t :=
  {| clientSocket := clientSocket st; initialChatsPayload := initialChatsPayload st;
     baileysConnectionStatus := baileysConnectionStatus st; sock := v;
     clientIsWaitingForChats := clientIsWaitingForChats st;
     reconnectAttempts := reconnectAttempts st; authInfo := authInfo st;
     timers := timers st; frontend := frontend st; fetches := fetches st;
     now := now st; db := db st |}.

Definition set_clientIsWaitingForChats (v : bool) (st : t) : t :=
  {| clientSocket := clientSocket st; initialChatsPayload := initialChatsPayload st;
     baileysConnectionStatus := baileysConnectionStatus st; sock := sock st;
     clientIsWaitingForChats := v;
     reconnectAttempts := reconnectAttempts st; authInfo := authInfo st;
     timers := timers st; frontend := frontend st; fetches := fetches st;
     now := now st; db := db st |}.

Definition set_reconnectAttempts (v : Z) (st : t) : t :=
  {| clientSocket := clientSocket st; initialChatsPayload := initialChatsPayload st;
     baileysConnectionStatus := baileysConnectionStatus st; sock := sock st;
     clientIsWaitingForChats := clientIsWaitingForChats st;
     reconnectAttempts := v; authInfo := authInfo st;
     timers := timers st; frontend := frontend st; fetches := fetches st;
     now := now st; db := db st |}.

Definition set_authInfo (v : bool) (st : t) : t :=
  {| clientSocket := clientSocket st; initialChatsPayload := initialChatsPayload st;
     baileysConnectionStatus := baileysConnectionStatus st; sock := sock st;
     clientIsWaitingForChats := clientIsWaitingForChats st;
     reconnectAttempts := reconnectAttempts st; authInfo := v;
     timers := timers st; frontend := frontend st; fetches := fetches st;
     now := now st; db := db st |}.

Definition set_timers (v : list Z) (st : t) : t :=
  {| clientSocket := clientSocket st; initialChatsPayload := initialChatsPayload st;
     baileysConnectionStatus := baileysConnectionStatus st; sock := sock st;
     clientIsWaitingForChats := clientIsWaitingForChats st;
     reconnectAttempts := reconnectAttempts st; authInfo := authInfo st;
     timers := v; frontend := frontend st; fetches := fetches st;
     now := now st; db := db st |}.

Definition set_frontend (v : list sent) (st : t) : t :=
  {| clientSocket := clientSocket st; initialChatsPayload := initialChatsPayload st;
     baileysConnectionStatus := baileysConnectionStatus st; sock := sock st;
     clientIsWaitingForChats := clientIsWaitingForChats st;
     reconnectAttempts := reconnectAttempts st; authInfo := authInfo st;
     timers := timers st; frontend := v; fetches := fetches st;
     now := now st; db := db st |}.

Definition set_fetches (v : list (string * Z)) (st : t) : t :=
  {| clientSocket := clientSocket st; initialChatsPayload := initialChatsPayload st;
     baileysConnectionStatus := baileysConnectionStatus st; sock := sock st;
     clientIsWaitingForChats := clientIsWaitingForChats st;
     reconnectAttempts := reconnectAttempts st; authInfo := authInfo st;
     timers := timers st; frontend := frontend st; fetches := v;
     now := now st; db := db st |}.

Definition set_now (v : Z) (st : t) : t :=
  {| clientSocket := clientSocket st; initialChatsPayload := initialChatsPayload st;
     baileysConnectionStatus := baileysConnectionStatus st; sock := sock st;
     clientIsWaitingForChats := clientIsWaitingForChats st;
     reconnectAttempts := reconnectAttempts st; authInfo := authInfo st;
     timers := timers st; frontend := frontend st; fetches := fetches st;
     now := v; db := db st |}.

Definition set_db (v : Database.t) (st : t) : t :=
  {| clientSocket := clientSocket st; initialChatsPayload := initialChatsPayload st;
     baileysConnectionStatus := baileysConnectionStatus st; sock := sock st;
     clientIsWaitingForChats := clientIsWaitingForChats st;
     reconnectAttempts := reconnectAttempts st; authInfo := authInfo st;
     timers := timers st; frontend := frontend st; fetches := fetches st;
     now := now st; db := v |}.

(** [strftime('%s', 'now')] at the moment [Date.now()] reads [now st]. *)
Definition seconds (st : t) : Z := now st / 1000.

(** [await new Promise(resolve => setTimeout(resolve, ms))] *)
Definition delay (ms : Z) (st : t) : t := set_now (now st + ms) st.

(** [setTimeout(() => connectToWhatsApp(), ms)] *)
Definition scheduleConnect (ms : Z) (st : t) : t := set_timers (timers st ++ [ms]) st.

Definition isOpen (st : t) : bool :=
  match baileysConnectionStatus st with
  | Some s => (s =? "open")%string
  | None => false
  end.

(** [sock && baileysConnectionStatus === 'open'] *)
Definition connected (st : t) : bool := sock st && isOpen st.

(** *** Relay protocol server *)

(** [clientSocket && clientSocket.readyState === clientSocket.OPEN] *)
Definition clientOpen (st : t) : bool :=
  match clientSocket st with
  | Some ws => WebSocket.readyState ws =? WebSocket.OPEN
  | None => false
  end.

(** [sendToFrontend(type, data)] *)
Definition sendToFrontend (type : string) (payload : data) (st : t) : t :=
  set_frontend
    (frontend st ++
     [ {| sentType := type; sentData := payload; delivered := clientOpen st |} ])
    st.

(** A nullable [TEXT] column read into JavaScript. *)
Definition ofText (o : option string) : Js.value :=
  match o with
  | Some s => Js.Str s
  | None => Js.Null
  end.

(** A JavaScript value bound to a [TEXT] parameter: a string is stored as
    it is, [undefined] and [null] as [NULL].  The upstream delivers text in
    the fields that reach the store; for another value [NULL] stands in. *)
Definition toText (v : Js.value) : option string :=
  match v with
  | Js.Str s => Some s
  | _ => None
  end.

(** The mapping of a [getChats] row to a chat-list entry, shared by
    [handleGetInitialChats], [loadInitialChats] and [refreshChatList]. *)
Definition chatDataOfRow (chat : ChatListRow.row) : ChatData.t :=
  let lastMessageType :=
    match Js.or_text (ChatListRow.last_message_type chat) (Some "text") with
    | Some s => s
    | None => "text"
    end in
  {| ChatData.jid := ChatListRow.jid chat;
     ChatData.name :=
       Js.or_text
         (Js.or_text (ChatListRow.contact_name chat) (ChatListRow.name chat))
         (Some (ChatListRow.jid chat));
     ChatData.lastMessage :=
       Display.formatLastMessageContent
         (ofText (ChatListRow.last_message_content chat)) lastMessageType;
     ChatData.timestamp := ChatListRow.last_message_timestamp chat;
     ChatData.lastMessageType := lastMessageType;
     ChatData.lastMessageFrom := ChatListRow.last_message_from chat;
     ChatData.unreadCount := ChatListRow.unread_count chat;
     ChatData.avatarBase64 := ChatListRow.contact_avatar_base64 chat;
     ChatData.chatAvatarBase64 := ChatListRow.avatar_base64 chat;
     ChatData.phoneNumber := ChatListRow.contact_phone_number chat |}.

(** [handleGetInitialChats()]; [database.getChats()] runs with its default
    limit of 50. *)
Definition handleGetInitialChats (st : t) : t :=
  match initialChatsPayload st with
  | Some payload => sendToFrontend "initial_chats" (Chats payload) st
  | None =>
      let dbChats := Database.getChats 50 (db st) in
      match dbChats with
      | _ :: _ => sendToFrontend "initial_chats" (Chats (map chatDataOfRow dbChats)) st
      | [] => set_clientIsWaitingForChats true st
      end
  end.

(** [handleWebSocketConnection(ws)], up to the registration of the
    listeners of [ws], which are the two handlers below. *)
Definition handleWebSocketConnection (ws : WebSocket.t) (st : t) : t :=
  let st1 := set_clientSocket (Some ws) st in
  if isOpen st1 then sendToFrontend "baileys_ready" NoData st1 else st1.

(** [ws.on('close', ...)] *)
Definition handleWebSocketClose (st : t) : t :=
  set_clientIsWaitingForChats false (set_clientSocket None st).

(** The enumerated commands of [handleFrontendCommand]. *)
Inductive command : Type :=
| GetInitialChats
| SendMessage
| GetMessageHistory
| TypingStart
| TypingStop
| HealthCheck
| SyncContacts
| GetContactInfo.

Definition commandTypes : list (string * command) :=
  [ ("get_initial_chats", GetInitialChats);
    ("send_message", SendMessage);
    ("get_message_history", GetMessageHistory);
    ("typing_start", TypingStart);
    ("typing_stop", TypingStop);
    ("health_check", HealthCheck);
    ("sync_contacts", SyncContacts);
    ("get_contact_info", GetContactInfo) ].

(** The [case] label that [type] matches, if any. *)
Fixpoint matchCase (type : string) (cases : list (string * command)) : option command :=
  match cases with
  | [] => None
  | (label, c) :: rest => if (type =? label)%string then Some c else matchCase type rest
  end.

Section Handlers.

(** The handlers of the seven commands other than [get_initial_chats]
    ([handleSendMessage], [handleGetMessageHistory], [handleTypingStart],
    [handleTypingStop], [handleHealthCheck], [handleSyncContacts],
    [handleGetContactInfo]) talk to the upstream and are taken as given. *)
Variable handleOther : command -> Js.value -> t -> t.

(** [handleFrontendCommand(parsedMessage)] with [{ type, data } =
    parsedMessage]. *)
Definition handleFrontendCommand (type : string) (payload : Js.value) (st : t) : t :=
  match matchCase type commandTypes with
  | Some GetInitialChats => handleGetInitialChats st
  | Some c => handleOther c payload st
  | None =>
      sendToFrontend "error"
        (TypedError "unknown_command" ("Unknown command: " ++ type)) st
  end.

(** [ws.on('message', ...)]: [None] is a text that [JSON.parse] rejects. *)
Definition handleWebSocketMessage (parsedMessage : option (string * Js.value)) (st : t) : t :=
  match parsedMessage with
  | Some (type, payload) => handleFrontendCommand type payload st
  | None => sendToFrontend "error" (ErrorResponse "websocket" "message processing") st
  end.

End Handlers.

(** *** Snapshot producers *)

(** A conversation as the upstream delivers it in a history set. *)
Module WAChat.
Record t := {
  id : string;
  name : option string;
  unreadCount : Z;
  messages : option (list WAMessage.t)
}.
End WAChat.

(** The messages of a chat that [handleHistorySet] saves:
    [chat.messages.slice(0, 10)], each with display text and an identifier;
    a refused insert is logged and skipped. *)
Fixpoint saveHistoryMessages (nowSec : Z) (chatId : string)
    (msgs : list WAMessage.t) (d : Database.t) : Database.t :=
  match msgs with
  | [] => d
  | msg :: rest =>
      let messageContent := Display.getDisplayMessage msg in
      let d' :=
        if Js.truthy messageContent && negb (WAMessage.key_id msg =? "")%string then
          match Database.saveMessage nowSec (WAMessage.key_id msg) chatId
                  (WAMessage.key_fromMe msg) (toText messageContent)
                  (WAMessage.messageTimestamp msg * 1000) "text" "received" d with
          | Database.Ok d1 => d1
          | Database.DatabaseError _ => d
          end
        else d in
      saveHistoryMessages nowSec chatId rest d'
  end.

(** The body of the loop of [handleHistorySet] for one chat: the entry
    pushed to [chats], and the writes to the store. *)
Definition historyChat (chat : WAChat.t) (st : t) : ChatData.t * t :=
  let lastMessage :=
    match WAChat.messages chat with
    | Some (m :: _) => Some m
    | _ => None
    end in
  let lastMessageType :=
    match lastMessage with Some m => Display.getMessageType m | None => "text" end in
  let lastMessageContent :=
    match lastMessage with Some m => Display.getDisplayMessage m | None => Js.Null end in
  let lastMessageFrom :=
    match lastMessage with
    | Some m => Some (if WAMessage.key_fromMe m then "me" else WAChat.id chat)
    | None => None
    end in
  let timestamp :=
    match lastMessage with
    | Some m =>
        if WAMessage.messageTimestamp m * 1000 =? 0 then now st
        else WAMessage.messageTimestamp m * 1000
    | None => now st
    end in
  let chatData :=
    {| ChatData.jid := WAChat.id chat;
       ChatData.name := Js.or_text (WAChat.name chat) (Some (WAChat.id chat));
       ChatData.lastMessage :=
         Display.formatLastMessageContent lastMessageContent lastMessageType;
       ChatData.timestamp := Some timestamp;
       ChatData.lastMessageType := lastMessageType;
       ChatData.lastMessageFrom := lastMessageFrom;
       ChatData.unreadCount := WAChat.unreadCount chat;
       ChatData.avatarBase64 := None;
       ChatData.chatAvatarBase64 := None;
       ChatData.phoneNumber := None |} in
  let d1 :=
    Database.saveChat (seconds st) (ChatData.jid chatData) (ChatData.name chatData)
      (match lastMessage with Some m => Some (WAMessage.key_id m) | None => None end)
      (Some timestamp) (db st) in
  let d2 :=
    if Js.truthy_text (WAChat.name chat)
       && negb (match WAChat.name chat with
                | Some n => (n =? WAChat.id chat)%string
                | None => false
                end)
    then Database.saveContact (seconds st) (WAChat.id chat) (WAChat.name chat) None d1
    else d1 in
  let d3 :=
    match WAChat.messages chat with
    | Some msgs =>
        saveHistoryMessages (seconds st) (WAChat.id chat) (firstn 10 msgs) d2
    | None => d2
    end in
  (chatData, set_db d3 st).

Fixpoint historyChats (chats : list WAChat.t) (st : t) : list ChatData.t * t :=
  match chats with
  | [] => ([], st)
  | chat :: rest =>
      let '(chatData, st1) := historyChat chat st in
      let '(more, st2) := historyChats rest st1 in
      (chatData :: more, st2)
  end.

(** The end of every snapshot producer: cache the list, and hand it to a
    client that asked before there was one. *)
Definition publishInitialChats (chats : list ChatData.t) (st : t) : t :=
  let st1 := set_initialChatsPayload (Some chats) st in
  if clientIsWaitingForChats st1 then
    set_clientIsWaitingForChats false
      (sendToFrontend "initial_chats" (Chats chats) st1)
  else st1.

(** [handleHistorySet(item)] with [item.chats = chats] *)
Definition handleHistorySet (chats : list WAChat.t) (st : t) : t :=
  let '(entries, st1) := historyChats chats st in
  publishInitialChats entries st1.

(** [loadInitialChats()], up to the start of the background contact
    synchronisation. *)
Definition loadInitialChats (st : t) : t :=
  let dbChats := Database.getChats 50 (db st) in
  match dbChats with
  | _ :: _ => publishInitialChats (map chatDataOfRow dbChats) st
  | [] => st
  end.

(** *** Connection manager *)

(** How a call of [connectToWhatsApp] ends: the socket is set up, or one
    of the steps of the set-up throws. *)
Inductive connectOutcome : Type :=
| SocketCreated
| ConnectThrows.

(** [connectToWhatsApp()] *)
Definition connectToWhatsApp (outcome : connectOutcome) (st : t) : t :=
  match outcome with
  | SocketCreated => set_sock true st
  | ConnectThrows =>
      if reconnectAttempts st <? MAX_RECONNECT_ATTEMPTS then
        scheduleConnect RECONNECT_DELAY
          (set_reconnectAttempts (reconnectAttempts st + 1) st)
      else
        sendToFrontend "connection_failed"
          (ErrorResponse "baileys" "connection initialization") st
  end.

(** [lastDisconnect.error]: the status code when the error is a [Boom], and
    the message. *)
Record disconnectError := {
  boomStatusCode : option Z;
  errorMessage : option string
}.

(** The argument of [handleConnectionUpdate].  [qr] is the data URL that
    [qrcode.toDataURL] makes of the challenge, or [Some None] when it
    fails. *)
Record connectionUpdate := {
  connection : option string;
  lastDisconnect : option disconnectError;
  qr : option (option string)
}.

Definition statusCode (update : connectionUpdate) : Z :=
  match lastDisconnect update with
  | Some e => match boomStatusCode e with Some c => c | None => 500 end
  | None => 500
  end.

Definition reason (update : connectionUpdate) : string :=
  match lastDisconnect update with
  | Some e =>
      if Js.truthy_text (errorMessage e)
      then match errorMessage e with Some s => s | None => "Unknown reason" end
      else "Unknown reason"
  | None => "Unknown reason"
  end.

Section ConnectionUpdate.

(** What [handleConnectionUpdate] runs after the status events of an
    ['open'] update: the choice between first download and incremental
    sync, and the sync itself. *)
Variable syncOnOpen : t -> t.

(** [handleConnectionUpdate(update)] *)
Definition handleConnectionUpdate (update : connectionUpdate) (st : t) : t :=
  let st1 :=
    match qr update with
    | Some (Some url) => sendToFrontend "qr" (QrUrl url) st
    | _ => st
    end in
  let st2 := set_baileysConnectionStatus (connection update) st1 in
  match connection update with
  | Some c =>
      if (c =? "close")%string then
        let st3 := set_initialChatsPayload None st2 in
        let st4 :=
          sendToFrontend "connection_status"
            (ConnectionStatus "closed" (Some (reason update))) st3 in
        if statusCode update =? loggedOut then
          scheduleConnect 2000 (set_reconnectAttempts 0 (set_authInfo false st4))
        else if reconnectAttempts st4 <? MAX_RECONNECT_ATTEMPTS then
          scheduleConnect RECONNECT_DELAY
            (set_reconnectAttempts (reconnectAttempts st4 + 1) st4)
        else
          sendToFrontend "connection_failed"
            (Reason "Max reconnection attempts reached") st4
      else if (c =? "open")%string then
        syncOnOpen
          (sendToFrontend "connection_status" (ConnectionStatus "open" None)
             (sendToFrontend "baileys_ready" NoData
                (set_reconnectAttempts 0 st2)))
      else if (c =? "connecting")%string then
        sendToFrontend "connection_status" (ConnectionStatus "connecting" None) st2
      else st2
  | None => st2
  end.

(** One connect attempt that fails: the set-up throws, or the socket is
    created and the upstream then reports the connection closed. *)
Inductive failure : Type :=
| SetupThrows
| ConnectionClosed (lastDisconnect : option disconnectError).

Definition closeUpdate (e : option disconnectError) : connectionUpdate :=
  {| connection := Some "close"; lastDisconnect := e; qr := None |}.

Definition failedAttempt (f : failure) (st : t) : t :=
  match f with
  | SetupThrows => connectToWhatsApp ConnectThrows st
  | ConnectionClosed e =>
      handleConnectionUpdate (closeUpdate e) (connectToWhatsApp SocketCreated st)
  end.

(** The next attempt runs when the pending timer fires; without a pending
    timer there is no next attempt. *)
Definition retry (f : failure) (st : t) : t :=
  match timers st with
  | [] => st
  | _ :: rest => failedAttempt f (set_timers rest st)
  end.

(** The first attempt (made by [initializeBackend]) and the retries that
    follow it, all failing. *)
Definition consecutiveFailures (fs : list failure) (st : t) : t :=
  match fs with
  | [] => st
  | f :: rest => fold_left (fun s f' => retry f' s) rest (failedAttempt f st)
  end.

End ConnectionUpdate.

(** A failure that is not a logout. *)
Definition notLogout (f : failure) : bool :=
  match f with
  | SetupThrows => true
  | ConnectionClosed e => negb (statusCode (closeUpdate e) =? loggedOut)
  end.

(** The number of events of a type in the log of [sendToFrontend]. *)
Definition countSent (type : string) (st : t) : nat :=
  length (filter (fun e => (sentType e =? type)%string) (frontend st)).

(** The events of a type that reached the client. *)
Definition deliveredOf (type : string) (st : t) : list data :=
  map sentData
      (filter (fun e => (sentType e =? type)%string && delivered e) (frontend st)).

(** *** Sync engine *)

(** What [sock.fetchMessageHistory(jid, count)] answers: an array of
    messages, [null] or [undefined], or a rejection. *)
Inductive fetchResult : Type :=
| Messages (messages : list WAMessage.t)
| NoArray
| FetchThrows.

Section Sync.

(** The upstream: its answer to the [n]-th call (counting from 0) of
    [fetchMessageHistory], given the chat and the count asked for. *)
Variable upstream : nat -> string -> Z -> fetchResult.

(** [await sock.fetchMessageHistory(jid, count)] *)
Definition fetchMessageHistory (jid : string) (count : Z) (st : t) : fetchResult * t :=
  (upstream (length (fetches st)) jid count,
   set_fetches (fetches st ++ [(jid, count)]) st).

(** The loop over one fetched batch in [downloadMessageHistory]; the
    second component counts the saved messages.  The media download that
    follows the save of a message with media writes none of the tables
    modelled here. *)
Fixpoint saveBatch (jid : string) (msgs : list WAMessage.t) (st : t)
    (batchSavedCount : Z) : t * Z :=
  match msgs with
  | [] => (st, batchSavedCount)
  | msg :: rest =>
      match Database.getMessage (WAMessage.key_id msg) (db st) with
      | Some _ => saveBatch jid rest st batchSavedCount
      | None =>
          let messageContent := Display.getDisplayMessage msg in
          let messageType := Display.getMessageType msg in
          if Js.truthy messageContent || negb (messageType =? "text")%string then
            match Database.saveMessage (seconds st) (WAMessage.key_id msg) jid
                    (WAMessage.key_fromMe msg)
                    (toText (Js.or messageContent (Js.Str "")))
                    (WAMessage.messageTimestamp msg * 1000) messageType "received"
                    (db st) with
            | Database.Ok d => saveBatch jid rest (set_db d st) (batchSavedCount + 1)
            | Database.DatabaseError _ => saveBatch jid rest st batchSavedCount
            end
          else saveBatch jid rest st batchSavedCount
      end
  end.

(** The [while (remainingLimit > 0 && batchSize > 0)] loop of
    [downloadMessageHistory]; [None] when [fuel] iterations do not finish
    it. *)
Fixpoint downloadLoop (fuel : nat) (jid : string) (batchSize remainingLimit
    totalSavedCount : Z) (st : t) : option (t * Z) :=
  if (0 <? remainingLimit) && (0 <? batchSize) then
    match fuel with
    | O => None
    | S fuel' =>
        let currentBatchSize := Z.min batchSize remainingLimit in
        let '(answer, st1) := fetchMessageHistory jid currentBatchSize st in
        match answer with
        | FetchThrows => Some (st1, totalSavedCount)
        | NoArray => Some (st1, totalSavedCount)
        | Messages [] => Some (st1, totalSavedCount)
        | Messages messages =>
            let '(st2, batchSavedCount) := saveBatch jid messages st1 0 in
            let totalSavedCount' := totalSavedCount + batchSavedCount in
            let remainingLimit' := remainingLimit - currentBatchSize in
            if Z.of_nat (length messages) <? currentBatchSize then
              Some (st2, totalSavedCount')
            else
              downloadLoop fuel' jid batchSize remainingLimit' totalSavedCount'
                (delay 200 st2)
        end
    end
  else Some (st, totalSavedCount).

(** [downloadMessageHistory(jid, limit = 200)]: the final state and the
    number of saved messages.  The loop takes at most [limit] iterations. *)
Definition downloadMessageHistory (jid : string) (limit : Z) (st : t) : t * Z :=
  if negb (connected st) then (st, 0)
  else
    match downloadLoop (Z.to_nat limit) jid 50 limit 0 st with
    | Some r => r
    | None => (st, 0)
    end.

(** The message part of the loop over the chats in
    [performComprehensiveDataDownload]; contact data, avatars and progress
    events are left out. *)
Fixpoint downloadChats (chats : list ChatListRow.row) (downloadedMessages : Z)
    (st : t) : t * Z :=
  match chats with
  | [] => (st, downloadedMessages)
  | chat :: rest =>
      let '(st1, messageCount) :=
        downloadMessageHistory (ChatListRow.jid chat) 500 st in
      downloadChats rest (downloadedMessages + messageCount) (delay 200 st1)
  end.

(** The loop over the fetched window in [syncChatMessages]. *)
Fixpoint syncBatch (jid : string) (lastMessageTime : Z) (msgs : list WAMessage.t)
    (st : t) (newMessageCount : Z) : t * Z :=
  match msgs with
  | [] => (st, newMessageCount)
  | msg :: rest =>
      let messageTime := WAMessage.messageTimestamp msg * 1000 in
      if messageTime <=? lastMessageTime then
        syncBatch jid lastMessageTime rest st newMessageCount
      else
        let messageContent := Display.getDisplayMessage msg in
        if Js.truthy messageContent then
          match Database.getMessage (WAMessage.key_id msg) (db st) with
          | Some _ => syncBatch jid lastMessageTime rest st newMessageCount
          | None =>
              match Database.saveMessage (seconds st) (WAMessage.key_id msg) jid
                      (WAMessage.key_fromMe msg) (toText messageContent)
                      messageTime "text" "received" (db st) with
              | Database.Ok d =>
                  syncBatch jid lastMessageTime rest (set_db d st) (newMessageCount + 1)
              | Database.DatabaseError _ =>
                  syncBatch jid lastMessageTime rest st newMessageCount
              end
          end
        else syncBatch jid lastMessageTime rest st newMessageCount
  end.

(** [syncChatMessages(jid, lastSyncTime)]: the final state and the number
    of new messages. *)
Definition syncChatMessages (jid : string) (lastSyncTime : Z) (st : t) : t * Z :=
  if negb (connected st) then (st, 0)
  else
    let recentMessages := Database.getMessages jid 1 0 (db st) in
    let lastMessageTime :=
      match recentMessages with
      | m :: _ => Message.timestamp m
      | [] => lastSyncTime
      end in
    let timeSinceLastCheck := now st - lastMessageTime in
    if timeSinceLastCheck <? 60000 then (st, 0)
    else
      let '(answer, st1) := fetchMessageHistory jid 20 st in
      match answer with
      | Messages messages => syncBatch jid lastMessageTime messages st1 0
      | NoArray => (st1, 0)
      | FetchThrows => (st1, 0)
      end.

End Sync.

(** *** Chat list refresh and contact synchronisation *)

(** [s.endsWith(suffix)] and [s.includes(part)] *)
Definition endsWith (s suffix : string) : bool :=
  let n := String.length s in
  let m := String.length suffix in
  (m <=? n)%nat && (substring (n - m) m s =? suffix)%string.

Definition includes (s part : string) : bool :=
  match index 0 part s with
  | Some _ => true
  | None => false
  end.

(** [isFirstTimeLogin()] *)
Definition isFirstTimeLogin (st : t) : bool :=
  match Database.getChats 1 (db st) with
  | [] => true
  | _ :: _ => false
  end.

(** [refreshChatList()] *)
Definition refreshChatList (st : t) : t :=
  let chats := map chatDataOfRow (Database.getChats 50 (db st)) in
  sendToFrontend "chats_updated" (Chats chats)
    (set_initialChatsPayload (Some chats) st).

(** What [sock.groupMetadata(jid)] answers: the metadata with its subject,
    if it has one, or a rejection. *)
Inductive groupAnswer : Type :=
| GroupMetadata (subject : option string)
| GroupThrows.

(** [syncContactData(jid)], given the answer of the upstream in case it is
    asked: the final state and [{ nameUpdated, avatarDownloaded }]. *)
Definition syncContactData (answer : groupAnswer) (jid : string) (st : t)
    : t * (bool * bool) :=
  if negb (connected st) then (st, (false, false))
  else
    let existingContact := Database.getContact jid (db st) in
    let existingName :=
      match existingContact with
      | Some k => Contact.name k
      | None => None
      end in
    if endsWith jid "@g.us" then
      match answer with
      | GroupMetadata (Some subject) =>
          if negb (subject =? "")%string
             && negb (match existingName with
                      | Some n => (subject =? n)%string
                      | None => false
                      end)
          then
            (set_db (Database.saveContact (seconds st) jid (Some subject) None (db st)) st,
             (true, false))
          else (st, (false, false))
      | GroupMetadata None => (st, (false, false))
      | GroupThrows => (st, (false, false))
      end
    else (st, (false, false)).

(** The loop of [syncContactsInBackground]; the second component is
    [syncedCount]. *)
Fixpoint syncContacts (chats : list ChatListRow.row) (st : t) (syncedCount : Z) : t * Z :=
  match chats with
  | [] => (st, syncedCount)
  | chat :: rest =>
      let jid := ChatListRow.jid chat in
      let contactName := Js.or_text (ChatListRow.contact_name chat) (ChatListRow.name chat) in
      let meaningful :=
        match contactName with
        | Some n =>
            negb (n =? "")%string && negb (n =? jid)%string && negb (includes n "@")
        | None => false
        end in
      let '(st1, syncedCount1) :=
        if meaningful
        then (set_db (Database.saveContact (seconds st) jid contactName None (db st)) st,
              syncedCount + 1)
        else (st, syncedCount) in
      syncContacts rest (delay 100 st1) syncedCount1
  end.

(** [syncContactsInBackground()]: the final state and the number of
    contacts saved. *)
Definition syncContactsInBackground (st : t) : t * Z :=
  if negb (connected st) then (st, 0)
  else syncContacts (Database.getChats 100 (db st)) st 0.

End Backend.

(** ** Vocabulary of the statements *)

(** A list is in descending (ascending) order of a key. *)
Definition descending {A : Type} (key : A -> Z) : list A -> Prop :=
  StronglySorted (fun a b => key b <= key a).

Definition ascending {A : Type} (key : A -> Z) : list A -> Prop :=
  StronglySorted (fun a b => key a <= key b).

(** The rows of [messages] with a given identifier. *)
Definition rowsWithId (id : string) (d : Database.t) : list Message.row :=
  filter (fun m => (Message.id m =? id)%string) (Database.messages d).

(** [id] is a key of [messages]: no two rows share an identifier. *)
Definition uniqueIds (d : Database.t) : Prop :=
  NoDup (map Message.id (Database.messages d)).

(** The chat rows of a given chat identifier. *)
Definition chatRows (jid : string) (d : Database.t) : list Chat.row :=
  filter (fun c => (Chat.jid c =? jid)%string) (Database.chats d).

(** The rows of [messages] left after the deletion of the message [id]. *)
Definition others (id : string) (l : list Message.row) : list Message.row :=
  map (Database.clearReply id)
      (filter (fun m => negb (Message.id m =? id)%string) l).

(** The states of the store that the operations of [database.js] build from
    the empty one. *)
Inductive reachable : Database.t -> Prop :=
| reach_empty : reachable Database.empty
| reach_saveChat now jid name lastMessageId timestamp d :
    reachable d ->
    reachable (Database.saveChat now jid name lastMessageId timestamp d)
| reach_saveContact now jid name phoneNumber d :
    reachable d ->
    reachable (Database.saveContact now jid name phoneNumber d)
| reach_saveMessage now id chatJid fromMe content timestamp messageType status d d' :
    reachable d ->
    Database.saveMessage now id chatJid fromMe content timestamp messageType status d
      = Database.Ok d' ->
    reachable d'.

(** ** Integrity of the store *)

(** No message is a reply: [saveMessage] never fills [reply_to_id]. *)
Definition noReplies (d : Database.t) : Prop :=
  Forall (fun m => Message.reply_to_id m = None) (Database.messages d).

(** [jid] is a key of [chats], and of [contacts]. *)
Definition uniqueChats (d : Database.t) : Prop :=
  NoDup (map Chat.jid (Database.chats d)).

Definition uniqueContacts (d : Database.t) : Prop :=
  NoDup (map Contact.jid (Database.contacts d)).

(** Every message belongs to a chat of the store. *)
Definition ownedMessages (d : Database.t) : Prop :=
  Forall (fun m => Database.chatExists (Message.chat_jid m) d = true)
         (Database.messages d).

(** No chat is archived and no chat counts unread messages. *)
Definition plainChats (d : Database.t) : Prop :=
  Forall (fun c => Chat.is_archived c = false /\ Chat.unread_count c = 0)
         (Database.chats d).

Record consistent (d : Database.t) : Prop := {
  cons_chats : uniqueChats d;
  cons_ids : uniqueIds d;
  cons_contacts : uniqueContacts d;
  cons_owned : ownedMessages d;
  cons_replies : noReplies d;
  cons_plain : plainChats d
}.

(** The states of the store that the writing operations of [database.js]
    build from the empty one. *)
Inductive built : Database.t -> Prop :=
| built_empty : built Database.empty
| built_saveChat now jid name lastMessageId timestamp d :
    built d -> built (Database.saveChat now jid name lastMessageId timestamp d)
| built_saveContact now jid name phoneNumber d :
    built d -> built (Database.saveContact now jid name phoneNumber d)
| built_saveMessage now id chatJid fromMe content timestamp messageType status d d' :
    built d ->
    Database.saveMessage now id chatJid fromMe content timestamp messageType status d
      = Database.Ok d' ->
    built d'
| built_updateMessageStatus messageId status d :
    built d -> built (Database.updateMessageStatus messageId status d)
| built_cleanup nowMs d :
    built d -> built (Database.cleanup nowMs d).

(** The preview that the history set shows for a chat: that of its first
    message, or the text for a chat without messages. *)
Definition entryPreview (chat : Backend.WAChat.t) : Js.value :=
  match Backend.WAChat.messages chat with
  | Some (m :: _) => Display.lastMessagePreview m
  | _ => Js.Str "No messages yet"
  end.

(** A message with the identifier is stored. *)
Definition stored (id : string) (d : Database.t) : Prop :=
  exists m, In m (Database.messages d) /\ Message.id m = id.

(** The test of the first-sync download on a fetched message: display text,
    or a type other than text. *)
Definition worthSaving (msg : WAMessage.t) : bool :=
  Js.truthy (Display.getDisplayMessage msg)
  || negb (Display.getMessageType msg =? "text")%string.

(** What a pass over fetched messages may do to the store: add rows, as
    many as it counts, and nothing else that the listing of chats or the
    contacts would show. *)
Definition grows (st st' : Backend.t) (count : Z) : Prop :=
  0 <= count /\
  Z.of_nat (length (Database.messages (Backend.db st')))
    = Z.of_nat (length (Database.messages (Backend.db st))) + count /\
  (forall id, stored id (Backend.db st) -> stored id (Backend.db st')) /\
  map Chat.jid (Database.chats (Backend.db st')) = map Chat.jid (Database.chats (Backend.db st)) /\
  Database.contacts (Backend.db st') = Database.contacts (Backend.db st).


(** ** Sample data *)
Module Sample.

Import Database.

(** The state after a statement, or the state before it when it fails. *)
Definition orKeep (r : result t) (d : t) : t :=
  match r with
  | Ok d' => d'
  | DatabaseError _ => d
  end.

Definition alice : string := "5511999887766@s.whatsapp.net".
Definition bob : string := "5511888776655@s.whatsapp.net".

(** Two chats, and a contact row for the first. *)
Definition twoChats : t :=
  saveContact 1 alice (Some "Alice") None
    (saveChat 1 bob (Some "Bob") None None
       (saveChat 1 alice (Some "5511999887766") None None empty)).

(** A message sent to [alice], first recorded as sent. *)
Definition sentOnce : t :=
  orKeep (saveMessage 10 "3EB0A1" alice true (Some "hello") 1700000000000 "text" "sent"
            twoChats) twoChats.

(** The same message, recorded again as read. *)
Definition sentTwice : t :=
  orKeep (saveMessage 20 "3EB0A1" alice true (Some "hello") 1700000000000 "text" "read"
            sentOnce) sentOnce.

(** Then a message of [alice] that is older than the one before. *)
Definition olderLater : t :=
  orKeep (saveMessage 30 "3EB0A0" alice false (Some "hi") 1600000000000 "text" "received"
            sentTwice) sentTwice.

(** A recent message in the chat of [bob], then an old one in the chat of
    [alice]. *)
Definition bobThenAlice : t :=
  let d1 :=
    orKeep (saveMessage 10 "B1" bob false (Some "new") 2000 "text" "received" twoChats)
           twoChats in
  orKeep (saveMessage 20 "A1" alice false (Some "old") 1000 "text" "received" d1) d1.

(** A voice note, and an image with a caption. *)
Definition voiceNote : WAMessage.t :=
  {| WAMessage.key_id := "3EB0C7";
     WAMessage.key_fromMe := false;
     WAMessage.messageTimestamp := 1700000100;
     WAMessage.pushName := Some "Alice";
     WAMessage.message :=
       Js.Obj [ ("audioMessage",
                 Js.Obj [ ("seconds", Js.Num 3); ("ptt", Js.Bool true) ]) ] |}.

Definition captionedImage : WAMessage.t :=
  {| WAMessage.key_id := "3EB0C8";
     WAMessage.key_fromMe := false;
     WAMessage.messageTimestamp := 1700000200;
     WAMessage.pushName := Some "Alice";
     WAMessage.message :=
       Js.Obj [ ("imageMessage", Js.Obj [ ("caption", Js.Str "the beach") ]) ] |}.

(** A UI client, a snapshot of one chat, a backend that holds it, and the
    history set that the upstream pushes for the same chat. *)
Definition client : Backend.WebSocket.t :=
  {| Backend.WebSocket.ident := 1; Backend.WebSocket.readyState := Backend.WebSocket.OPEN |}.

Definition snapshot : list Backend.ChatData.t :=
  [ {| Backend.ChatData.jid := alice;
       Backend.ChatData.name := Some "Alice";
       Backend.ChatData.lastMessage := Js.Str "hello";
       Backend.ChatData.timestamp := Some 1700000000000;
       Backend.ChatData.lastMessageType := "text";
       Backend.ChatData.lastMessageFrom := Some "me";
       Backend.ChatData.unreadCount := 0;
       Backend.ChatData.avatarBase64 := None;
       Backend.ChatData.chatAvatarBase64 := None;
       Backend.ChatData.phoneNumber := None |} ].

Definition fresh : Backend.t := Backend.initial 1700000300000 empty.

Definition cached : Backend.t := Backend.set_initialChatsPayload (Some snapshot) fresh.

Definition history : list Backend.WAChat.t :=
  [ {| Backend.WAChat.id := alice;
       Backend.WAChat.name := Some "Alice";
       Backend.WAChat.unreadCount := 0;
       Backend.WAChat.messages := Some [captionedImage; voiceNote] |} ].

(** The seven handlers that are not modelled, as handlers that do nothing. *)
Definition noOther : Backend.command -> Js.value -> Backend.t -> Backend.t :=
  fun _ _ st => st.

(** No sync on open, a backend with stored credentials, and the close that
    reports a logout. *)
Definition noSync : Backend.t -> Backend.t := fun st => st.

Definition paired : Backend.t := Backend.set_authInfo true fresh.

Definition logout : Backend.connectionUpdate :=
  {| Backend.connection := Some "close";
     Backend.lastDisconnect :=
       Some {| Backend.boomStatusCode := Some 401;
               Backend.errorMessage := Some "Connection Failure" |};
     Backend.qr := None |}.

(** A backend with an open upstream connection and the two chats stored. *)
Definition opened : Backend.t :=
  Backend.set_sock true
    (Backend.set_baileysConnectionStatus (Some "open")
       (Backend.set_db twoChats fresh)).

(** Fifty text messages of [alice], and an upstream that answers every
    fetch with these fifty. *)
Definition numbered (n : nat) : WAMessage.t :=
  {| WAMessage.key_id := "3EB0" ++ String (ascii_of_nat (48 + n)) "";
     WAMessage.key_fromMe := false;
     WAMessage.messageTimestamp := 1700000000 + Z.of_nat n;
     WAMessage.pushName := Some "Alice";
     WAMessage.message := Js.Obj [ ("conversation", Js.Str "hello") ] |}.

Definition fullBatch : list WAMessage.t := map numbered (seq 0 50).

Definition sameBatch : nat -> string -> Z -> Backend.fetchResult :=
  fun _ _ _ => Backend.Messages fullBatch.

(** The backend after a first download of the chat of [alice], with the
    log of fetches cleared. *)
Definition stored : Backend.t :=
  Backend.set_fetches []
    (fst (Backend.downloadMessageHistory sameBatch alice 500 opened)).

(** A backend, connected, five minutes after the one stored message of the
    chat of [alice], and an upstream that has nothing newer. *)
Definition syncing : Backend.t :=
  Backend.set_sock true
    (Backend.set_baileysConnectionStatus (Some "open")
       (Backend.set_db sentTwice fresh)).

Definition nothingNew : nat -> string -> Z -> Backend.fetchResult :=
  fun _ _ _ =>
    Backend.Messages
      [ {| WAMessage.key_id := "3EB0A1";
           WAMessage.key_fromMe := true;
           WAMessage.messageTimestamp := 1700000000;
           WAMessage.pushName := None;
           WAMessage.message := Js.Obj [ ("conversation", Js.Str "hello") ] |} ].

(** [JSON.stringify] and [JSON.parse] on what the backend keeps in
    settings: booleans, integers and [null]; this sample covers no other
    value. *)
Definition jsonStringify (v : Js.value) : option string :=
  match v with
  | Js.Bool true => Some "true"
  | Js.Bool false => Some "false"
  | Js.Null => Some "null"
  | Js.Num z => Some (NilZero.string_of_int (Z.to_int z))
  | _ => None
  end.

Definition jsonParse (text : string) : Settings.parsed :=
  if (text =? "true")%string then Settings.Parsed (Js.Bool true)
  else if (text =? "false")%string then Settings.Parsed (Js.Bool false)
  else if (text =? "null")%string then Settings.Parsed Js.Null
  else
    match NilZero.int_of_string text with
    | Some i => Settings.Parsed (Js.Num (Z.of_int i))
    | None => Settings.SyntaxError
    end.

(** A group chat stored under its identifier, in a connected backend. *)
Definition group : string := "120363041234567890@g.us".

Definition withGroup : Backend.t :=
  Backend.set_db (saveChat 2 group (Some group) None None twoChats) opened.

End Sample.

(** * Properties *)

(** ** JavaScript truthiness *)
Section JsFacts.

Import Js.

Lemma or_truthy a b : truthy a = true -> or a b = a.
Proof. unfold or; intros ->; reflexivity. Qed.

Lemma or_falsy a b : truthy a = false -> or a b = b.
Proof. unfold or; intros ->; reflexivity. Qed.

Lemma truthy_Str s : truthy (Str s) = true <-> s <> ""%string.
Proof.
  simpl. rewrite negb_true_iff. split.
  - intros E ->. discriminate.
  - intros N. apply String.eqb_neq. exact N.
Qed.

Lemma or_text_truthy a b : truthy_text a = true -> or_text a b = a.
Proof. unfold or_text; intros ->; reflexivity. Qed.

Lemma or_text_falsy a b : truthy_text a = false -> or_text a b = b.
Proof. unfold or_text; intros ->; reflexivity. Qed.

End JsFacts.

(** ** ORDER BY, LIMIT and OFFSET on lists *)
Section Ordering.

Context {A : Type} (key : A -> Z).

Lemma insertDesc_In x y l :
  In y (Database.insertDesc key x l) <-> y = x \/ In y l.
Proof.
  induction l as [|z l IH]; simpl.
  - intuition.
  - destruct (key z <=? key x); simpl; rewrite ?IH; intuition.
Qed.

Lemma insertDesc_descending x l :
  descending key l -> descending key (Database.insertDesc key x l).
Proof.
  unfold descending.
  induction l as [|z l IH]; simpl; intros S.
  - constructor; [constructor | constructor].
  - inversion S as [|? ? Sl Fz]; subst.
    destruct (key z <=? key x) eqn:E.
    + apply Z.leb_le in E.
      constructor; [exact S|].
      constructor; [exact E|].
      rewrite Forall_forall in *. intros w Hw. specialize (Fz w Hw). lia.
    + apply Z.leb_gt in E.
      constructor; [apply IH; exact Sl|].
      rewrite Forall_forall in *. intros w Hw.
      apply insertDesc_In in Hw. destruct Hw as [-> | Hw]; [lia | auto].
Qed.

Lemma orderByDesc_descending l : descending key (Database.orderByDesc key l).
Proof.
  induction l as [|x l IH]; simpl.
  - constructor.
  - apply insertDesc_descending. exact IH.
Qed.

Lemma insertDesc_Permutation x l :
  Permutation (Database.insertDesc key x l) (x :: l).
Proof.
  induction l as [|z l IH]; simpl.
  - reflexivity.
  - destruct (key z <=? key x).
    + reflexivity.
    + rewrite IH. apply perm_swap.
Qed.

Lemma orderByDesc_Permutation l : Permutation (Database.orderByDesc key l) l.
Proof.
  induction l as [|x l IH]; simpl.
  - reflexivity.
  - rewrite insertDesc_Permutation. apply perm_skip. exact IH.
Qed.

Lemma orderByDesc_In x l : In x (Database.orderByDesc key l) <-> In x l.
Proof.
  split; apply Permutation_in;
    [ | symmetry ]; apply orderByDesc_Permutation.
Qed.

Lemma firstn_incl n (l : list A) x : In x (firstn n l) -> In x l.
Proof.
  intros H. rewrite <- (firstn_skipn n l). apply in_or_app. left. exact H.
Qed.

Lemma skipn_incl n (l : list A) x : In x (skipn n l) -> In x l.
Proof.
  intros H. rewrite <- (firstn_skipn n l). apply in_or_app. right. exact H.
Qed.

Lemma sorted_skipn (R : A -> A -> Prop) n l :
  StronglySorted R l -> StronglySorted R (skipn n l).
Proof.
  revert l; induction n as [|n IH]; intros l S; simpl.
  - exact S.
  - destruct l as [|x l]; [constructor|].
    inversion S; subst. apply IH. assumption.
Qed.

Lemma sorted_firstn (R : A -> A -> Prop) n l :
  StronglySorted R l -> StronglySorted R (firstn n l).
Proof.
  revert l; induction n as [|n IH]; intros l S; simpl.
  - constructor.
  - destruct l as [|x l]; [constructor|].
    inversion S as [|? ? Sl Fx]; subst.
    constructor; [apply IH; exact Sl|].
    rewrite Forall_forall in *. intros w Hw. apply Fx.
    eapply firstn_incl; eauto.
Qed.

Lemma sorted_app_one (R : A -> A -> Prop) l x :
  StronglySorted R l -> Forall (fun y => R y x) l -> StronglySorted R (l ++ [x]).
Proof.
  induction l as [|z l IH]; simpl; intros S F.
  - constructor; constructor.
  - inversion S as [|? ? Sl Fz]; subst. inversion F as [|? ? Rz Fl]; subst.
    constructor; [apply IH; assumption|].
    apply Forall_app. split; [exact Fz | constructor; [exact Rz | constructor]].
Qed.

Lemma sorted_rev (R : A -> A -> Prop) l :
  StronglySorted R l -> StronglySorted (fun a b => R b a) (rev l).
Proof.
  induction l as [|x l IH]; simpl; intros S.
  - constructor.
  - inversion S as [|? ? Sl Fx]; subst.
    apply sorted_app_one; [apply IH; exact Sl|].
    rewrite Forall_forall in *. intros w Hw. apply Fx. apply in_rev. exact Hw.
Qed.

Lemma limitOffset_sorted (R : A -> A -> Prop) limit offset l :
  StronglySorted R l -> StronglySorted R (Database.limitOffset limit offset l).
Proof.
  intros S. unfold Database.limitOffset.
  destruct (limit <? 0); [|apply sorted_firstn]; apply sorted_skipn; exact S.
Qed.

Lemma limitOffset_In limit offset (l : list A) x :
  In x (Database.limitOffset limit offset l) -> In x l.
Proof.
  unfold Database.limitOffset. intros H.
  destruct (limit <? 0).
  - eapply skipn_incl; eauto.
  - apply firstn_incl in H. eapply skipn_incl; eauto.
Qed.

Lemma limitOffset_length limit offset (l : list A) :
  0 <= limit -> Z.of_nat (length (Database.limitOffset limit offset l)) <= limit.
Proof.
  intros Hl. unfold Database.limitOffset.
  destruct (limit <? 0) eqn:E; [apply Z.ltb_lt in E; lia|].
  rewrite length_firstn. lia.
Qed.

Lemma limitOffset_all limit offset (l : list A) :
  limit < 0 -> offset <= 0 -> Database.limitOffset limit offset l = l.
Proof.
  intros Hl Ho. unfold Database.limitOffset.
  apply Z.ltb_lt in Hl. rewrite Hl.
  replace (Z.to_nat offset) with 0%nat by lia. reflexivity.
Qed.

End Ordering.

(** ** The local store *)
Section Store.

Import Database.

Lemma id_clearReply i m : Message.id (clearReply i m) = Message.id m.
Proof.
  unfold clearReply. destruct (Message.reply_to_id m) as [r|]; [|reflexivity].
  destruct (r =? i)%string; reflexivity.
Qed.

Lemma chat_jid_clearReply i m : Message.chat_jid (clearReply i m) = Message.chat_jid m.
Proof.
  unfold clearReply. destruct (Message.reply_to_id m) as [r|]; [|reflexivity].
  destruct (r =? i)%string; reflexivity.
Qed.

Lemma ids_clearReply i l : map Message.id (map (clearReply i) l) = map Message.id l.
Proof.
  rewrite map_map. apply map_ext. intros m. apply id_clearReply.
Qed.

Lemma others_no_id id l :
  filter (fun m => (Message.id m =? id)%string) (others id l) = [].
Proof.
  unfold others. induction l as [|m l IH]; simpl; [reflexivity|].
  destruct (Message.id m =? id)%string eqn:E; simpl; [exact IH|].
  rewrite id_clearReply, E. exact IH.
Qed.

Lemma others_not_In id l : ~ In id (map Message.id (others id l)).
Proof.
  unfold others. rewrite ids_clearReply. intros H.
  apply in_map_iff in H. destruct H as [m [Em Hm]].
  apply filter_In in Hm. destruct Hm as [_ Hm].
  rewrite Em, String.eqb_refl in Hm. discriminate.
Qed.

Lemma others_fixed id l :
  filter (fun m => negb (Message.id m =? id)%string) (others id l) = others id l.
Proof.
  apply forallb_filter_id. apply forallb_forall. intros m Hm.
  destruct (Message.id m =? id)%string eqn:E; [|reflexivity].
  exfalso. apply (others_not_In id l). apply in_map_iff.
  exists m. split; [apply String.eqb_eq; exact E | exact Hm].
Qed.

Lemma others_after_insert id l r :
  Message.id r = id ->
  others id (others id l ++ [r])%list = map (clearReply id) (others id l).
Proof.
  intros E. unfold others at 1. rewrite filter_app. simpl.
  rewrite E, String.eqb_refl. simpl. rewrite app_nil_r, others_fixed. reflexivity.
Qed.

Lemma NoDup_map_filter {A B : Type} (f : A -> B) (p : A -> bool) l :
  NoDup (map f l) -> NoDup (map f (filter p l)).
Proof.
  induction l as [|x l IH]; simpl; intros N; [constructor|].
  inversion N as [|? ? Nx Nl]; subst.
  destruct (p x); simpl; [|apply IH; exact Nl].
  constructor; [|apply IH; exact Nl].
  intros H. apply Nx. apply in_map_iff in H. destruct H as [y [Ey Hy]].
  apply in_map_iff. exists y. split; [exact Ey|].
  apply filter_In in Hy. tauto.
Qed.

Lemma others_unique id l :
  NoDup (map Message.id l) -> NoDup (map Message.id (others id l)).
Proof.
  intros N. unfold others. rewrite ids_clearReply. apply NoDup_map_filter. exact N.
Qed.

(** What a successful [saveMessage] leaves in the tables. *)
Lemma saveMessage_Ok now id chatJid fromMe content timestamp messageType status d d' :
  saveMessage now id chatJid fromMe content timestamp messageType status d = Ok d' ->
  chatExists chatJid d = true /\
  messages d' =
    (others id (messages d) ++
     [ {| Message.id := id; Message.chat_jid := chatJid; Message.from_me := fromMe;
          Message.message_type := messageType; Message.content := content;
          Message.timestamp := timestamp; Message.status := status;
          Message.reply_to_id := None; Message.created_at := now |} ])%list /\
  chats d' = map (touchChat now id timestamp chatJid) (chats d) /\
  contacts d' = contacts d.
Proof.
  unfold saveMessage. destruct (chatExists chatJid d); simpl; [|discriminate].
  intros E. injection E as <-. simpl. auto.
Qed.


Lemma saveMessage_one_row now id chatJid fromMe content timestamp messageType status d d' :
  saveMessage now id chatJid fromMe content timestamp messageType status d = Ok d' ->
  rowsWithId id d' =
    [ {| Message.id := id; Message.chat_jid := chatJid; Message.from_me := fromMe;
         Message.message_type := messageType; Message.content := content;
         Message.timestamp := timestamp; Message.status := status;
         Message.reply_to_id := None; Message.created_at := now |} ].
Proof.
  intros H. apply saveMessage_Ok in H. destruct H as (_ & Hm & _).
  unfold rowsWithId. rewrite Hm, filter_app, others_no_id. simpl.
  rewrite String.eqb_refl. reflexivity.
Qed.

(** No identifier is ever duplicated by [saveMessage]. *)
Lemma saveMessage_uniqueIds now id chatJid fromMe content timestamp messageType status d d' :
  saveMessage now id chatJid fromMe content timestamp messageType status d = Ok d' ->
  uniqueIds d -> uniqueIds d'.
Proof.
  intros H N. apply saveMessage_Ok in H. destruct H as (_ & Hm & _).
  unfold uniqueIds in *. rewrite Hm, map_app. simpl.
  apply NoDup_app.
  - apply others_unique. exact N.
  - constructor; [intros []|constructor].
  - intros a Ha [<- | []]. exact (others_not_In _ _ Ha).
Qed.

Lemma deleteMessage_uniqueIds id d : uniqueIds d -> uniqueIds (deleteMessage id d).
Proof. unfold uniqueIds, deleteMessage. simpl. apply others_unique. Qed.

Lemma deleteMessages_uniqueIds ids : forall d,
  uniqueIds d -> uniqueIds (fold_left (fun acc id => deleteMessage id acc) ids d).
Proof.
  induction ids as [|id ids IH]; intros d U; simpl; [exact U|].
  apply IH. apply deleteMessage_uniqueIds. exact U.
Qed.

Lemma saveChat_uniqueIds now jid name lastMessageId timestamp d :
  uniqueIds d -> uniqueIds (saveChat now jid name lastMessageId timestamp d).
Proof.
  intros U. unfold uniqueIds, saveChat, deleteChat. simpl.
  apply deleteMessages_uniqueIds. exact U.
Qed.

(** In every state that the operations build, [id] is a key of
    [messages]. *)
Lemma reachable_uniqueIds d : reachable d -> uniqueIds d.
Proof.
  induction 1 as [| | |? ? ? ? ? ? ? ? ? ? _ IH E].
  - constructor.
  - apply saveChat_uniqueIds. assumption.
  - assumption.
  - eapply saveMessage_uniqueIds; eauto.
Qed.

(** [saveMessage] stamps the owning chat with the time of the write. *)
Lemma saveMessage_updated_at
    now id chatJid fromMe content timestamp messageType status d d' c :
  saveMessage now id chatJid fromMe content timestamp messageType status d = Ok d' ->
  In c (chatRows chatJid d') -> Chat.updated_at c = now.
Proof.
  intros H Hin. apply saveMessage_Ok in H. destruct H as (_ & _ & Hch & _).
  unfold chatRows in Hin. rewrite Hch in Hin.
  apply filter_In in Hin. destruct Hin as [Hin Ej].
  apply in_map_iff in Hin. destruct Hin as [c0 [<- _]].
  unfold touchChat in *. destruct (Chat.jid c0 =? chatJid)%string eqn:E; [reflexivity|].
  rewrite E in Ej. discriminate.
Qed.

Lemma touchChat_jid now id timestamp chatJid c :
  Chat.jid (touchChat now id timestamp chatJid c) = Chat.jid c.
Proof. unfold touchChat. destruct (Chat.jid c =? chatJid)%string; reflexivity. Qed.

Lemma chatExists_In jid d :
  chatExists jid d = true <-> exists c, In c (chats d) /\ Chat.jid c = jid.
Proof.
  unfold chatExists. rewrite existsb_exists. split; intros [c [Hc E]]; exists c.
  - split; [exact Hc | apply String.eqb_eq; exact E].
  - split; [exact Hc | apply String.eqb_eq; exact E].
Qed.

(** C1. Upserting a message twice under one identifier, with whatever
    field values (chat, sender flag, content, timestamp, type, status),
    leaves exactly one row with that identifier, and it carries the values of
    the second upsert; the second upsert adds no row, and identifiers that
    were unique stay unique. *)
Theorem saveMessage_twice_one_row
    now1 now2 id chat1 chat2 fromMe1 fromMe2 content1 content2
    timestamp1 timestamp2 type1 type2 status1 status2 d d1 d2 :
  saveMessage now1 id chat1 fromMe1 content1 timestamp1 type1 status1 d = Ok d1 ->
  saveMessage now2 id chat2 fromMe2 content2 timestamp2 type2 status2 d1 = Ok d2 ->
  rowsWithId id d2 =
    [ {| Message.id := id; Message.chat_jid := chat2; Message.from_me := fromMe2;
         Message.message_type := type2; Message.content := content2;
         Message.timestamp := timestamp2; Message.status := status2;
         Message.reply_to_id := None; Message.created_at := now2 |} ] /\
  length (messages d2) = length (messages d1) /\
  (uniqueIds d -> uniqueIds d2).
Proof.
  intros H1 H2. split; [|split].
  - eapply saveMessage_one_row. exact H2.
  - apply saveMessage_Ok in H1. destruct H1 as (_ & M1 & _).
    apply saveMessage_Ok in H2. destruct H2 as (_ & M2 & _).
    rewrite M2, M1, others_after_insert by reflexivity.
    rewrite !length_app, length_map. reflexivity.
  - intros N. eapply saveMessage_uniqueIds; [exact H2|].
    eapply saveMessage_uniqueIds; [exact H1 | exact N].
Qed.

Lemma saveMessage_twice_one_row_witness :
  rowsWithId "3EB0A1" Sample.sentTwice =
    [ {| Message.id := "3EB0A1"; Message.chat_jid := Sample.alice;
         Message.from_me := true; Message.message_type := "text";
         Message.content := Some "hello"; Message.timestamp := 1700000000000;
         Message.status := "read"; Message.reply_to_id := None;
         Message.created_at := 20 |} ] /\
  length (messages Sample.sentTwice) = length (messages Sample.sentOnce) /\
  uniqueIds Sample.sentTwice.
Proof.
  destruct (saveMessage_twice_one_row 10 20 "3EB0A1" Sample.alice Sample.alice
              true true (Some "hello") (Some "hello") 1700000000000 1700000000000
              "text" "text" "sent" "read" Sample.twoChats Sample.sentOnce
              Sample.sentTwice eq_refl eq_refl) as (R & L & U).
  split; [exact R|]. split; [exact L|]. apply U. constructor.
Defined.

(** C10. After a successful [saveMessage] the chat that owns the message
    exists, and every row of that chat has the identifier and the timestamp
    of this message as its last message, whatever the row held before: an
    older message moves the pointer back in time. *)
Theorem saveMessage_sets_last_message
    now id chatJid fromMe content timestamp messageType status d d' :
  saveMessage now id chatJid fromMe content timestamp messageType status d = Ok d' ->
  chatRows chatJid d' <> [] /\
  forall c, In c (chatRows chatJid d') ->
    Chat.last_message_id c = Some id /\
    Chat.last_message_timestamp c = Some timestamp.
Proof.
  intros H. apply saveMessage_Ok in H. destruct H as (Hc & _ & Hch & _).
  unfold chatRows. rewrite Hch. split.
  - apply chatExists_In in Hc. destruct Hc as [c [Hin Ej]].
    intros E.
    assert (Hx : In (touchChat now id timestamp chatJid c)
                    (filter (fun c0 => (Chat.jid c0 =? chatJid)%string)
                       (map (touchChat now id timestamp chatJid) (chats d)))).
    { apply filter_In. split; [apply in_map; exact Hin|].
      rewrite touchChat_jid. apply String.eqb_eq. exact Ej. }
    rewrite E in Hx. exact Hx.
  - intros c Hin. apply filter_In in Hin. destruct Hin as [Hin Ej].
    apply in_map_iff in Hin. destruct Hin as [c0 [<- _]].
    rewrite touchChat_jid in Ej. unfold touchChat. rewrite Ej. simpl. auto.
Qed.

Lemma saveMessage_sets_last_message_witness :
  map Chat.last_message_timestamp (chatRows Sample.alice Sample.sentTwice)
    = [Some 1700000000000] /\
  (chatRows Sample.alice Sample.olderLater <> [] /\
   forall c, In c (chatRows Sample.alice Sample.olderLater) ->
     Chat.last_message_id c = Some "3EB0A0" /\
     Chat.last_message_timestamp c = Some 1600000000000).
Proof.
  split; [reflexivity|].
  apply (saveMessage_sets_last_message 30 "3EB0A0" Sample.alice false (Some "hi")
           1600000000000 "text" "received" Sample.sentTwice Sample.olderLater).
  reflexivity.
Defined.

(** C4. For every chat, limit and offset, the query of [getMessages]
    selects rows of that chat in descending order of timestamp, and
    [getMessages] returns that same page in ascending (non-decreasing) order
    of timestamp; a non-negative limit bounds the page, and without limit
    and offset the page is the whole chat. *)
Theorem getMessages_chronological chatJid limit offset d :
  descending Message.timestamp (selectMessages chatJid limit offset d) /\
  getMessages chatJid limit offset d = rev (selectMessages chatJid limit offset d) /\
  ascending Message.timestamp (getMessages chatJid limit offset d) /\
  (forall m, In m (getMessages chatJid limit offset d) ->
     In m (messages d) /\ Message.chat_jid m = chatJid) /\
  (0 <= limit -> Z.of_nat (length (getMessages chatJid limit offset d)) <= limit) /\
  (limit < 0 -> offset <= 0 ->
     Permutation (getMessages chatJid limit offset d)
       (filter (fun m => (Message.chat_jid m =? chatJid)%string) (messages d))).
Proof.
  assert (D : descending Message.timestamp (selectMessages chatJid limit offset d)).
  { unfold selectMessages, descending. apply limitOffset_sorted.
    apply orderByDesc_descending. }
  split; [exact D|]. split; [reflexivity|]. split; [|split; [|split]].
  - unfold getMessages, ascending. apply sorted_rev in D. exact D.
  - intros m Hm. unfold getMessages in Hm. apply in_rev in Hm.
    unfold selectMessages in Hm. apply limitOffset_In in Hm.
    apply orderByDesc_In in Hm. apply filter_In in Hm.
    destruct Hm as [Hin E]. split; [exact Hin | apply String.eqb_eq; exact E].
  - intros Hl. unfold getMessages. rewrite length_rev.
    apply limitOffset_length. exact Hl.
  - intros Hl Ho. unfold getMessages, selectMessages.
    rewrite limitOffset_all by assumption.
    rewrite <- Permutation_rev. apply orderByDesc_Permutation.
Qed.

Lemma getMessages_chronological_witness :
  map Message.timestamp (getMessages Sample.alice 50 0 Sample.olderLater)
    = [1600000000000; 1700000000000] /\
  Z.of_nat (length (getMessages Sample.alice 1 0 Sample.olderLater)) <= 1 /\
  Permutation (getMessages Sample.alice (-1) 0 Sample.olderLater)
    (filter (fun m => (Message.chat_jid m =? Sample.alice)%string)
       (messages Sample.olderLater)).
Proof.
  split; [reflexivity|].
  destruct (getMessages_chronological Sample.alice 1 0 Sample.olderLater)
    as (_ & _ & _ & _ & L & _).
  destruct (getMessages_chronological Sample.alice (-1) 0 Sample.olderLater)
    as (_ & _ & _ & _ & _ & P).
  split; [apply L; lia | apply P; lia].
Defined.

End Store.

(** ** The chat list *)
Section ChatList.

Import Database.

Lemma getChats_rows limit d r :
  In r (getChats limit d) ->
  exists c, In c (chats d) /\ Chat.is_archived c = false /\ r = joinLastMessage d c.
Proof.
  unfold getChats. intros H. apply limitOffset_In in H.
  apply orderByDesc_In in H. apply in_map_iff in H.
  destruct H as [c [<- Hc]]. apply filter_In in Hc. destruct Hc as [Hin Ha].
  exists c. split; [exact Hin|]. split; [|reflexivity].
  apply negb_true_iff. exact Ha.
Qed.

Lemma joinLastMessage_found d c id m :
  Chat.last_message_id c = Some id -> findMessage id d = Some m ->
  ChatListRow.last_message_content (joinLastMessage d c) = Message.content m /\
  ChatListRow.last_message_timestamp (joinLastMessage d c) = Some (Message.timestamp m).
Proof.
  intros E F. unfold joinLastMessage. simpl. rewrite E, F. auto.
Qed.

Lemma joinLastMessage_missing d c :
  (Chat.last_message_id c = None \/
   exists id, Chat.last_message_id c = Some id /\ findMessage id d = None) ->
  ChatListRow.last_message_content (joinLastMessage d c) = None /\
  ChatListRow.last_message_timestamp (joinLastMessage d c) = None.
Proof.
  intros [E | [id [E F]]]; unfold joinLastMessage; simpl; rewrite E; [|rewrite F]; auto.
Qed.

(** The query of [getChats] does not read the contacts table: its rows
    carry no contact name, avatar or phone number. *)
Lemma getChats_no_contact_columns limit d r :
  In r (getChats limit d) ->
  ChatListRow.contact_name r = None /\
  ChatListRow.contact_avatar_base64 r = None /\
  ChatListRow.contact_phone_number r = None.
Proof.
  intros Hr. destruct (getChats_rows _ _ _ Hr) as [c (_ & _ & ->)]. simpl. auto.
Qed.

(** The display name of a chat-list entry: the contact name of the row, else
    the stored name of the chat, else the chat identifier. *)
Lemma chatDataOfRow_name chat :
  Backend.ChatData.name (Backend.chatDataOfRow chat) =
    if Js.truthy_text (ChatListRow.contact_name chat) then ChatListRow.contact_name chat
    else if Js.truthy_text (ChatListRow.name chat) then ChatListRow.name chat
    else Some (ChatListRow.jid chat).
Proof.
  unfold Backend.chatDataOfRow. simpl. unfold Js.or_text.
  destruct (Js.truthy_text (ChatListRow.contact_name chat)) eqn:E.
  - rewrite E. reflexivity.
  - destruct (Js.truthy_text (ChatListRow.name chat)) eqn:F; reflexivity.
Qed.

(** C7, as the code has it. For every limit, [getChats] returns non-archived
    chats only (at most [limit] of them for a limit that is not negative,
    all of them for a negative one) in descending order of [updated_at], the
    time of the last write to the chat row; each row is its chat joined with
    the content and the timestamp of the message that [last_message_id]
    names, absent when there is no such message; and in the chat-list entry
    made of a row, a contact name that the row carries takes precedence over
    the stored name of the chat, which takes precedence over the chat
    identifier. *)
Theorem getChats_listing limit d :
  descending ChatListRow.updated_at (getChats limit d) /\
  (forall r, In r (getChats limit d) ->
     ChatListRow.is_archived r = false /\
     exists c, In c (chats d) /\ Chat.is_archived c = false /\ r = joinLastMessage d c) /\
  (0 <= limit -> Z.of_nat (length (getChats limit d)) <= limit) /\
  (limit < 0 ->
     Permutation (getChats limit d)
       (map (joinLastMessage d) (filter (fun c => negb (Chat.is_archived c)) (chats d)))) /\
  (forall c id m,
     Chat.last_message_id c = Some id -> findMessage id d = Some m ->
     ChatListRow.last_message_content (joinLastMessage d c) = Message.content m /\
     ChatListRow.last_message_timestamp (joinLastMessage d c)
       = Some (Message.timestamp m)) /\
  (forall c,
     (Chat.last_message_id c = None \/
      exists id, Chat.last_message_id c = Some id /\ findMessage id d = None) ->
     ChatListRow.last_message_content (joinLastMessage d c) = None /\
     ChatListRow.last_message_timestamp (joinLastMessage d c) = None) /\
  (forall chat,
     Backend.ChatData.name (Backend.chatDataOfRow chat) =
       if Js.truthy_text (ChatListRow.contact_name chat)
       then ChatListRow.contact_name chat
       else if Js.truthy_text (ChatListRow.name chat) then ChatListRow.name chat
       else Some (ChatListRow.jid chat)).
Proof.
  split; [|split; [|split; [|split; [|split; [|split]]]]].
  - unfold getChats, descending. apply limitOffset_sorted.
    apply orderByDesc_descending.
  - intros r Hr. destruct (getChats_rows _ _ _ Hr) as [c (Hin & Ha & ->)].
    split; [exact Ha|]. exists c. auto.
  - intros Hl. unfold getChats. apply limitOffset_length. exact Hl.
  - intros Hl. unfold getChats. rewrite limitOffset_all by lia.
    apply orderByDesc_Permutation.
  - intros c id m. apply joinLastMessage_found.
  - intros c. apply joinLastMessage_missing.
  - apply chatDataOfRow_name.
Qed.

Lemma getChats_listing_witness :
  map ChatListRow.updated_at (getChats 10 Sample.bobThenAlice) = [20; 10] /\
  Z.of_nat (length (getChats 1 Sample.bobThenAlice)) <= 1 /\
  Permutation (getChats (-1) Sample.bobThenAlice)
    (map (joinLastMessage Sample.bobThenAlice)
       (filter (fun c => negb (Chat.is_archived c)) (chats Sample.bobThenAlice))).
Proof.
  split; [reflexivity|].
  destruct (getChats_listing 1 Sample.bobThenAlice) as (_ & _ & L & _).
  destruct (getChats_listing (-1) Sample.bobThenAlice) as (_ & _ & _ & P & _).
  split; [apply L; lia | apply P; lia].
Defined.

(** The listing is not in descending order of last-message timestamp, and
    it does not pick up the contact row: after a recent message in the chat
    of Bob and then an old one in the chat of Alice, the chat of Alice (last
    message at 1000) comes before the chat of Bob (last message at 2000),
    and it is listed under the stored name of the chat although the
    contacts table names it Alice. *)
Lemma getChats_not_by_last_message :
  map ChatListRow.jid (getChats 10 Sample.bobThenAlice) = [Sample.alice; Sample.bob] /\
  map ChatListRow.last_message_timestamp (getChats 10 Sample.bobThenAlice)
    = [Some 1000; Some 2000] /\
  ~ descending
      (fun r => match ChatListRow.last_message_timestamp r with
                | Some t => t
                | None => 0
                end)
      (getChats 10 Sample.bobThenAlice) /\
  option_map Contact.name (getContact Sample.alice Sample.bobThenAlice)
    = Some (Some "Alice") /\
  map Backend.ChatData.name (map Backend.chatDataOfRow (getChats 10 Sample.bobThenAlice))
    = [Some "5511999887766"; Some "Bob"].
Proof.
  split; [reflexivity|]. split; [reflexivity|]. split; [|split; reflexivity].
  intros S. unfold descending in S.
  assert (E : map ChatListRow.last_message_timestamp (getChats 10 Sample.bobThenAlice)
              = [Some 1000; Some 2000]) by reflexivity.
  destruct (getChats 10 Sample.bobThenAlice) as [|a [|b rest]]; try discriminate.
  simpl in E. injection E as Ea Eb _.
  inversion S as [|? ? _ F]; subst.
  inversion F as [|? ? L _]; subst.
  rewrite Ea, Eb in L. lia.
Qed.

End ChatList.

(** ** Display-content derivation *)
Section DisplayFacts.

Import Js Display.

Lemma formatLastMessageContent_not_empty content messageType :
  formatLastMessageContent content messageType <> Str "".
Proof.
  unfold formatLastMessageContent.
  destruct (messageType =? "text")%string; [|discriminate].
  unfold or. destruct (truthy content) eqn:E; [|discriminate].
  intros ->. discriminate.
Qed.

Lemma formatLastMessageContent_non_text content messageType :
  messageType <> "text"%string -> formatLastMessageContent content messageType = Null.
Proof.
  intros N. unfold formatLastMessageContent.
  apply String.eqb_neq in N. rewrite N. reflexivity.
Qed.

(** Without one of the two text keys the classification is one of the
    typed non-text ones. *)
Lemma firstType_non_text message :
  truthy (get message "conversation") = false ->
  truthy (get message "extendedTextMessage") = false ->
  In (firstType message messageTypes) nonTextTypes.
Proof.
  intros C E. unfold messageTypes, nonTextTypes. simpl firstType. rewrite C, E.
  repeat match goal with
         | |- context [if truthy ?v then _ else _] => destruct (truthy v)
         end; simpl; tauto.
Qed.

Lemma nonTextTypes_not_text s : In s nonTextTypes -> s <> "text"%string.
Proof.
  unfold nonTextTypes. simpl. intros H E. subst s.
  repeat (destruct H as [H | H]; [discriminate|]). exact H.
Qed.

(** C8. For every message payload, the display text is taken from the
    first of the shapes plain text, extended text, image caption, video
    caption that the payload has, in this order; a payload with none of them
    gets the placeholder for unsupported messages as display text, one of the
    typed non-text classifications as its type, and [null] as its preview in
    the chat list.  The preview is [null] for every non-text type and is
    never the empty string. *)
Theorem display_derivation (msg : WAMessage.t) :
  truthy (WAMessage.message msg) = true ->
  let message := WAMessage.message msg in
  (truthy (get message "conversation") = true ->
     getDisplayMessage msg = get message "conversation") /\
  (truthy (get message "conversation") = false ->
   truthy (get message "extendedTextMessage") = true ->
     getDisplayMessage msg = get (get message "extendedTextMessage") "text") /\
  (truthy (get message "conversation") = false ->
   truthy (get message "extendedTextMessage") = false ->
   truthy (get message "imageMessage") = true ->
     getDisplayMessage msg
       = or (get (get message "imageMessage") "caption") (Str "[Image]")) /\
  (truthy (get message "conversation") = false ->
   truthy (get message "extendedTextMessage") = false ->
   truthy (get message "imageMessage") = false ->
   truthy (get message "videoMessage") = true ->
     getDisplayMessage msg
       = or (get (get message "videoMessage") "caption") (Str "[Video]")) /\
  (textShape message = false ->
     getDisplayMessage msg = Str "[Unsupported Message]" /\
     In (getMessageType msg) nonTextTypes /\
     getMessageType msg <> "text"%string /\
     lastMessagePreview msg = Null) /\
  (getMessageType msg <> "text"%string -> lastMessagePreview msg = Null) /\
  lastMessagePreview msg <> Str "".
Proof.
  intros T message. subst message.
  unfold getDisplayMessage. rewrite T. simpl negb. cbv iota.
  split; [|split; [|split; [|split; [|split; [|split]]]]].
  - intros ->. reflexivity.
  - intros -> ->. reflexivity.
  - intros -> -> ->. reflexivity.
  - intros -> -> -> ->. reflexivity.
  - unfold textShape. intros S.
    apply orb_false_iff in S. destruct S as [S V].
    apply orb_false_iff in S. destruct S as [S I].
    apply orb_false_iff in S. destruct S as [C E].
    rewrite C, E, I, V. split; [reflexivity|].
    assert (N : In (getMessageType msg) nonTextTypes).
    { unfold getMessageType. rewrite T. simpl negb. cbv iota.
      apply firstType_non_text; assumption. }
    split; [exact N|]. split; [apply nonTextTypes_not_text; exact N|].
    unfold lastMessagePreview. apply formatLastMessageContent_non_text.
    apply nonTextTypes_not_text. exact N.
  - intros N. unfold lastMessagePreview.
    apply formatLastMessageContent_non_text. exact N.
  - apply formatLastMessageContent_not_empty.
Qed.

Lemma display_derivation_witness :
  getDisplayMessage Sample.voiceNote = Str "[Unsupported Message]" /\
  In (getMessageType Sample.voiceNote) nonTextTypes /\
  getMessageType Sample.voiceNote <> "text"%string /\
  lastMessagePreview Sample.voiceNote = Null.
Proof.
  destruct (display_derivation Sample.voiceNote eq_refl) as (_ & _ & _ & _ & U & _).
  apply U. reflexivity.
Defined.

Example display_captioned_image :
  getDisplayMessage Sample.captionedImage = Str "the beach" /\
  getMessageType Sample.captionedImage = "image"%string /\
  lastMessagePreview Sample.captionedImage = Null.
Proof. repeat split. Qed.

End DisplayFacts.

(** ** Relay protocol server *)
Section Relay.

Import Backend.

Lemma matchCase_None type cases :
  ~ In type (map fst cases) -> matchCase type cases = None.
Proof.
  induction cases as [|[label c] rest IH]; simpl; intros N; [reflexivity|].
  destruct (type =? label)%string eqn:E.
  - apply String.eqb_eq in E. subst. tauto.
  - apply IH. tauto.
Qed.

Lemma matchCase_Some type cases :
  In type (map fst cases) -> exists c, matchCase type cases = Some c.
Proof.
  induction cases as [|[label c] rest IH]; simpl; intros H; [tauto|].
  destruct (type =? label)%string eqn:E; [eauto|].
  apply IH. destruct H as [H | H]; [|exact H].
  apply String.eqb_neq in E. congruence.
Qed.

Lemma clientSocket_sendToFrontend type payload st :
  clientSocket (sendToFrontend type payload st) = clientSocket st.
Proof. reflexivity. Qed.

Lemma deliveredOf_sendToFrontend type payload st :
  deliveredOf type (sendToFrontend type payload st) =
    (deliveredOf type st ++ (if clientOpen st then [payload] else []))%list.
Proof.
  unfold deliveredOf, sendToFrontend. simpl.
  rewrite filter_app, map_app. simpl. rewrite String.eqb_refl. simpl.
  destruct (clientOpen st); reflexivity.
Qed.

(** C9. A command whose type is none of the eight enumerated ones is
    answered with an [error] event of type [unknown_command] that names the
    command; the event is written to the client socket when that is open,
    nothing else changes, and the client stays attached. *)
Theorem unknown_command_answered
    (handleOther : command -> Js.value -> t -> t) type payload st :
  ~ In type [ "get_initial_chats"; "send_message"; "get_message_history";
              "typing_start"; "typing_stop"; "health_check"; "sync_contacts";
              "get_contact_info" ]%string ->
  let st' := handleFrontendCommand handleOther type payload st in
  let answer := TypedError "unknown_command" ("Unknown command: " ++ type) in
  st' = sendToFrontend "error" answer st /\
  frontend st' =
    (frontend st ++
     [ {| sentType := "error"; sentData := answer; delivered := clientOpen st |} ])%list /\
  clientSocket st' = clientSocket st /\
  (clientOpen st = true ->
     deliveredOf "error" st' = (deliveredOf "error" st ++ [answer])%list).
Proof.
  intros N st' answer.
  assert (E : st' = sendToFrontend "error" answer st).
  { subst st'. unfold handleFrontendCommand.
    rewrite (matchCase_None type commandTypes N). reflexivity. }
  rewrite E. split; [reflexivity|]. split; [reflexivity|]. split; [reflexivity|].
  intros O. rewrite deliveredOf_sendToFrontend, O. reflexivity.
Qed.

Lemma unknown_command_answered_witness :
  let st := handleWebSocketConnection Sample.client Sample.fresh in
  let st' := handleFrontendCommand Sample.noOther "delete_chat" Js.Null st in
  frontend st' =
    [ {| sentType := "error";
         sentData := TypedError "unknown_command" "Unknown command: delete_chat";
         delivered := true |} ] /\
  clientSocket st' = Some Sample.client.
Proof.
  destruct (unknown_command_answered Sample.noOther "delete_chat" Js.Null
              (handleWebSocketConnection Sample.client Sample.fresh))
    as (_ & F & C & _).
  - simpl. intros H. repeat (destruct H as [H | H]; [discriminate|]). exact H.
  - split; [exact F | exact C].
Defined.

(** The writes of [handleHistorySet] to the store leave the relay alone. *)
Lemma historyChat_db chat st : exists d, snd (historyChat chat st) = set_db d st.
Proof. eexists. reflexivity. Qed.

Lemma historyChats_cons chat rest st :
  historyChats (chat :: rest) st =
    let '(chatData, st1) := historyChat chat st in
    let '(more, st2) := historyChats rest st1 in
    (chatData :: more, st2).
Proof. reflexivity. Qed.

Lemma historyChats_relay chats st :
  let st' := snd (historyChats chats st) in
  clientSocket st' = clientSocket st /\
  clientIsWaitingForChats st' = clientIsWaitingForChats st /\
  frontend st' = frontend st /\
  initialChatsPayload st' = initialChatsPayload st.
Proof.
  revert st. induction chats as [|chat rest IH]; intros st.
  - simpl. auto.
  - rewrite historyChats_cons.
    destruct (historyChat_db chat st) as [d Hd].
    destruct (historyChat chat st) as [chatData st1]. simpl in Hd. subst st1.
    specialize (IH (set_db d st)).
    destruct (historyChats rest (set_db d st)) as [more st2]. exact IH.
Qed.

Lemma handleHistorySet_eq chats st :
  handleHistorySet chats st =
    publishInitialChats (fst (historyChats chats st)) (snd (historyChats chats st)).
Proof.
  unfold handleHistorySet. destruct (historyChats chats st); reflexivity.
Qed.

(** C6, as the code has it. Connecting attaches the client and sends it no
    chat list, whether a snapshot is cached or not.  The snapshot goes out in
    answer to the command [get_initial_chats]: at once when one is cached;
    built from the store when none is cached and the store lists chats; and
    when there is neither, nothing is sent and the client-waiting flag is
    set.  When [handleHistorySet] then produces the snapshot, it caches it,
    sends it if and only if the flag is set, and clears the flag.  The close
    of the client socket clears the client reference and the flag. *)
Theorem snapshot_on_request (st : t) :
  (forall ws,
     let st' := handleWebSocketConnection ws st in
     clientSocket st' = Some ws /\
     clientIsWaitingForChats st' = clientIsWaitingForChats st /\
     initialChatsPayload st' = initialChatsPayload st /\
     deliveredOf "initial_chats" st' = deliveredOf "initial_chats" st) /\
  (forall chats,
     initialChatsPayload st = Some chats ->
     handleGetInitialChats st = sendToFrontend "initial_chats" (Chats chats) st) /\
  (initialChatsPayload st = None -> Database.getChats 50 (db st) <> [] ->
     handleGetInitialChats st =
       sendToFrontend "initial_chats"
         (Chats (map chatDataOfRow (Database.getChats 50 (db st)))) st) /\
  (initialChatsPayload st = None -> Database.getChats 50 (db st) = [] ->
     handleGetInitialChats st = set_clientIsWaitingForChats true st) /\
  (forall chats,
     let entries := fst (historyChats chats st) in
     let st' := handleHistorySet chats st in
     initialChatsPayload st' = Some entries /\
     clientIsWaitingForChats st' = false /\
     clientSocket st' = clientSocket st /\
     frontend st' =
       (frontend st ++
        if clientIsWaitingForChats st
        then [ {| sentType := "initial_chats"; sentData := Chats entries;
                  delivered := clientOpen st |} ]
        else [])%list) /\
  clientSocket (handleWebSocketClose st) = None /\
  clientIsWaitingForChats (handleWebSocketClose st) = false.
Proof.
  split; [|split; [|split; [|split; [|split; [|split]]]]].
  - intros ws st'. subst st'. unfold handleWebSocketConnection.
    destruct (isOpen (set_clientSocket (Some ws) st)).
    + repeat split. unfold deliveredOf, sendToFrontend. simpl.
      rewrite filter_app, map_app. simpl. rewrite app_nil_r. reflexivity.
    + repeat split.
  - intros chats E. unfold handleGetInitialChats. rewrite E. reflexivity.
  - intros E N. unfold handleGetInitialChats. rewrite E.
    destruct (Database.getChats 50 (db st)); [congruence | reflexivity].
  - intros E N. unfold handleGetInitialChats. rewrite E, N. reflexivity.
  - intros chats entries st'. subst entries st'. rewrite handleHistorySet_eq.
    destruct (historyChats_relay chats st) as (C & W & F & _).
    unfold publishInitialChats. simpl clientIsWaitingForChats.
    rewrite W. destruct (clientIsWaitingForChats st) eqn:Ew; simpl.
    + rewrite F. unfold clientOpen. simpl. rewrite C. auto.
    + rewrite F, C, app_nil_r. auto.
  - reflexivity.
  - reflexivity.
Qed.

Lemma snapshot_on_request_witness :
  let connected := handleWebSocketConnection Sample.client Sample.fresh in
  let asked := handleFrontendCommand Sample.noOther "get_initial_chats" Js.Null connected in
  let produced := handleHistorySet Sample.history asked in
  frontend asked = [] /\ clientIsWaitingForChats asked = true /\
  deliveredOf "initial_chats" produced
    = [Chats (fst (historyChats Sample.history asked))] /\
  clientIsWaitingForChats produced = false /\
  handleGetInitialChats Sample.cached
    = sendToFrontend "initial_chats" (Chats Sample.snapshot) Sample.cached.
Proof.
  intros connected asked produced.
  destruct (snapshot_on_request connected) as (_ & _ & _ & A & _).
  destruct (snapshot_on_request asked) as (_ & _ & _ & _ & P & _).
  destruct (snapshot_on_request Sample.cached) as (_ & G & _).
  assert (Ea : asked = set_clientIsWaitingForChats true connected).
  { apply (A eq_refl eq_refl). }
  destruct (P Sample.history) as (_ & W & _ & F).
  split; [rewrite Ea; reflexivity|]. split; [rewrite Ea; reflexivity|].
  split; [|split; [exact W | apply (G Sample.snapshot eq_refl)]].
  unfold deliveredOf. fold produced in F. rewrite F, Ea. reflexivity.
Defined.

(** On connect no snapshot is sent, cached or not, and connecting does not
    set the client-waiting flag: a client that connects to a backend holding
    a snapshot receives nothing, and a client that connects before there is
    a snapshot, and does not ask, receives nothing when the snapshot is
    produced. *)
Lemma connect_sends_no_snapshot :
  initialChatsPayload Sample.cached = Some Sample.snapshot /\
  frontend (handleWebSocketConnection Sample.client Sample.cached) = [] /\
  clientIsWaitingForChats (handleWebSocketConnection Sample.client Sample.fresh) = false /\
  frontend (handleHistorySet Sample.history
              (handleWebSocketConnection Sample.client Sample.fresh)) = [].
Proof. repeat split. Qed.

End Relay.

(** ** Connection manager *)
Section Connection.

Import Backend.

Variable syncOnOpen : t -> t.

(** The effect of one failed attempt that is not a logout. *)
Lemma failedAttempt_effect f st :
  notLogout f = true ->
  let st' := failedAttempt syncOnOpen f st in
  if reconnectAttempts st <? MAX_RECONNECT_ATTEMPTS then
    reconnectAttempts st' = reconnectAttempts st + 1 /\
    timers st' = (timers st ++ [RECONNECT_DELAY])%list /\
    countSent "connection_failed" st' = countSent "connection_failed" st
  else
    reconnectAttempts st' = reconnectAttempts st /\
    timers st' = timers st /\
    countSent "connection_failed" st' = S (countSent "connection_failed" st).
Proof.
  intros N st'. subst st'. destruct f as [|e]; simpl in N |- *.
  - unfold connectToWhatsApp.
    destruct (reconnectAttempts st <? MAX_RECONNECT_ATTEMPTS).
    + repeat split.
    + repeat split. unfold countSent, sendToFrontend. simpl.
      rewrite filter_app, length_app. simpl. lia.
  - apply negb_true_iff in N.
    unfold handleConnectionUpdate, closeUpdate in *. simpl in *. rewrite N.
    destruct (reconnectAttempts st <? MAX_RECONNECT_ATTEMPTS).
    + repeat split. unfold countSent. simpl.
      rewrite filter_app, length_app. simpl. lia.
    + repeat split. unfold countSent. simpl.
      rewrite !filter_app, !length_app. simpl. lia.
Qed.

Lemma retries_idle fs st :
  timers st = [] -> fold_left (fun s f => retry syncOnOpen f s) fs st = st.
Proof.
  intros E. induction fs as [|f fs IH]; simpl; [reflexivity|].
  unfold retry at 2. rewrite E. exact IH.
Qed.

Lemma retry_effect f st :
  notLogout f = true -> timers st = [RECONNECT_DELAY] ->
  let st' := retry syncOnOpen f st in
  if reconnectAttempts st <? MAX_RECONNECT_ATTEMPTS then
    reconnectAttempts st' = reconnectAttempts st + 1 /\
    timers st' = [RECONNECT_DELAY] /\
    countSent "connection_failed" st' = countSent "connection_failed" st
  else
    reconnectAttempts st' = reconnectAttempts st /\
    timers st' = [] /\
    countSent "connection_failed" st' = S (countSent "connection_failed" st).
Proof.
  intros N E st'. subst st'. unfold retry. rewrite E.
  pose proof (failedAttempt_effect f (set_timers [] st) N) as H.
  simpl in H. exact H.
Qed.

(** The retries that follow a first failure, from a state with one
    pending timer. *)
Lemma retries_effect fs : forall st,
  Forall (fun f => notLogout f = true) fs ->
  timers st = [RECONNECT_DELAY] ->
  0 <= reconnectAttempts st <= MAX_RECONNECT_ATTEMPTS ->
  let st' := fold_left (fun s f => retry syncOnOpen f s) fs st in
  let n := reconnectAttempts st + Z.of_nat (length fs) in
  if n <=? MAX_RECONNECT_ATTEMPTS then
    reconnectAttempts st' = n /\
    timers st' = [RECONNECT_DELAY] /\
    countSent "connection_failed" st' = countSent "connection_failed" st
  else
    reconnectAttempts st' = MAX_RECONNECT_ATTEMPTS /\
    timers st' = [] /\
    countSent "connection_failed" st' = S (countSent "connection_failed" st).
Proof.
  unfold MAX_RECONNECT_ATTEMPTS.
  induction fs as [|f fs IH]; intros st F E R; simpl fold_left; cbv zeta.
  - simpl length. replace (reconnectAttempts st + Z.of_nat 0) with (reconnectAttempts st) by lia.
    destruct (reconnectAttempts st <=? 5) eqn:L; [auto|].
    apply Z.leb_gt in L. lia.
  - inversion F as [|? ? Nf Ffs]; subst.
    pose proof (retry_effect f st Nf E) as H. cbv zeta in H.
    unfold MAX_RECONNECT_ATTEMPTS in H.
    destruct (reconnectAttempts st <? 5) eqn:L.
    + apply Z.ltb_lt in L. destruct H as (Ha & Ht & Hc).
      specialize (IH (retry syncOnOpen f st) Ffs Ht). cbv zeta in IH.
      rewrite Ha, Hc in IH.
      replace (reconnectAttempts st + 1 + Z.of_nat (length fs))
        with (reconnectAttempts st + Z.of_nat (length (f :: fs))) in IH
        by (simpl length; lia).
      apply IH. lia.
    + apply Z.ltb_ge in L. destruct H as (Ha & Ht & Hc).
      rewrite (retries_idle fs _ Ht).
      destruct (reconnectAttempts st + Z.of_nat (length (f :: fs)) <=? 5) eqn:L'.
      * apply Z.leb_le in L'. simpl length in L'. lia.
      * split; [lia|]. split; [exact Ht | exact Hc].
Qed.

(** C3, as the code has it. From a counter at zero and no pending timer,
    each of the first five consecutive failed connect attempts raises the
    counter by one and leaves one reconnect pending, with no
    [connection_failed] event; with the sixth failure the counter stays at
    five, no reconnect is pending, so no further attempt follows, and
    [connection_failed] has been emitted exactly once.  A close caused by a
    logout, at any counter and in any state, deletes the credentials, sets
    the counter to zero and schedules a connect, without a
    [connection_failed] event. *)
Theorem reconnect_policy :
  (forall st fs,
     reconnectAttempts st = 0 -> timers st = [] ->
     Forall (fun f => notLogout f = true) fs -> fs <> [] ->
     let st' := consecutiveFailures syncOnOpen fs st in
     ((length fs <= 5)%nat ->
        reconnectAttempts st' = Z.of_nat (length fs) /\
        timers st' = [RECONNECT_DELAY] /\
        countSent "connection_failed" st' = countSent "connection_failed" st) /\
     ((6 <= length fs)%nat ->
        reconnectAttempts st' = MAX_RECONNECT_ATTEMPTS /\
        timers st' = [] /\
        countSent "connection_failed" st' = S (countSent "connection_failed" st))) /\
  (forall st update,
     connection update = Some "close"%string -> statusCode update = loggedOut ->
     let st' := handleConnectionUpdate syncOnOpen update st in
     authInfo st' = false /\
     reconnectAttempts st' = 0 /\
     timers st' = (timers st ++ [2000])%list /\
     countSent "connection_failed" st' = countSent "connection_failed" st).
Proof.
  split.
  - intros st fs A T F N st'. subst st'.
    destruct fs as [|f fs]; [congruence|]. clear N.
    inversion F as [|? ? Nf Ffs]; subst.
    unfold consecutiveFailures.
    pose proof (failedAttempt_effect f st Nf) as H. cbv zeta in H.
    rewrite A, T in H. simpl in H. destruct H as (Ha & Ht & Hc).
    pose proof (retries_effect fs (failedAttempt syncOnOpen f st) Ffs Ht) as R.
    cbv zeta in R. rewrite Ha, Hc in R. unfold MAX_RECONNECT_ATTEMPTS in *.
    specialize (R ltac:(lia)). simpl length.
    destruct (1 + Z.of_nat (length fs) <=? 5) eqn:L.
    + apply Z.leb_le in L. split; [|intros; lia].
      intros _. destruct R as (R1 & R2 & R3). split; [lia|]. auto.
    + apply Z.leb_gt in L. split; [intros; lia|]. intros _. exact R.
  - intros st update C S st'. subst st'.
    unfold handleConnectionUpdate. rewrite C. simpl. rewrite S. simpl.
    repeat split.
    + destruct (qr update) as [[url|]|]; reflexivity.
    + destruct (qr update) as [[url|]|]; unfold countSent; simpl;
        rewrite ?filter_app, ?length_app; simpl; lia.
Qed.

End Connection.

Lemma reconnect_policy_witness :
  let sixth :=
    Backend.consecutiveFailures Sample.noSync
      [ Backend.SetupThrows; Backend.ConnectionClosed None; Backend.SetupThrows;
        Backend.SetupThrows; Backend.ConnectionClosed None; Backend.SetupThrows ]
      Sample.paired in
  let afterLogout := Backend.handleConnectionUpdate Sample.noSync Sample.logout sixth in
  (Backend.reconnectAttempts sixth = 5 /\
   Backend.timers sixth = [] /\
   Backend.countSent "connection_failed" sixth = 1%nat) /\
  (Backend.authInfo sixth = true /\
   Backend.authInfo afterLogout = false /\
   Backend.reconnectAttempts afterLogout = 0 /\
   Backend.timers afterLogout = [2000] /\
   Backend.countSent "connection_failed" afterLogout = 1%nat).
Proof.
  intros sixth afterLogout.
  destruct (reconnect_policy Sample.noSync) as [A B].
  split.
  - destruct (A Sample.paired
                [ Backend.SetupThrows; Backend.ConnectionClosed None; Backend.SetupThrows;
                  Backend.SetupThrows; Backend.ConnectionClosed None; Backend.SetupThrows ]
                eq_refl eq_refl) as [_ H].
    + repeat constructor.
    + discriminate.
    + apply H. simpl. lia.
  - destruct (B sixth Sample.logout eq_refl eq_refl) as (H1 & H2 & H3 & H4).
    split; [reflexivity|]. split; [exact H1|]. split; [exact H2|].
    split; [exact H3 | exact H4].
Defined.

(** Five consecutive failed connect attempts do not end the retries: the
    fifth failure schedules one more reconnect, and no [connection_failed]
    event has been emitted. *)
Lemma five_failures_leave_a_retry_pending :
  let fifth :=
    Backend.consecutiveFailures Sample.noSync
      [ Backend.SetupThrows; Backend.SetupThrows; Backend.SetupThrows;
        Backend.SetupThrows; Backend.SetupThrows ]
      Sample.paired in
  Backend.reconnectAttempts fifth = 5 /\
  Backend.timers fifth = [Backend.RECONNECT_DELAY] /\
  Backend.countSent "connection_failed" fifth = 0%nat /\
  Backend.frontend fifth = [].
Proof. repeat split. Qed.

(** ** Sync engine *)
Section SyncFacts.

Import Backend.

Variable upstream : nat -> string -> Z -> fetchResult.

Lemma saveBatch_frame jid msgs : forall st n,
  let st' := fst (saveBatch jid msgs st n) in
  fetches st' = fetches st /\ now st' = now st /\
  (uniqueIds (db st) -> uniqueIds (db st')).
Proof.
  induction msgs as [|msg rest IH]; intros st n; simpl.
  - auto.
  - destruct (Database.getMessage (WAMessage.key_id msg) (db st)); [apply IH|].
    destruct (Js.truthy (Display.getDisplayMessage msg)
              || negb (Display.getMessageType msg =? "text")%string); [|apply IH].
    destruct (Database.saveMessage _ _ _ _ _ _ _ _ _) as [d|] eqn:E; [|apply IH].
    destruct (IH (set_db d st) (n + 1)) as (F & N & U). simpl in F, N, U.
    split; [exact F|]. split; [exact N|].
    intros Hu. apply U. eapply saveMessage_uniqueIds; eauto.
Qed.

(** A batch of messages that are all stored already changes nothing and
    counts nothing. *)
Lemma saveBatch_all_present jid msgs : forall st n,
  (forall msg, In msg msgs ->
     Database.getMessage (WAMessage.key_id msg) (db st) <> None) ->
  saveBatch jid msgs st n = (st, n).
Proof.
  induction msgs as [|msg rest IH]; intros st n H; simpl; [reflexivity|].
  destruct (Database.getMessage (WAMessage.key_id msg) (db st)) eqn:E.
  - apply IH. intros m Hm. apply H. right. exact Hm.
  - exfalso. apply (H msg); [left; reflexivity | exact E].
Qed.

Lemma downloadLoop_S fuel jid batchSize remainingLimit total st :
  downloadLoop upstream (S fuel) jid batchSize remainingLimit total st =
    if (0 <? remainingLimit) && (0 <? batchSize) then
      let currentBatchSize := Z.min batchSize remainingLimit in
      let '(answer, st1) := fetchMessageHistory upstream jid currentBatchSize st in
      match answer with
      | FetchThrows => Some (st1, total)
      | NoArray => Some (st1, total)
      | Messages [] => Some (st1, total)
      | Messages messages =>
          let '(st2, batchSavedCount) := saveBatch jid messages st1 0 in
          if Z.of_nat (length messages) <? currentBatchSize then
            Some (st2, total + batchSavedCount)
          else
            downloadLoop upstream fuel jid batchSize (remainingLimit - currentBatchSize)
              (total + batchSavedCount) (delay 200 st2)
      end
    else Some (st, total).
Proof. reflexivity. Qed.

Lemma downloadLoop_done fuel jid batchSize remainingLimit total st :
  remainingLimit <= 0 ->
  downloadLoop upstream fuel jid batchSize remainingLimit total st = Some (st, total).
Proof.
  intros H. destruct fuel; simpl;
    (destruct (0 <? remainingLimit) eqn:E; [apply Z.ltb_lt in E; lia | reflexivity]).
Qed.

(** The loop ends within as many iterations as messages are asked for. *)
Lemma downloadLoop_total fuel : forall jid batchSize remainingLimit total st,
  (Z.to_nat remainingLimit <= fuel)%nat ->
  exists r, downloadLoop upstream fuel jid batchSize remainingLimit total st = Some r.
Proof.
  induction fuel as [|fuel IH]; intros jid batchSize remainingLimit total st H.
  - rewrite downloadLoop_done by lia. eauto.
  - rewrite downloadLoop_S.
    destruct (0 <? remainingLimit) eqn:R; simpl andb; cbv iota; [|eauto].
    destruct (0 <? batchSize) eqn:B; cbv iota zeta; [|eauto].
    apply Z.ltb_lt in R. apply Z.ltb_lt in B. unfold fetchMessageHistory.
    destruct (upstream (length (fetches st)) jid (Z.min batchSize remainingLimit))
      as [[|m ms]| |]; eauto.
    destruct (saveBatch jid (m :: ms) _ 0) as [st2 saved].
    destruct (Z.of_nat (length (m :: ms)) <? Z.min batchSize remainingLimit); [eauto|].
    apply IH. lia.
Qed.

(** What the loop does when the remaining limit is a multiple of the batch
    size of 50: it asks for 50 messages each time, at most once per
    multiple, goes on only after a full batch, and keeps identifiers
    unique. *)
Lemma downloadLoop_batches k : forall fuel jid total st,
  (k <= fuel)%nat ->
  exists st' total' new,
    downloadLoop upstream fuel jid 50 (50 * Z.of_nat k) total st = Some (st', total') /\
    fetches st' = (fetches st ++ new)%list /\
    (length new <= k)%nat /\
    Forall (fun f => f = (jid, 50)) new /\
    (forall i, (S i < length new)%nat ->
       exists msgs,
         upstream (length (fetches st) + i) jid 50 = Messages msgs /\
         (50 <= length msgs)%nat) /\
    (uniqueIds (db st) -> uniqueIds (db st')).
Proof.
  induction k as [|k IH]; intros fuel jid total st H.
  - exists st, total, []. rewrite downloadLoop_done by lia.
    rewrite app_nil_r. repeat split; auto. simpl. intros i Hi. lia.
  - destruct fuel as [|fuel]; [lia|]. rewrite downloadLoop_S.
    assert (R1 : 0 < 50 * Z.of_nat (S k)) by lia.
    assert (R2 : Z.min 50 (50 * Z.of_nat (S k)) = 50) by lia.
    assert (R3 : 50 * Z.of_nat (S k) - 50 = 50 * Z.of_nat k) by lia.
    revert R1 R2 R3. generalize (50 * Z.of_nat (S k)). intros r R1 R2 R3.
    apply Z.ltb_lt in R1. rewrite R1. simpl andb. cbv iota zeta.
    rewrite R2, R3. unfold fetchMessageHistory.
    set (st1 := set_fetches (fetches st ++ [(jid, 50)]) st).
    assert (one : forall st',
              fetches st' = (fetches st ++ [(jid, 50)])%list ->
              (uniqueIds (db st) -> uniqueIds (db st')) ->
              fetches st' = (fetches st ++ [(jid, 50)])%list /\
              (length [(jid, 50)] <= S k)%nat /\
              Forall (fun f => f = (jid, 50)) [(jid, 50)] /\
              (forall i, (S i < length [(jid, 50)])%nat ->
                 exists msgs,
                   upstream (length (fetches st) + i) jid 50 = Messages msgs /\
                   (50 <= length msgs)%nat) /\
              (uniqueIds (db st) -> uniqueIds (db st'))).
    { intros st' F U. repeat split; auto.
      - simpl. lia.
      - simpl. intros i Hi. lia. }
    destruct (upstream (length (fetches st)) jid 50) as [[|m ms]| |] eqn:A.
    + exists st1, total, [(jid, 50)]. split; [reflexivity|]. apply one; auto.
    + destruct (saveBatch jid (m :: ms) st1 0) as [st2 saved] eqn:Sb.
      pose proof (saveBatch_frame jid (m :: ms) st1 0) as Fr.
      rewrite Sb in Fr. simpl in Fr. destruct Fr as (F2 & _ & U2).
      destruct (Z.of_nat (length (m :: ms)) <? 50) eqn:L.
      * exists st2, (total + saved), [(jid, 50)]. split; [reflexivity|].
        apply one; auto.
      * apply Z.ltb_ge in L.
        destruct (IH fuel jid (total + saved) (delay 200 st2) ltac:(lia))
          as (st' & total' & new & E & F & Ln & Fa & Full & U).
        exists st', total', ((jid, 50) :: new). split; [exact E|].
        simpl in F, U. rewrite F2 in F.
        split; [rewrite F, <- app_assoc; reflexivity|].
        split; [simpl; lia|]. split; [constructor; [reflexivity | exact Fa]|].
        split; [|auto].
        intros [|i] Hi.
        -- exists (m :: ms). rewrite Nat.add_0_r. split; [exact A | lia].
        -- simpl in Hi. destruct (Full i ltac:(lia)) as (msgs & Em & Lm).
           exists msgs. split; [|exact Lm].
           change (fetches (delay 200 st2)) with (fetches st2) in Em.
           rewrite F2, length_app in Em. simpl in Em.
           replace (length (fetches st) + S i)%nat
             with (length (fetches st) + 1 + i)%nat by lia. exact Em.
    + exists st1, total, [(jid, 50)]. split; [reflexivity|]. apply one; auto.
    + exists st1, total, [(jid, 50)]. split; [reflexivity|]. apply one; auto.
Qed.

Lemma downloadMessageHistory_eq jid limit st :
  connected st = true ->
  downloadLoop upstream (Z.to_nat limit) jid 50 limit 0 st
    = Some (downloadMessageHistory upstream jid limit st).
Proof.
  intros C. unfold downloadMessageHistory. rewrite C. simpl.
  destruct (downloadLoop_total (Z.to_nat limit) jid 50 limit 0 st (le_n _)) as [r E].
  rewrite E. reflexivity.
Qed.

Lemma asked_total jid (new : list (string * Z)) :
  Forall (fun f => f = (jid, 50)) new ->
  fold_right Z.add 0 (map snd new) = 50 * Z.of_nat (length new).
Proof.
  induction 1 as [|f new E _ IH]; [reflexivity|].
  subst f. cbn [map fold_right snd length]. rewrite IH. lia.
Qed.

(** C2, as the code has it. In first-sync the download of one chat, with
    its cap of 500, always ends; it asks the upstream for batches of 50, at
    most ten times, so for at most 500 messages; it fetches again only after
    a full batch, so a fetch that fails or returns no array, no message or
    fewer messages than asked for is the last one; identifiers stay unique;
    and a message whose identifier is stored already is skipped before any
    insert, so that a batch of stored messages writes and counts nothing.
    Over a list of chats there are at most ten fetches per chat. *)
Theorem first_sync_download jid st :
  let st' := fst (downloadMessageHistory upstream jid 500 st) in
  (exists r, downloadLoop upstream (Z.to_nat 500) jid 50 500 0 st = Some r) /\
  (exists new,
     fetches st' = (fetches st ++ new)%list /\
     (length new <= 10)%nat /\
     Forall (fun f => f = (jid, 50)) new /\
     fold_right Z.add 0 (map snd new) <= 500 /\
     (forall i, (S i < length new)%nat ->
        exists msgs,
          upstream (length (fetches st) + i) jid 50 = Messages msgs /\
          (50 <= length msgs)%nat)) /\
  (uniqueIds (db st) -> uniqueIds (db st')) /\
  (forall msg rest st0 n,
     Database.getMessage (WAMessage.key_id msg) (db st0) <> None ->
     saveBatch jid (msg :: rest) st0 n = saveBatch jid rest st0 n) /\
  (forall msgs st0 n,
     (forall msg, In msg msgs ->
        Database.getMessage (WAMessage.key_id msg) (db st0) <> None) ->
     saveBatch jid msgs st0 n = (st0, n)) /\
  (forall chats n st0,
     (length (fetches (fst (downloadChats upstream chats n st0)))
      <= length (fetches st0) + 10 * length chats)%nat).
Proof.
  assert (One : forall j s,
            exists new,
              fetches (fst (downloadMessageHistory upstream j 500 s))
                = (fetches s ++ new)%list /\
              (length new <= 10)%nat /\
              Forall (fun f => f = (j, 50)) new /\
              (forall i, (S i < length new)%nat ->
                 exists msgs,
                   upstream (length (fetches s) + i) j 50 = Messages msgs /\
                   (50 <= length msgs)%nat) /\
              (uniqueIds (db s) ->
               uniqueIds (db (fst (downloadMessageHistory upstream j 500 s))))).
  { intros j s. destruct (connected s) eqn:C.
    - destruct (downloadLoop_batches 10 (Z.to_nat 500) j 0 s
                  ltac:(apply Nat.leb_le; reflexivity))
        as (s' & total' & new & E & F & L & Fa & Full & U).
      change (50 * Z.of_nat 10) with 500 in E.
      rewrite (downloadMessageHistory_eq j 500 s C) in E.
      injection E as E. rewrite E. simpl. exists new. auto.
    - unfold downloadMessageHistory. rewrite C. simpl. exists [].
      rewrite app_nil_r. split; [reflexivity|]. split; [simpl; lia|].
      split; [constructor|]. split; [simpl; intros i Hi; lia | auto]. }
  intros st'. subst st'. split; [|split; [|split; [|split; [|split]]]].
  - apply downloadLoop_total. lia.
  - destruct (One jid st) as (new & F & L & Fa & Full & _).
    exists new. split; [exact F|]. split; [exact L|]. split; [exact Fa|].
    split; [|exact Full]. rewrite (asked_total jid new Fa). lia.
  - destruct (One jid st) as (new & _ & _ & _ & _ & U). exact U.
  - intros msg rest st0 n H. simpl.
    destruct (Database.getMessage (WAMessage.key_id msg) (db st0)); congruence.
  - intros msgs st0 n H. apply saveBatch_all_present. exact H.
  - induction chats as [|chat rest IH]; intros n st0.
    + simpl. lia.
    + simpl downloadChats.
      destruct (One (ChatListRow.jid chat) st0) as (new & F & L & _).
      destruct (downloadMessageHistory upstream (ChatListRow.jid chat) 500 st0)
        as [st1 count]. simpl in F.
      specialize (IH (n + count) (delay 200 st1)).
      change (fetches (delay 200 st1)) with (fetches st1) in IH.
      rewrite F, length_app in IH. simpl length. lia.
Qed.

Lemma syncBatch_frame jid lastMessageTime msgs : forall st n,
  fetches (fst (syncBatch jid lastMessageTime msgs st n)) = fetches st.
Proof.
  induction msgs as [|msg rest IH]; intros st n; simpl; [reflexivity|].
  destruct (WAMessage.messageTimestamp msg * 1000 <=? lastMessageTime); [apply IH|].
  destruct (Js.truthy (Display.getDisplayMessage msg)); [|apply IH].
  destruct (Database.getMessage (WAMessage.key_id msg) (db st)); [apply IH|].
  destruct (Database.saveMessage _ _ _ _ _ _ _ _ _); [|apply IH].
  rewrite IH. reflexivity.
Qed.

(** The messages of the window that are not newer than the newest stored
    one are passed over. *)
Lemma syncBatch_nothing_newer jid lastMessageTime msgs : forall st n,
  (forall msg, In msg msgs ->
     WAMessage.messageTimestamp msg * 1000 <= lastMessageTime) ->
  syncBatch jid lastMessageTime msgs st n = (st, n).
Proof.
  induction msgs as [|msg rest IH]; intros st n H; simpl; [reflexivity|].
  replace (WAMessage.messageTimestamp msg * 1000 <=? lastMessageTime) with true.
  - apply IH. intros m Hm. apply H. right. exact Hm.
  - symmetry. apply Z.leb_le. apply H. left. reflexivity.
Qed.

(** When [syncChatMessages] fetches: the test is on the age of the newest
    stored message of the chat (of the last sync for a chat without
    messages), not on the time of the previous check. *)
Lemma syncChatMessages_fetch_rule jid lastSyncTime st :
  connected st = true ->
  let lastMessageTime :=
    match Database.getMessages jid 1 0 (db st) with
    | m :: _ => Message.timestamp m
    | [] => lastSyncTime
    end in
  fetches (fst (syncChatMessages upstream jid lastSyncTime st)) =
    (fetches st ++
     if now st - lastMessageTime <? 60000 then [] else [(jid, 20)])%list.
Proof.
  intros C lastMessageTime. subst lastMessageTime.
  unfold syncChatMessages. rewrite C. simpl negb. cbv iota.
  destruct (now st - _ <? 60000); [rewrite app_nil_r; reflexivity|].
  unfold fetchMessageHistory.
  destruct (upstream (length (fetches st)) jid 20); try reflexivity.
  rewrite syncBatch_frame. reflexivity.
Qed.

End SyncFacts.

Lemma first_sync_download_witness :
  let st' := fst (Backend.downloadMessageHistory Sample.sameBatch Sample.alice 500
                    Sample.opened) in
  uniqueIds (Backend.db st') /\
  Backend.saveBatch Sample.alice Sample.fullBatch Sample.stored 0 = (Sample.stored, 0).
Proof.
  destruct (first_sync_download Sample.sameBatch Sample.alice Sample.opened)
    as (_ & _ & U & _ & P & _).
  split.
  - apply U. constructor.
  - apply P. intros msg Hm E.
    assert (A : forallb
                  (fun m =>
                     match Database.getMessage (WAMessage.key_id m)
                             (Backend.db Sample.stored) with
                     | Some _ => true
                     | None => false
                     end) Sample.fullBatch = true) by (vm_compute; reflexivity).
    rewrite forallb_forall in A. specialize (A msg Hm). rewrite E in A. discriminate.
Defined.

(** A fetched batch whose messages all exist locally does not end the
    loop: every message of the batch of fifty is stored, the upstream
    answers each fetch with this batch, and the download still fetches ten
    times, saving nothing. *)
Lemma stored_batch_does_not_stop :
  forallb
    (fun m =>
       match Database.getMessage (WAMessage.key_id m) (Backend.db Sample.stored) with
       | Some _ => true
       | None => false
       end) Sample.fullBatch = true /\
  Backend.fetches Sample.stored = [] /\
  Backend.fetches
    (fst (Backend.downloadMessageHistory Sample.sameBatch Sample.alice 500 Sample.stored))
    = repeat (Sample.alice, 50) 10 /\
  snd (Backend.downloadMessageHistory Sample.sameBatch Sample.alice 500 Sample.stored) = 0.
Proof. vm_compute. repeat split. Qed.

(** C5 at a failing input. The chat of [alice] holds one message, five
    minutes old, and the upstream has nothing newer.  A sync of the chat
    fetches and finds nothing new; a second sync one second later, with the
    time of the first as last sync time, fetches again. *)
Theorem incremental_sync_refetches :
  let first := Backend.syncChatMessages Sample.nothingNew Sample.alice 0 Sample.syncing in
  let again := Backend.delay 1000 (fst first) in
  let second :=
    Backend.syncChatMessages Sample.nothingNew Sample.alice
      (Backend.now Sample.syncing) again in
  Backend.fetches (fst first) = [(Sample.alice, 20)] /\
  snd first = 0 /\
  Backend.now again - Backend.now Sample.syncing = 1000 /\
  Backend.fetches (fst second) = [(Sample.alice, 20); (Sample.alice, 20)] /\
  snd second = 0.
Proof. vm_compute. repeat split. Qed.


(** ** Integrity of the store *)
Section Integrity.

Import Database.

Lemma clearReply_plain i m : Message.reply_to_id m = None -> clearReply i m = m.
Proof. unfold clearReply. intros ->. reflexivity. Qed.

Lemma reply_clearReply i m :
  Message.reply_to_id m = None -> Message.reply_to_id (clearReply i m) = None.
Proof. intros H. rewrite clearReply_plain; assumption. Qed.

Lemma others_plain id l :
  Forall (fun m => Message.reply_to_id m = None) l ->
  others id l = filter (fun m => negb (Message.id m =? id)%string) l.
Proof.
  intros F. unfold others.
  rewrite <- (map_id (filter _ l)) at 2. apply map_ext_in.
  intros m Hm. apply clearReply_plain. apply filter_In in Hm.
  rewrite Forall_forall in F. apply F. tauto.
Qed.

Lemma Forall_filter {A : Type} (P : A -> Prop) (p : A -> bool) l :
  Forall P l -> Forall P (filter p l).
Proof.
  rewrite !Forall_forall. intros H x Hx. apply filter_In in Hx. apply H. tauto.
Qed.

Lemma filter_twice {A : Type} (p q : A -> bool) l :
  filter p (filter q l) = filter (fun x => q x && p x) l.
Proof.
  induction l as [|x l IH]; simpl; [reflexivity|].
  destruct (q x); simpl; [destruct (p x)|]; rewrite ?IH; reflexivity.
Qed.

Lemma NoDup_map_inj {A B : Type} (f : A -> B) l x y :
  NoDup (map f l) -> In x l -> In y l -> f x = f y -> x = y.
Proof.
  induction l as [|a l IH]; simpl; intros N Hx Hy E; [tauto|].
  inversion N as [|? ? Na Nl]; subst.
  destruct Hx as [-> | Hx], Hy as [-> | Hy]; auto.
  - exfalso. apply Na. rewrite E. apply in_map. exact Hy.
  - exfalso. apply Na. rewrite <- E. apply in_map. exact Hx.
Qed.

Lemma NoDup_replace {A : Type} (key : A -> string) (k : string) (x : A) l :
  key x = k -> NoDup (map key l) ->
  NoDup (map key (filter (fun a => negb (key a =? k)%string) l ++ [x])).
Proof.
  intros E N. rewrite map_app. apply NoDup_app.
  - apply NoDup_map_filter. exact N.
  - constructor; [intros []|constructor].
  - intros a Ha [<- | []]. apply in_map_iff in Ha. destruct Ha as [y [Ey Hy]].
    apply filter_In in Hy. destruct Hy as [_ Hy].
    rewrite Ey, E, String.eqb_refl in Hy. discriminate.
Qed.

Lemma chatExists_chats j d1 d2 :
  chats d1 = chats d2 -> chatExists j d1 = chatExists j d2.
Proof. unfold chatExists. intros ->. reflexivity. Qed.

Lemma chatExists_jids j d1 d2 :
  map Chat.jid (chats d1) = map Chat.jid (chats d2) ->
  chatExists j d1 = chatExists j d2.
Proof.
  unfold chatExists. generalize (chats d1) (chats d2).
  induction l as [|c l IH]; intros [|c' l'] E; simpl in *; try discriminate; auto.
  injection E as Ec El. rewrite Ec, (IH l' El). reflexivity.
Qed.

Lemma deleteMessages_frame ids : forall d,
  chats (fold_left (fun acc id => deleteMessage id acc) ids d) = chats d /\
  contacts (fold_left (fun acc id => deleteMessage id acc) ids d) = contacts d.
Proof.
  induction ids as [|id ids IH]; intros d; simpl; [auto|].
  destruct (IH (deleteMessage id d)) as [C K]. rewrite C, K. auto.
Qed.

(** Deleting messages leaves, of the rows that stay, everything but the
    reply pointer as it was. *)
Lemma deleteMessages_rows ids : forall d m',
  In m' (messages (fold_left (fun acc id => deleteMessage id acc) ids d)) ->
  exists m, In m (messages d) /\
            Message.id m' = Message.id m /\
            Message.chat_jid m' = Message.chat_jid m /\
            (Message.reply_to_id m = None -> Message.reply_to_id m' = None).
Proof.
  induction ids as [|id ids IH]; intros d m' H; simpl in H.
  - exists m'. auto.
  - destruct (IH _ _ H) as [m1 (H1 & Ei & Ec & Er)].
    simpl in H1. apply in_map_iff in H1. destruct H1 as [m [<- Hm]].
    apply filter_In in Hm. exists m. split; [tauto|].
    rewrite Ei, Ec, id_clearReply, chat_jid_clearReply.
    split; [reflexivity|]. split; [reflexivity|].
    intros N. apply Er. apply reply_clearReply. exact N.
Qed.

Lemma deleteMessages_plain ids : forall d,
  noReplies d ->
  messages (fold_left (fun acc id => deleteMessage id acc) ids d) =
    filter (fun m => negb (existsb (fun id => (Message.id m =? id)%string) ids))
           (messages d).
Proof.
  induction ids as [|id ids IH]; intros d N; simpl.
  - symmetry. apply forallb_filter_id. apply forallb_forall. reflexivity.
  - rewrite IH.
    + simpl. fold (others id (messages d)). rewrite (others_plain id _ N).
      rewrite filter_twice. apply filter_ext. intros m.
      destruct (Message.id m =? id)%string; reflexivity.
    + unfold noReplies. simpl. fold (others id (messages d)).
      rewrite (others_plain id _ N). apply Forall_filter. exact N.
Qed.

Lemma consistent_empty : consistent empty.
Proof.
  split; unfold uniqueChats, uniqueIds, uniqueContacts, ownedMessages, noReplies,
    plainChats; simpl; constructor.
Qed.

Lemma consistent_saveChat now jid name lastMessageId timestamp d :
  consistent d -> consistent (saveChat now jid name lastMessageId timestamp d).
Proof.
  intros [Hc Hi Hk Ho Hr Hp].
  set (gone := map Message.id
                 (filter (fun m => (Message.chat_jid m =? jid)%string) (messages d))).
  destruct (deleteMessages_frame gone d) as [Ec Ek].
  split.
  - unfold uniqueChats, saveChat, deleteChat. simpl. fold gone. rewrite Ec.
    apply (NoDup_replace Chat.jid jid); [reflexivity | exact Hc].
  - apply saveChat_uniqueIds. exact Hi.
  - unfold uniqueContacts, saveChat, deleteChat. simpl. fold gone. rewrite Ek. exact Hk.
  - unfold ownedMessages, saveChat, deleteChat, chatExists. simpl. fold gone.
    rewrite Ec. apply Forall_forall. intros m' Hm'.
    destruct (deleteMessages_rows gone d m' Hm') as [m (Hm & _ & Ej & _)].
    unfold ownedMessages in Ho. rewrite Forall_forall in Ho. specialize (Ho m Hm).
    unfold chatExists in Ho. rewrite Ej, existsb_app. simpl.
    destruct (Message.chat_jid m =? jid)%string eqn:E.
    + apply String.eqb_eq in E. rewrite E, String.eqb_refl, orb_true_r. reflexivity.
    + apply existsb_exists in Ho. destruct Ho as [c [Hcin Hcj]].
      apply orb_true_iff. left. apply existsb_exists. exists c.
      split; [|exact Hcj]. apply filter_In. split; [exact Hcin|].
      apply String.eqb_eq in Hcj. rewrite Hcj, E. reflexivity.
  - unfold noReplies, saveChat, deleteChat. simpl. fold gone.
    apply Forall_forall. intros m' Hm'.
    destruct (deleteMessages_rows gone d m' Hm') as [m (Hm & _ & _ & Er)].
    apply Er. unfold noReplies in Hr. rewrite Forall_forall in Hr. auto.
  - unfold plainChats, saveChat, deleteChat. simpl. fold gone. rewrite Ec.
    apply Forall_app. split; [apply Forall_filter; exact Hp|].
    constructor; [simpl; auto | constructor].
Qed.

Lemma consistent_saveContact now jid name phoneNumber d :
  consistent d -> consistent (saveContact now jid name phoneNumber d).
Proof.
  intros [Hc Hi Hk Ho Hr Hp]. split; try assumption.
  unfold uniqueContacts, saveContact. simpl.
  apply (NoDup_replace Contact.jid jid); [reflexivity | exact Hk].
Qed.

Lemma touchChat_jids now id timestamp chatJid l :
  map Chat.jid (map (touchChat now id timestamp chatJid) l) = map Chat.jid l.
Proof. rewrite map_map. apply map_ext. intros c. apply touchChat_jid. Qed.

Lemma consistent_saveMessage
    now id chatJid fromMe content timestamp messageType status d d' :
  saveMessage now id chatJid fromMe content timestamp messageType status d = Ok d' ->
  consistent d -> consistent d'.
Proof.
  intros H [Hc Hi Hk Ho Hr Hp].
  pose proof (saveMessage_uniqueIds _ _ _ _ _ _ _ _ _ _ H Hi) as Hi'.
  apply saveMessage_Ok in H. destruct H as (Hx & Hm & Hch & Hko).
  assert (Ej : map Chat.jid (chats d') = map Chat.jid (chats d)).
  { rewrite Hch. apply touchChat_jids. }
  split.
  - unfold uniqueChats. rewrite Ej. exact Hc.
  - exact Hi'.
  - unfold uniqueContacts. rewrite Hko. exact Hk.
  - unfold ownedMessages. rewrite Hm. apply Forall_app. split.
    + apply Forall_forall. intros m' Hm'. unfold others in Hm'.
      apply in_map_iff in Hm'. destruct Hm' as [m [<- Hin]].
      apply filter_In in Hin. rewrite chat_jid_clearReply.
      rewrite (chatExists_jids _ d' d Ej).
      unfold ownedMessages in Ho. rewrite Forall_forall in Ho. apply Ho. tauto.
    + constructor; [|constructor]. simpl.
      rewrite (chatExists_jids _ d' d Ej). exact Hx.
  - unfold noReplies. rewrite Hm. apply Forall_app. split.
    + rewrite (others_plain id _ Hr). apply Forall_filter. exact Hr.
    + constructor; [reflexivity | constructor].
  - unfold plainChats. rewrite Hch. apply Forall_forall. intros c' Hc'.
    apply in_map_iff in Hc'. destruct Hc' as [c [<- Hin]].
    unfold plainChats in Hp. rewrite Forall_forall in Hp. specialize (Hp c Hin).
    unfold touchChat. destruct (Chat.jid c =? chatJid)%string; simpl; exact Hp.
Qed.

Lemma setStatus_id i s m : Message.id (setStatus i s m) = Message.id m.
Proof. unfold setStatus. destruct (Message.id m =? i)%string; reflexivity. Qed.

Lemma setStatus_chat_jid i s m : Message.chat_jid (setStatus i s m) = Message.chat_jid m.
Proof. unfold setStatus. destruct (Message.id m =? i)%string; reflexivity. Qed.

Lemma setStatus_timestamp i s m :
  Message.timestamp (setStatus i s m) = Message.timestamp m.
Proof. unfold setStatus. destruct (Message.id m =? i)%string; reflexivity. Qed.

Lemma setStatus_content i s m : Message.content (setStatus i s m) = Message.content m.
Proof. unfold setStatus. destruct (Message.id m =? i)%string; reflexivity. Qed.

Lemma setStatus_reply i s m :
  Message.reply_to_id (setStatus i s m) = Message.reply_to_id m.
Proof. unfold setStatus. destruct (Message.id m =? i)%string; reflexivity. Qed.

Lemma consistent_updateMessageStatus messageId status d :
  consistent d -> consistent (updateMessageStatus messageId status d).
Proof.
  intros [Hc Hi Hk Ho Hr Hp]. split; try assumption.
  - unfold uniqueIds. simpl. rewrite map_map.
    erewrite map_ext; [exact Hi|]. intros m. apply setStatus_id.
  - unfold ownedMessages. simpl. apply Forall_forall. intros m' Hm'.
    apply in_map_iff in Hm'. destruct Hm' as [m [<- Hm]].
    rewrite setStatus_chat_jid.
    unfold ownedMessages in Ho. rewrite Forall_forall in Ho. apply (Ho m Hm).
  - unfold noReplies. simpl. apply Forall_forall. intros m' Hm'.
    apply in_map_iff in Hm'. destruct Hm' as [m [<- Hm]].
    rewrite setStatus_reply.
    unfold noReplies in Hr. rewrite Forall_forall in Hr. apply (Hr m Hm).
Qed.

Lemma clearReplies_fields gone m :
  Message.id (clearReplies gone m) = Message.id m /\
  Message.chat_jid (clearReplies gone m) = Message.chat_jid m /\
  Message.timestamp (clearReplies gone m) = Message.timestamp m /\
  Message.content (clearReplies gone m) = Message.content m /\
  (Message.reply_to_id m = None -> clearReplies gone m = m).
Proof.
  unfold clearReplies. destruct (Message.reply_to_id m) as [r|] eqn:E.
  - destruct (existsb _ gone); simpl; repeat split; auto; discriminate.
  - repeat split; auto.
Qed.

Lemma cleanup_plain nowMs d :
  noReplies d ->
  messages (cleanup nowMs d) =
    filter (fun m => nowMs - sixMonths <=? Message.timestamp m) (messages d).
Proof.
  intros N. unfold cleanup. simpl.
  erewrite map_ext_in; [rewrite map_id|].
  - apply filter_ext. intros m.
    destruct (Message.timestamp m <? nowMs - sixMonths) eqn:E; simpl.
    + apply Z.ltb_lt in E. symmetry. apply Z.leb_gt. exact E.
    + apply Z.ltb_ge in E. symmetry. apply Z.leb_le. exact E.
  - intros m Hm. apply filter_In in Hm.
    apply clearReplies_fields. unfold noReplies in N. rewrite Forall_forall in N.
    apply N. tauto.
Qed.

Lemma consistent_cleanup nowMs d : consistent d -> consistent (cleanup nowMs d).
Proof.
  intros [Hc Hi Hk Ho Hr Hp]. split; try assumption.
  - unfold uniqueIds. rewrite (cleanup_plain nowMs d Hr).
    apply NoDup_map_filter. exact Hi.
  - unfold ownedMessages. rewrite (cleanup_plain nowMs d Hr).
    apply Forall_filter. exact Ho.
  - unfold noReplies. rewrite (cleanup_plain nowMs d Hr).
    apply Forall_filter. exact Hr.
Qed.

Lemma built_consistent_aux d : built d -> consistent d.
Proof.
  induction 1 as [| | |? ? ? ? ? ? ? ? ? ? _ IH E| |].
  - apply consistent_empty.
  - apply consistent_saveChat. assumption.
  - apply consistent_saveContact. assumption.
  - eapply consistent_saveMessage; eauto.
  - apply consistent_updateMessageStatus. assumption.
  - apply consistent_cleanup. assumption.
Qed.

(** X1: the integrity of the store. Every state that [saveChat],
    [saveContact], a successful [saveMessage], [updateMessageStatus] and
    [cleanup] build from the empty store has one row per chat identifier,
    per message identifier and per contact identifier, has a chat for every
    message, has no message marked as a reply, and has no archived chat and
    no unread count other than 0. *)
Theorem built_consistent d :
  built d ->
  uniqueChats d /\ uniqueIds d /\ uniqueContacts d /\
  ownedMessages d /\ noReplies d /\ plainChats d.
Proof.
  intros B. destruct (built_consistent_aux d B) as [Hc Hi Hk Ho Hr Hp]. auto 10.
Qed.

End Integrity.

(** ** Operations of the store *)
Section StoreOperations.

Import Database.

Lemma built_twoChats : built Sample.twoChats.
Proof. repeat constructor. Qed.

Lemma built_olderLater : built Sample.olderLater.
Proof.
  apply (built_saveMessage 30 "3EB0A0" Sample.alice false (Some "hi") 1600000000000
           "text" "received" Sample.sentTwice); [|reflexivity].
  apply (built_saveMessage 20 "3EB0A1" Sample.alice true (Some "hello") 1700000000000
           "text" "read" Sample.sentOnce); [|reflexivity].
  apply (built_saveMessage 10 "3EB0A1" Sample.alice true (Some "hello") 1700000000000
           "text" "sent" Sample.twoChats); [|reflexivity].
  apply built_twoChats.
Qed.

Lemma built_consistent_witness :
  uniqueChats Sample.olderLater /\ uniqueIds Sample.olderLater /\
  uniqueContacts Sample.olderLater /\ ownedMessages Sample.olderLater /\
  noReplies Sample.olderLater /\ plainChats Sample.olderLater.
Proof. apply (built_consistent Sample.olderLater). apply built_olderLater. Defined.

Lemma find_last_only {A : Type} (p : A -> bool) l x :
  (forall y, In y l -> p y = false) -> p x = true -> find p (l ++ [x]) = Some x.
Proof.
  induction l as [|a l IH]; simpl; intros H Hx.
  - rewrite Hx. reflexivity.
  - rewrite (H a (or_introl eq_refl)). apply IH; auto.
Qed.

Lemma find_skip_last {A : Type} (p : A -> bool) l x :
  p x = false -> find p (l ++ [x]) = find p l.
Proof.
  induction l as [|a l IH]; simpl; intros Hx.
  - rewrite Hx. reflexivity.
  - destruct (p a); [reflexivity | apply IH; exact Hx].
Qed.

Lemma find_filter_other {A : Type} (key : A -> string) (j k : string) l :
  j <> k ->
  find (fun a => (key a =? j)%string) (filter (fun a => negb (key a =? k)%string) l)
    = find (fun a => (key a =? j)%string) l.
Proof.
  intros N. induction l as [|a l IH]; simpl; [reflexivity|].
  destruct (key a =? k)%string eqn:Ek; simpl.
  - apply String.eqb_eq in Ek.
    destruct (key a =? j)%string eqn:Ej; [|exact IH].
    apply String.eqb_eq in Ej. congruence.
  - destruct (key a =? j)%string; [reflexivity | exact IH].
Qed.

Lemma filter_filter_other {A : Type} (key : A -> string) (j k : string) l :
  j <> k ->
  filter (fun a => (key a =? j)%string) (filter (fun a => negb (key a =? k)%string) l)
    = filter (fun a => (key a =? j)%string) l.
Proof.
  intros N. rewrite filter_twice. apply filter_ext. intros a.
  destruct (key a =? k)%string eqn:Ek; simpl; [|reflexivity].
  apply String.eqb_eq in Ek. symmetry. apply String.eqb_neq. congruence.
Qed.

Lemma filter_same_none {A : Type} (key : A -> string) (k : string) l :
  filter (fun a => (key a =? k)%string) (filter (fun a => negb (key a =? k)%string) l)
    = [].
Proof.
  rewrite filter_twice. induction l as [|a l IH]; simpl; [reflexivity|].
  destruct (key a =? k)%string; simpl; exact IH.
Qed.

Lemma limitOffset_nil {A : Type} limit offset :
  limitOffset limit offset (@nil A) = [].
Proof.
  unfold limitOffset. rewrite skipn_nil. destruct (limit <? 0); [reflexivity|].
  apply firstn_nil.
Qed.

(** X2: [saveChat] replaces. After [saveChat] there is exactly one row for
    the chat, with the given name and last message, an unread count of 0
    and the archived flag off, whatever the row held before; the rows of the
    other chats and the contacts are as they were. *)
Theorem saveChat_replaces now jid name lastMessageId timestamp d :
  let d' := saveChat now jid name lastMessageId timestamp d in
  chatRows jid d' =
    [ {| Chat.jid := jid; Chat.name := name; Chat.last_message_id := lastMessageId;
         Chat.last_message_timestamp := timestamp; Chat.unread_count := 0;
         Chat.is_archived := false; Chat.created_at := now;
         Chat.updated_at := now |} ] /\
  (forall j, j <> jid -> chatRows j d' = chatRows j d) /\
  contacts d' = contacts d.
Proof.
  intros d'. subst d'. unfold chatRows, saveChat, deleteChat. simpl.
  set (gone := map Message.id _).
  destruct (deleteMessages_frame gone d) as [Ec Ek]. rewrite Ec, Ek.
  split; [|split; [|reflexivity]].
  - rewrite filter_app, (filter_same_none Chat.jid). simpl.
    rewrite String.eqb_refl. reflexivity.
  - intros j N. rewrite filter_app, (filter_filter_other Chat.jid) by exact N.
    simpl. replace (jid =? j)%string with false.
    + apply app_nil_r.
    + symmetry. apply String.eqb_neq. congruence.
Qed.

Lemma saveChat_replaces_witness :
  chatRows Sample.bob (saveChat 40 Sample.alice (Some "Alice"%string) None None Sample.twoChats)
    = chatRows Sample.bob Sample.twoChats.
Proof.
  destruct (saveChat_replaces 40 Sample.alice (Some "Alice"%string) None None
              Sample.twoChats) as (_ & O & _).
  apply O. intros H. vm_compute in H. discriminate H.
Defined.

(** X3: [saveChat] drops the history of the chat. In a consistent store the
    messages left after [saveChat] are exactly the messages of the other
    chats: the row that [INSERT OR REPLACE] replaces is deleted, and with it,
    by [ON DELETE CASCADE], every message of the chat. *)
Theorem saveChat_drops_history now jid name lastMessageId timestamp d :
  consistent d ->
  let d' := saveChat now jid name lastMessageId timestamp d in
  messages d' = filter (fun m => negb (Message.chat_jid m =? jid)%string) (messages d) /\
  (forall limit offset, getMessages jid limit offset d' = []) /\
  (forall j limit offset, j <> jid ->
     getMessages j limit offset d' = getMessages j limit offset d).
Proof.
  intros [_ Hi _ _ Hr _] d'.
  assert (E : messages d'
              = filter (fun m => negb (Message.chat_jid m =? jid)%string) (messages d)).
  { subst d'. unfold saveChat, deleteChat. simpl.
    rewrite (deleteMessages_plain _ d Hr). apply filter_ext_in. intros m Hm.
    f_equal. destruct (Message.chat_jid m =? jid)%string eqn:Ej.
    - apply existsb_exists. exists (Message.id m). split; [|apply String.eqb_refl].
      apply in_map. apply filter_In. tauto.
    - destruct (existsb _ _) eqn:Ex; [|reflexivity]. exfalso.
      apply existsb_exists in Ex. destruct Ex as [i [Hin Ei]].
      apply String.eqb_eq in Ei. apply in_map_iff in Hin.
      destruct Hin as [m' [Em' Hm']]. apply filter_In in Hm'.
      destruct Hm' as [Hm' Ej'].
      assert (m' = m).
      { apply (NoDup_map_inj Message.id (messages d)); auto. congruence. }
      subst m'. congruence. }
  split; [exact E|]. split.
  - intros limit offset. unfold getMessages, selectMessages. rewrite E.
    rewrite (filter_same_none Message.chat_jid). simpl orderByDesc.
    rewrite limitOffset_nil. reflexivity.
  - intros j limit offset N. unfold getMessages, selectMessages. rewrite E.
    rewrite (filter_filter_other Message.chat_jid) by exact N. reflexivity.
Qed.

Lemma saveChat_drops_history_witness :
  map Message.id (getMessages Sample.alice 50 0 Sample.olderLater)
    = ["3EB0A0"; "3EB0A1"]%string /\
  messages (saveChat 40 Sample.alice (Some "Alice") None None Sample.olderLater) = [].
Proof.
  split; [reflexivity|].
  destruct (saveChat_drops_history 40 Sample.alice (Some "Alice") None None
              Sample.olderLater (built_consistent_aux Sample.olderLater built_olderLater))
    as (E & _).
  rewrite E. reflexivity.
Defined.

(** X4: contacts round trip. [getContact] after [saveContact] gives the
    saved name and phone number, with no avatar path and the blocked flag
    off, whatever the contact held before; the other contacts, the chats and
    the messages are as they were. *)
Theorem saveContact_getContact now jid name phoneNumber d :
  let d' := saveContact now jid name phoneNumber d in
  getContact jid d' =
    Some {| Contact.jid := jid; Contact.name := name;
            Contact.phone_number := phoneNumber; Contact.avatar_path := None;
            Contact.is_blocked := false; Contact.created_at := now;
            Contact.updated_at := now |} /\
  (forall j, j <> jid -> getContact j d' = getContact j d) /\
  chats d' = chats d /\ messages d' = messages d.
Proof.
  intros d'. subst d'. unfold getContact, saveContact. simpl.
  split; [|split; [|split; reflexivity]].
  - apply find_last_only.
    + intros y Hy. apply filter_In in Hy. apply negb_true_iff. tauto.
    + apply String.eqb_refl.
  - intros j N. rewrite find_skip_last.
    + apply (find_filter_other Contact.jid). exact N.
    + simpl. apply String.eqb_neq. congruence.
Qed.

Lemma saveContact_getContact_witness :
  getContact Sample.bob (saveContact 40 Sample.alice (Some "Al"%string) None Sample.twoChats)
    = getContact Sample.bob Sample.twoChats.
Proof.
  destruct (saveContact_getContact 40 Sample.alice (Some "Al"%string) None
              Sample.twoChats) as (_ & O & _).
  apply O. intros H. vm_compute in H. discriminate H.
Defined.

End StoreOperations.

(** ** Queries after writes *)
Section Queries.

Import Database.

Lemma insertDesc_map {A B : Type} (f : A -> B) (key : B -> Z) (key' : A -> Z) x l :
  (forall a, key (f a) = key' a) ->
  insertDesc key (f x) (map f l) = map f (insertDesc key' x l).
Proof.
  intros K. induction l as [|y l IH]; simpl; [reflexivity|].
  rewrite !K. destruct (key' y <=? key' x); simpl; [reflexivity|].
  rewrite IH. reflexivity.
Qed.

Lemma orderByDesc_map {A B : Type} (f : A -> B) (key : B -> Z) (key' : A -> Z) l :
  (forall a, key (f a) = key' a) ->
  orderByDesc key (map f l) = map f (orderByDesc key' l).
Proof.
  intros K. induction l as [|x l IH]; simpl; [reflexivity|].
  rewrite IH. apply insertDesc_map. exact K.
Qed.

Lemma limitOffset_map {A B : Type} (f : A -> B) limit offset l :
  limitOffset limit offset (map f l) = map f (limitOffset limit offset l).
Proof.
  unfold limitOffset. rewrite skipn_map.
  destruct (limit <? 0); [reflexivity | apply firstn_map].
Qed.

Lemma find_map {A B : Type} (f : A -> B) (p : B -> bool) l :
  find p (map f l) = option_map f (find (fun a => p (f a)) l).
Proof.
  induction l as [|x l IH]; simpl; [reflexivity|].
  destruct (p (f x)); [reflexivity | exact IH].
Qed.

Lemma find_same {A : Type} (p q : A -> bool) l :
  (forall a, p a = q a) -> find p l = find q l.
Proof.
  intros E. induction l as [|x l IH]; simpl; [reflexivity|].
  rewrite E, IH. reflexivity.
Qed.

Lemma getMessages_updateMessageStatus messageId status chatJid limit offset d :
  getMessages chatJid limit offset (updateMessageStatus messageId status d) =
    map (setStatus messageId status) (getMessages chatJid limit offset d).
Proof.
  unfold getMessages, selectMessages, updateMessageStatus. simpl.
  rewrite filter_map_swap.
  rewrite (filter_ext _ (fun m => (Message.chat_jid m =? chatJid)%string))
    by (intros m; rewrite setStatus_chat_jid; reflexivity).
  rewrite (orderByDesc_map _ Message.timestamp Message.timestamp)
    by (intros m; apply setStatus_timestamp).
  rewrite limitOffset_map, map_rev. reflexivity.
Qed.

Lemma joinLastMessage_updateMessageStatus messageId status d c :
  joinLastMessage (updateMessageStatus messageId status d) c = joinLastMessage d c.
Proof.
  unfold joinLastMessage, findMessage, updateMessageStatus. simpl.
  destruct (Chat.last_message_id c) as [i|]; [|reflexivity].
  rewrite find_map.
  rewrite (find_same _ (fun m => (Message.id m =? i)%string))
    by (intros m; rewrite setStatus_id; reflexivity).
  destruct (find _ (messages d)) as [m|]; simpl; [|reflexivity].
  rewrite setStatus_content, setStatus_timestamp. reflexivity.
Qed.

(** X5: [updateMessageStatus] changes the status and nothing else. Every
    row with the identifier gets the new status; the rows of the other
    identifiers are as they were, and the table is untouched when no row has
    the identifier.  Every page of [getMessages] holds the same rows in the
    same order, up to the status, and [getChats] lists the same rows as
    before: unlike [saveMessage], a status update does not move the chat. *)
Theorem updateMessageStatus_only_status messageId status d :
  let d' := updateMessageStatus messageId status d in
  (forall m, In m (rowsWithId messageId d') -> Message.status m = status) /\
  length (rowsWithId messageId d') = length (rowsWithId messageId d) /\
  (forall id, id <> messageId -> rowsWithId id d' = rowsWithId id d) /\
  (rowsWithId messageId d = [] -> messages d' = messages d) /\
  (forall chatJid limit offset,
     getMessages chatJid limit offset d' =
       map (setStatus messageId status) (getMessages chatJid limit offset d)) /\
  (forall limit, getChats limit d' = getChats limit d) /\
  chats d' = chats d /\ contacts d' = contacts d.
Proof.
  intros d'. subst d'.
  assert (R : forall id,
            rowsWithId id (updateMessageStatus messageId status d)
              = map (setStatus messageId status) (rowsWithId id d)).
  { intros id. unfold rowsWithId, updateMessageStatus. simpl.
    rewrite filter_map_swap. f_equal. apply filter_ext.
    intros m. rewrite setStatus_id. reflexivity. }
  split; [|split; [|split; [|split; [|split; [|split; [|split; reflexivity]]]]]].
  - intros m Hm. rewrite R in Hm. apply in_map_iff in Hm.
    destruct Hm as [m0 [<- Hm0]]. unfold rowsWithId in Hm0.
    apply filter_In in Hm0. destruct Hm0 as [_ E].
    unfold setStatus. rewrite E. reflexivity.
  - rewrite R. apply length_map.
  - intros id N. rewrite R. rewrite <- (map_id (rowsWithId id d)) at 2.
    apply map_ext_in. intros m Hm. unfold rowsWithId in Hm.
    apply filter_In in Hm. destruct Hm as [_ E]. apply String.eqb_eq in E.
    unfold setStatus. replace (Message.id m =? messageId)%string with false;
      [reflexivity|]. symmetry. apply String.eqb_neq. congruence.
  - intros E. unfold updateMessageStatus. simpl.
    rewrite <- (map_id (messages d)) at 2. apply map_ext_in. intros m Hm.
    unfold setStatus. destruct (Message.id m =? messageId)%string eqn:Ei; [|reflexivity].
    exfalso. assert (In m (rowsWithId messageId d)).
    { unfold rowsWithId. apply filter_In. auto. }
    rewrite E in H. exact H.
  - intros chatJid limit offset. apply getMessages_updateMessageStatus.
  - intros limit. unfold getChats. f_equal. f_equal.
    change (chats (updateMessageStatus messageId status d)) with (chats d).
    apply map_ext. intros c. apply joinLastMessage_updateMessageStatus.
Qed.

Lemma updateMessageStatus_only_status_witness :
  map Message.status
    (getMessages Sample.alice 50 0
       (updateMessageStatus "3EB0A0" "read" Sample.olderLater)) = ["read"; "read"]%string /\
  messages (updateMessageStatus "missing" "read" Sample.olderLater)
    = messages Sample.olderLater.
Proof.
  destruct (updateMessageStatus_only_status "missing" "read" Sample.olderLater)
    as (_ & _ & _ & E & _).
  split; [reflexivity | apply E; reflexivity].
Defined.

(** X6: the newest message. [getMessages(chatJid, 1)] is empty exactly when
    the chat has no message, and otherwise holds one message of the chat
    whose timestamp no message of the chat exceeds: the high-water mark that
    the incremental sync reads. *)
Theorem getMessages_newest chatJid d :
  (getMessages chatJid 1 0 d = [] <->
   forall m, In m (messages d) -> Message.chat_jid m <> chatJid) /\
  (forall m, In m (getMessages chatJid 1 0 d) ->
     getMessages chatJid 1 0 d = [m] /\
     In m (messages d) /\ Message.chat_jid m = chatJid /\
     forall m', In m' (messages d) -> Message.chat_jid m' = chatJid ->
       Message.timestamp m' <= Message.timestamp m).
Proof.
  unfold getMessages, selectMessages, limitOffset. simpl.
  set (chat := filter (fun m => (Message.chat_jid m =? chatJid)%string) (messages d)).
  pose proof (orderByDesc_descending Message.timestamp chat) as S.
  pose proof (fun x => orderByDesc_In Message.timestamp x chat) as I.
  destruct (orderByDesc Message.timestamp chat) as [|x rest]; simpl.
  - split.
    + split; [|reflexivity]. intros _ m Hm E.
      apply (proj2 (I m)). subst chat. apply filter_In.
      split; [exact Hm | apply String.eqb_eq; exact E].
    + intros m [].
  - split.
    + split; [discriminate|]. intros H. exfalso.
      assert (Hx : In x chat) by (apply I; left; reflexivity).
      subst chat. apply filter_In in Hx. destruct Hx as [Hx E].
      apply String.eqb_eq in E. exact (H x Hx E).
    + intros m [<- | []]. split; [reflexivity|].
      assert (Hx : In x chat) by (apply I; left; reflexivity).
      subst chat. apply filter_In in Hx. destruct Hx as [Hx E].
      apply String.eqb_eq in E. split; [exact Hx|]. split; [exact E|].
      intros m' Hm' E'.
      assert (Hi : In m' (x :: rest)).
      { apply I. apply filter_In. split; [exact Hm' | apply String.eqb_eq; exact E']. }
      destruct Hi as [<- | Hi]; [lia|].
      inversion S as [|? ? _ F]; subst. rewrite Forall_forall in F. apply F. exact Hi.
Qed.

Lemma getMessages_newest_witness :
  map Message.id (getMessages Sample.alice 1 0 Sample.olderLater) = ["3EB0A1"]%string /\
  getMessages Sample.bob 1 0 Sample.olderLater = [].
Proof.
  destruct (getMessages_newest Sample.bob Sample.olderLater) as [[_ E] _].
  split; [reflexivity|]. apply E.
  intros m Hm. simpl in Hm.
  repeat (destruct Hm as [<- | Hm]; [discriminate|]). destruct Hm.
Defined.




End Queries.

(** ** Retention, activity order, settings *)
Section Retention.

Import Database.

Lemma cleanup_recent nowMs d m :
  In m (messages (cleanup nowMs d)) -> nowMs - sixMonths <= Message.timestamp m.
Proof.
  unfold cleanup. simpl. intros H. apply in_map_iff in H.
  destruct H as [m0 [<- H0]]. apply filter_In in H0. destruct H0 as [_ E].
  destruct (clearReplies_fields
              (map Message.id
                 (filter (fun m => Message.timestamp m <? nowMs - sixMonths) (messages d)))
              m0) as (_ & _ & -> & _).
  apply negb_true_iff in E. apply Z.ltb_ge in E. exact E.
Qed.

Lemma clearReplies_nil m : clearReplies [] m = m.
Proof. unfold clearReplies. destruct (Message.reply_to_id m); reflexivity. Qed.

Lemma cleanup_nothing_old nowMs d :
  (forall m, In m (messages d) ->
     (Message.timestamp m <? nowMs - sixMonths) = false) ->
  messages (cleanup nowMs d) = messages d.
Proof.
  intros K. unfold cleanup. cbn [messages].
  generalize (nowMs - sixMonths) K. clear K. intros cutoff K.
  assert (E1 : filter (fun m => Message.timestamp m <? cutoff) (messages d) = []).
  { induction (messages d) as [|m l IH]; simpl; [reflexivity|].
    rewrite (K m (or_introl eq_refl)). apply IH. intros x Hx. apply K. right. exact Hx. }
  assert (E2 : filter (fun m => negb (Message.timestamp m <? cutoff)) (messages d)
               = messages d).
  { apply forallb_filter_id. apply forallb_forall. intros m Hm. rewrite (K m Hm).
    reflexivity. }
  rewrite E1, E2. simpl. rewrite <- (map_id (messages d)) at 2.
  apply map_ext. apply clearReplies_nil.
Qed.

Lemma cleanup_again nowMs d :
  messages (cleanup nowMs (cleanup nowMs d)) = messages (cleanup nowMs d).
Proof.
  apply cleanup_nothing_old. intros m Hm. apply Z.ltb_ge.
  apply (cleanup_recent nowMs d m Hm).
Qed.

(** X8: retention. [cleanup] keeps no message older than 180 days
    (15552000000 ms) before the present, and in a consistent store keeps
    every other message; a second cleanup at the same time deletes nothing;
    chats and contacts stay, so a chat whose last message was deleted still
    names it, and [getChats] then lists the chat without last-message
    content and timestamp. *)
Theorem cleanup_retention nowMs d :
  let d' := cleanup nowMs d in
  sixMonths = 15552000000 /\
  (forall m, In m (messages d') -> nowMs - 15552000000 <= Message.timestamp m) /\
  (noReplies d ->
     messages d' =
       filter (fun m => nowMs - 15552000000 <=? Message.timestamp m) (messages d)) /\
  messages (cleanup nowMs d') = messages d' /\
  chats d' = chats d /\ contacts d' = contacts d /\
  (forall c id,
     Chat.last_message_id c = Some id ->
     (forall m, In m (messages d) -> Message.id m = id ->
        Message.timestamp m < nowMs - 15552000000) ->
     ChatListRow.last_message_content (joinLastMessage d' c) = None /\
     ChatListRow.last_message_timestamp (joinLastMessage d' c) = None).
Proof.
  intros d'. subst d'.
  split; [reflexivity|]. change 15552000000 with sixMonths.
  split; [apply cleanup_recent|]. split; [apply cleanup_plain|].
  split; [apply cleanup_again|]. split; [reflexivity|]. split; [reflexivity|].
  intros c id E Old. apply joinLastMessage_missing. right. exists id.
  split; [exact E|]. unfold findMessage.
  destruct (find _ (messages (cleanup nowMs d))) as [m|] eqn:F; [|reflexivity].
  exfalso. apply find_some in F. destruct F as [Hm Ei].
  apply String.eqb_eq in Ei.
  pose proof (cleanup_recent nowMs d m Hm) as R.
  unfold cleanup in Hm. simpl in Hm. apply in_map_iff in Hm.
  destruct Hm as [m0 [Em Hm0]]. apply filter_In in Hm0.
  destruct (clearReplies_fields
              (map Message.id
                 (filter (fun m => Message.timestamp m <? nowMs - sixMonths) (messages d)))
              m0) as (Fi & _ & Ft & _).
  rewrite Em in Fi, Ft.
  specialize (Old m0 (proj1 Hm0) ltac:(congruence)).
  change 15552000000 with sixMonths in Old. lia.
Qed.

Lemma cleanup_retention_witness :
  map Message.id (messages (cleanup 1700000000000 Sample.olderLater)) = ["3EB0A1"]%string /\
  noReplies Sample.olderLater /\
  map ChatListRow.last_message_content (getChats 10 Sample.olderLater) = [Some "hi"; None] /\
  map ChatListRow.last_message_content
    (getChats 10 (cleanup 1700000000000 Sample.olderLater)) = [None; None].
Proof.
  destruct (cleanup_retention 1700000000000 Sample.olderLater) as (_ & _ & P & _).
  assert (N : noReplies Sample.olderLater) by (repeat constructor).
  split; [rewrite (P N); reflexivity|]. split; [exact N|]. split; reflexivity.
Defined.

(** The head of a list in descending order of a key carries the largest
    key. *)
Lemma descending_head {A : Type} (key : A -> Z) x rest y :
  descending key (x :: rest) -> In y (x :: rest) -> key y <= key x.
Proof.
  intros S [<- | H]; [lia|].
  inversion S as [|? ? _ F]; subst. rewrite Forall_forall in F. apply F. exact H.
Qed.

Lemma limitOffset_head {A : Type} limit (x : A) rest :
  limit <> 0 -> exists rest', limitOffset limit 0 (x :: rest) = x :: rest'.
Proof.
  intros N. unfold limitOffset. simpl.
  destruct (limit <? 0) eqn:E; [eauto|].
  apply Z.ltb_ge in E. destruct (Z.to_nat limit) as [|k] eqn:K; [lia|].
  simpl. eauto.
Qed.

(** X9: activity order. After a successful [saveMessage] at a time later
    than the last write to every chat, the chat of the message is the first
    row of [getChats] for every limit other than 0, and the row carries the
    message as the last message: identifier, content and timestamp. *)
Theorem saveMessage_tops_chat_list
    now id chatJid fromMe content timestamp messageType status d d' limit :
  saveMessage now id chatJid fromMe content timestamp messageType status d = Ok d' ->
  plainChats d ->
  (forall c, In c (chats d) -> Chat.updated_at c < now) ->
  limit <> 0 ->
  exists r rest,
    getChats limit d' = r :: rest /\
    ChatListRow.jid r = chatJid /\
    ChatListRow.updated_at r = now /\
    ChatListRow.last_message_id r = Some id /\
    ChatListRow.last_message_content r = content /\
    ChatListRow.last_message_timestamp r = Some timestamp.
Proof.
  intros H P Before L.
  apply saveMessage_Ok in H. destruct H as (Hx & Hm & Hch & _).
  assert (Fm : findMessage id d' =
               Some {| Message.id := id; Message.chat_jid := chatJid;
                       Message.from_me := fromMe; Message.message_type := messageType;
                       Message.content := content; Message.timestamp := timestamp;
                       Message.status := status; Message.reply_to_id := None;
                       Message.created_at := now |}).
  { unfold findMessage. rewrite Hm. apply find_last_only.
    - intros y Hy. destruct (Message.id y =? id)%string eqn:E; [|reflexivity].
      exfalso. apply (others_not_In id (messages d)). apply in_map_iff.
      exists y. split; [apply String.eqb_eq; exact E | exact Hy].
    - apply String.eqb_refl. }
  set (rows := map (joinLastMessage d')
                 (filter (fun c => negb (Chat.is_archived c)) (chats d'))).
  assert (Rows : forall r, In r rows ->
            exists c, In c (chats d) /\
                      r = joinLastMessage d' (touchChat now id timestamp chatJid c)).
  { intros r Hr. subst rows. apply in_map_iff in Hr. destruct Hr as [c' [<- Hc']].
    apply filter_In in Hc'. destruct Hc' as [Hc' _]. rewrite Hch in Hc'.
    apply in_map_iff in Hc'. destruct Hc' as [c [<- Hc]]. eauto. }
  assert (Own : exists r0, In r0 rows /\ ChatListRow.updated_at r0 = now).
  { apply chatExists_In in Hx. destruct Hx as [c [Hc Ej]].
    exists (joinLastMessage d' (touchChat now id timestamp chatJid c)). split.
    - subst rows. apply in_map. apply filter_In. split.
      + rewrite Hch. apply in_map. exact Hc.
      + unfold plainChats in P. rewrite Forall_forall in P.
        destruct (P c Hc) as [Pa _].
        unfold touchChat. destruct (Chat.jid c =? chatJid)%string; simpl; rewrite Pa;
          reflexivity.
    - unfold touchChat. apply String.eqb_eq in Ej. rewrite Ej. reflexivity. }
  pose proof (orderByDesc_descending ChatListRow.updated_at rows) as S.
  pose proof (fun x => orderByDesc_In ChatListRow.updated_at x rows) as I.
  unfold getChats. fold rows.
  destruct (orderByDesc ChatListRow.updated_at rows) as [|r rest].
  - exfalso. destruct Own as [r0 [Hr0 _]]. apply (proj2 (I r0)) in Hr0. exact Hr0.
  - destruct (limitOffset_head limit r rest L) as [rest' E].
    exists r, rest'. split; [exact E|].
    destruct Own as [r0 [Hr0 K0]].
    assert (Top : now <= ChatListRow.updated_at r).
    { rewrite <- K0. apply (descending_head _ r rest r0 S). apply I. exact Hr0. }
    destruct (Rows r (proj1 (I r) (or_introl eq_refl))) as [c [Hc ->]].
    specialize (Before c Hc). revert Top. unfold touchChat.
    destruct (Chat.jid c =? chatJid)%string eqn:Ej.
    + intros _. apply String.eqb_eq in Ej. unfold joinLastMessage. simpl.
      rewrite Fm. simpl. auto.
    + unfold joinLastMessage. simpl. intros Top. lia.
Qed.

Lemma saveMessage_tops_chat_list_witness :
  exists r rest,
    getChats 10 Sample.bobThenAlice = r :: rest /\
    ChatListRow.jid r = Sample.alice /\
    ChatListRow.updated_at r = 20 /\
    ChatListRow.last_message_id r = Some "A1"%string /\
    ChatListRow.last_message_content r = Some "old"%string /\
    ChatListRow.last_message_timestamp r = Some 1000.
Proof.
  apply (saveMessage_tops_chat_list 20 "A1" Sample.alice false (Some "old") 1000
           "text" "received"
           (Sample.orKeep
              (saveMessage 10 "B1" Sample.bob false (Some "new") 2000 "text"
                 "received" Sample.twoChats) Sample.twoChats)
           Sample.bobThenAlice 10).
  - reflexivity.
  - repeat constructor.
  - simpl. intros c Hc.
    repeat (destruct Hc as [<- | Hc]; [simpl; lia|]). destruct Hc.
  - discriminate.
Defined.

End Retention.

Section SettingsFacts.

Import Settings.

Variable stringify : Js.value -> option string.
Variable parse : string -> parsed.

(** X10: settings round trip. A value whose text [JSON.parse] reads back is
    what [getSetting] returns after [setSetting], whatever the key held and
    whatever default is passed; the other keys are as they were, and a key
    that was never set gives the default. *)
Theorem setSetting_getSetting key value text (s : Settings.t) :
  stringify value = Some text -> parse text = Parsed value ->
  (forall defaultValue,
     getSetting parse key defaultValue (setSetting stringify key value s)
       = Value value) /\
  (forall other defaultValue, other <> key ->
     getSetting parse other defaultValue (setSetting stringify key value s)
       = getSetting parse other defaultValue s) /\
  (forall defaultValue, getSetting parse key defaultValue [] = Value defaultValue) /\
  length (filter (fun r => (fst r =? key)%string) (setSetting stringify key value s))
    = 1%nat.
Proof.
  intros Es Ep. unfold getSetting, setSetting.
  split; [|split; [|split]].
  - intros defaultValue.
    rewrite (find_last_only (fun r => (fst r =? key)%string) _ (key, stringify value)).
    + rewrite Es, Ep. reflexivity.
    + intros y Hy. apply filter_In in Hy. apply negb_true_iff. tauto.
    + apply String.eqb_refl.
  - intros other defaultValue N.
    rewrite (find_skip_last (fun r => (fst r =? other)%string)).
    + rewrite (find_filter_other (fun r : string * option string => fst r) other key)
        by exact N. reflexivity.
    + simpl. apply String.eqb_neq. congruence.
  - reflexivity.
  - rewrite filter_app, (filter_same_none (fun r : string * option string => fst r)).
    simpl. rewrite String.eqb_refl. reflexivity.
Qed.

End SettingsFacts.

Lemma setSetting_getSetting_witness :
  Settings.getSetting Sample.jsonParse "last_sync_timestamp" (Js.Num 0)
    (Settings.setSetting Sample.jsonStringify "last_sync_timestamp"
       (Js.Num 1700000300000)
       (Settings.setSetting Sample.jsonStringify "last_sync_timestamp" (Js.Num 5) []))
    = Settings.Value (Js.Num 1700000300000) /\
  Settings.getSetting Sample.jsonParse "first_login_complete" Js.Null
    (Settings.setSetting Sample.jsonStringify "last_sync_timestamp"
       (Js.Num 1700000300000) [])
    = Settings.Value Js.Null.
Proof.
  destruct (setSetting_getSetting Sample.jsonStringify Sample.jsonParse
              "last_sync_timestamp" (Js.Num 1700000300000) "1700000300000"
              (Settings.setSetting Sample.jsonStringify "last_sync_timestamp"
                 (Js.Num 5) [])
              eq_refl eq_refl) as (A & _).
  destruct (setSetting_getSetting Sample.jsonStringify Sample.jsonParse
              "last_sync_timestamp" (Js.Num 1700000300000) "1700000300000" []
              eq_refl eq_refl) as (_ & B & _).
  split; [apply A|]. rewrite B by discriminate. reflexivity.
Defined.

(** ** Snapshot producers and the close of the upstream *)
Section Snapshots.

Import Backend.

(** X11: refresh, then request. [refreshChatList] caches the list that it
    sends, at most 50 entries built from the store; a request for the
    initial chats that follows is answered with that same list, also when it
    is empty, and does not set the client-waiting flag. *)
Theorem refreshChatList_then_request st :
  let chats := map chatDataOfRow (Database.getChats 50 (db st)) in
  let st1 := refreshChatList st in
  let st2 := handleGetInitialChats st1 in
  initialChatsPayload st1 = Some chats /\
  (length chats <= 50)%nat /\
  frontend st2 =
    (frontend st ++
     [ {| sentType := "chats_updated"; sentData := Chats chats;
          delivered := clientOpen st |};
       {| sentType := "initial_chats"; sentData := Chats chats;
          delivered := clientOpen st |} ])%list /\
  clientIsWaitingForChats st2 = clientIsWaitingForChats st /\
  db st2 = db st.
Proof.
  intros chats st1 st2. subst st2 st1 chats.
  split; [reflexivity|]. split.
  - rewrite length_map.
    pose proof (limitOffset_length 50 0
                  (Database.orderByDesc ChatListRow.updated_at
                     (map (Database.joinLastMessage (db st))
                        (filter (fun c => negb (Chat.is_archived c))
                           (Database.chats (db st))))) ltac:(lia)) as L.
    unfold Database.getChats. lia.
  - unfold handleGetInitialChats, refreshChatList. simpl.
    rewrite <- app_assoc. auto.
Qed.

Variable syncOnOpen : t -> t.

Lemma close_frame update st :
  connection update = Some "close"%string ->
  let st' := handleConnectionUpdate syncOnOpen update st in
  initialChatsPayload st' = None /\
  baileysConnectionStatus st' = Some "close"%string /\
  db st' = db st /\
  clientIsWaitingForChats st' = clientIsWaitingForChats st /\
  countSent "connection_status" st' = S (countSent "connection_status" st) /\
  (statusCode update <> loggedOut -> authInfo st' = authInfo st).
Proof.
  intros C st'. subst st'. unfold handleConnectionUpdate. rewrite C. simpl.
  destruct (statusCode update =? loggedOut) eqn:S.
  - destruct (qr update) as [[url|]|]; simpl; repeat split;
      try (unfold countSent; simpl; rewrite ?filter_app, ?length_app; simpl; lia);
      intros N; apply Z.eqb_eq in S; contradiction.
  - destruct (qr update) as [[url|]|]; simpl;
      match goal with
      | |- context [if ?b then _ else _] => destruct b
      end; simpl; repeat split;
      unfold countSent; simpl; rewrite ?filter_app, ?length_app; simpl; lia.
Qed.

(** X12: the close of the upstream. Whatever its cause, a close clears the
    cached snapshot, leaves the backend disconnected and the store as it
    was, and emits one [connection_status] event.  A cause that is not a
    [Boom] error counts as status 500 and never as a logout, so the
    credentials stay.  The request for the initial chats that follows is
    answered from the store, or sets the client-waiting flag when the store
    lists no chat: the snapshot cached before the close is never served. *)
Theorem close_clears_snapshot update st :
  connection update = Some "close"%string ->
  let st' := handleConnectionUpdate syncOnOpen update st in
  initialChatsPayload st' = None /\
  connected st' = false /\
  db st' = db st /\
  countSent "connection_status" st' = S (countSent "connection_status" st) /\
  ((forall e, lastDisconnect update = Some e -> boomStatusCode e = None) ->
     statusCode update = 500 /\ authInfo st' = authInfo st) /\
  (Database.getChats 50 (db st) <> [] ->
     handleGetInitialChats st' =
       sendToFrontend "initial_chats"
         (Chats (map chatDataOfRow (Database.getChats 50 (db st)))) st') /\
  (Database.getChats 50 (db st) = [] ->
     handleGetInitialChats st' = set_clientIsWaitingForChats true st').
Proof.
  intros C st'.
  destruct (close_frame update st C) as (P & B & D & _ & K & A). fold st' in P, B, D, K, A.
  split; [exact P|]. split.
  - unfold connected, isOpen. rewrite B. simpl. apply andb_false_r.
  - split; [exact D|]. split; [exact K|]. split; [|split].
    + intros NB.
      assert (S5 : statusCode update = 500).
      { unfold statusCode. destruct (lastDisconnect update) as [e|] eqn:E; [|reflexivity].
        rewrite (NB e eq_refl). reflexivity. }
      split; [exact S5|]. apply A. rewrite S5. unfold loggedOut. lia.
    + intros N. unfold handleGetInitialChats. rewrite P, D.
      destruct (Database.getChats 50 (db st)); [congruence | reflexivity].
    + intros E. unfold handleGetInitialChats. rewrite P, D, E. reflexivity.
Qed.

End Snapshots.

Lemma close_clears_snapshot_witness :
  let closed :=
    Backend.handleConnectionUpdate Sample.noSync
      {| Backend.connection := Some "close";
         Backend.lastDisconnect :=
           Some {| Backend.boomStatusCode := None;
                   Backend.errorMessage := Some "socket hang up" |};
         Backend.qr := None |}
      (Backend.set_authInfo true Sample.cached) in
  Backend.initialChatsPayload closed = None /\
  Backend.authInfo closed = true /\
  Backend.clientIsWaitingForChats (Backend.handleGetInitialChats closed) = true.
Proof.
  intros closed.
  destruct (close_clears_snapshot Sample.noSync
              {| Backend.connection := Some "close";
                 Backend.lastDisconnect :=
                   Some {| Backend.boomStatusCode := None;
                           Backend.errorMessage := Some "socket hang up" |};
                 Backend.qr := None |}
              (Backend.set_authInfo true Sample.cached) eq_refl)
    as (P & _ & _ & _ & A & _ & W).
  fold closed in P, A, W.
  split; [exact P|]. split.
  - destruct A as [_ A]; [|exact A]. intros e E. injection E as <-. reflexivity.
  - rewrite W by reflexivity. reflexivity.
Defined.

(** ** The history set *)
Section HistorySet.

Import Backend.

Lemma chatExists_saveChat j now jid name lastMessageId timestamp d :
  j = jid \/ Database.chatExists j d = true ->
  Database.chatExists j
    (Database.saveChat now jid name lastMessageId timestamp d) = true.
Proof.
  intros H. unfold Database.chatExists, Database.saveChat, Database.deleteChat. simpl.
  set (gone := map Message.id _).
  destruct (deleteMessages_frame gone d) as [Ec _]. rewrite Ec, existsb_app. simpl.
  destruct (jid =? j)%string eqn:E; [apply orb_true_r|].
  apply String.eqb_neq in E. destruct H as [-> | H]; [congruence|].
  apply orb_true_iff. left. unfold Database.chatExists in H.
  apply existsb_exists in H. destruct H as [c [Hc Ej]].
  apply existsb_exists. exists c. split; [|exact Ej].
  apply filter_In. split; [exact Hc|].
  apply String.eqb_eq in Ej. rewrite Ej. apply negb_true_iff.
  apply String.eqb_neq. congruence.
Qed.

Lemma chatExists_saveMessage
    j now id chatJid fromMe content timestamp messageType status d d' :
  Database.saveMessage now id chatJid fromMe content timestamp messageType status d
    = Database.Ok d' ->
  Database.chatExists j d' = Database.chatExists j d.
Proof.
  intros H. apply saveMessage_Ok in H. destruct H as (_ & _ & Hch & _).
  apply chatExists_jids. rewrite Hch. apply touchChat_jids.
Qed.

Lemma saveHistoryMessages_keeps nowSec chatId msgs : forall d,
  (consistent d -> consistent (saveHistoryMessages nowSec chatId msgs d)) /\
  (forall j, Database.chatExists j (saveHistoryMessages nowSec chatId msgs d)
             = Database.chatExists j d).
Proof.
  induction msgs as [|msg rest IH]; intros d; simpl; [auto|].
  destruct (Js.truthy (Display.getDisplayMessage msg)
            && negb (WAMessage.key_id msg =? "")%string); [|apply IH].
  destruct (Database.saveMessage _ _ _ _ _ _ _ _ _) as [d1|] eqn:E; [|apply IH].
  destruct (IH d1) as [C X]. split.
  - intros Hd. apply C. eapply consistent_saveMessage; eauto.
  - intros j. rewrite X. eapply chatExists_saveMessage; eauto.
Qed.

Lemma historyChat_store chat st :
  let d' := db (snd (historyChat chat st)) in
  (consistent (db st) -> consistent d') /\
  Database.chatExists (WAChat.id chat) d' = true /\
  (forall j, Database.chatExists j (db st) = true -> Database.chatExists j d' = true).
Proof.
  unfold historyChat. cbn [snd db set_db ChatData.jid ChatData.name].
  set (d1 := Database.saveChat _ _ _ _ _ (db st)).
  match goal with
  | |- context [if ?b then Database.saveContact ?a ?j ?n ?p d1 else d1] =>
      set (d2 := if b then Database.saveContact a j n p d1 else d1)
  end.
  assert (C1 : consistent (db st) -> consistent d1)
    by (intros H; apply consistent_saveChat; exact H).
  assert (X1 : forall j, j = WAChat.id chat \/ Database.chatExists j (db st) = true ->
                 Database.chatExists j d1 = true)
    by (intros j H; apply chatExists_saveChat; exact H).
  assert (C2 : consistent (db st) -> consistent d2).
  { intros H. subst d2. destruct (_ && _); [apply consistent_saveContact|]; auto. }
  assert (X2 : forall j, Database.chatExists j d2 = Database.chatExists j d1).
  { intros j. subst d2. destruct (_ && _); reflexivity. }
  destruct (WAChat.messages chat) as [msgs|].
  - destruct (saveHistoryMessages_keeps (seconds st) (WAChat.id chat) (firstn 10 msgs) d2)
      as [C3 X3].
    split; [auto|]. split.
    + rewrite X3, X2. apply X1. left. reflexivity.
    + intros j H. rewrite X3, X2. apply X1. right. exact H.
  - split; [auto|]. split.
    + rewrite X2. apply X1. left. reflexivity.
    + intros j H. rewrite X2. apply X1. right. exact H.
Qed.

Lemma historyChat_entry chat st :
  ChatData.jid (fst (historyChat chat st)) = WAChat.id chat /\
  ChatData.name (fst (historyChat chat st))
    = Js.or_text (WAChat.name chat) (Some (WAChat.id chat)) /\
  ChatData.lastMessage (fst (historyChat chat st)) = entryPreview chat.
Proof.
  unfold historyChat, entryPreview.
  destruct (WAChat.messages chat) as [[|m ms]|]; repeat split.
Qed.

Lemma historyChats_result chats : forall st,
  let entries := fst (historyChats chats st) in
  let d' := db (snd (historyChats chats st)) in
  map ChatData.jid entries = map WAChat.id chats /\
  map ChatData.name entries
    = map (fun c => Js.or_text (WAChat.name c) (Some (WAChat.id c))) chats /\
  map ChatData.lastMessage entries = map entryPreview chats /\
  (consistent (db st) -> consistent d') /\
  (forall j, Database.chatExists j (db st) = true \/ In j (map WAChat.id chats) ->
     Database.chatExists j d' = true).
Proof.
  induction chats as [|chat rest IH]; intros st.
  - simpl. split; [reflexivity|]. split; [reflexivity|]. split; [reflexivity|].
    split; [auto|]. intros j [Hj | []]. exact Hj.
  - rewrite historyChats_cons.
    destruct (historyChat_entry chat st) as (Ej & En & El).
    destruct (historyChat_store chat st) as (C & X & K).
    destruct (historyChat chat st) as [chatData st1]. simpl in Ej, En, El, C, X, K.
    specialize (IH st1).
    destruct (historyChats rest st1) as [more st2]. simpl in IH |- *.
    destruct IH as (Ij & In_ & Il & Ic & Ix).
    rewrite Ej, En, El, Ij, In_, Il.
    split; [reflexivity|]. split; [reflexivity|]. split; [reflexivity|].
    split; [auto|].
    intros j [Hj | [<- | Hj]]; apply Ix; auto.
Qed.

Lemma getChats_nonempty limit d :
  plainChats d -> Database.chats d <> [] -> limit <> 0 ->
  Database.getChats limit d <> [].
Proof.
  intros P N L. unfold Database.getChats.
  assert (F : filter (fun c => negb (Chat.is_archived c)) (Database.chats d)
              = Database.chats d).
  { apply forallb_filter_id. apply forallb_forall. intros c Hc.
    unfold plainChats in P. rewrite Forall_forall in P.
    destruct (P c Hc) as [-> _]. reflexivity. }
  rewrite F.
  destruct (Database.chats d) as [|c l] eqn:E; [congruence|].
  pose proof (orderByDesc_In ChatListRow.updated_at (Database.joinLastMessage d c)
                (map (Database.joinLastMessage d) (c :: l))) as I.
  destruct (Database.orderByDesc _ _) as [|r rest].
  - exfalso. apply (proj2 I). left. reflexivity.
  - destruct (limitOffset_head limit r rest L) as [rest' ->]. discriminate.
Qed.

(** X13: the history set. [handleHistorySet] caches a snapshot with one
    entry per chat of the set, in the order of the set: the entry has the
    identifier of the chat, its name or else its identifier, and as preview
    that of its first message, or the text for a chat without messages.
    After it every chat of the set has a row in the store, a store that was
    consistent still is, and then, the set not being empty, the next login
    is not taken for a first login. *)
Theorem handleHistorySet_snapshot chats st :
  let st' := handleHistorySet chats st in
  (exists entries,
     initialChatsPayload st' = Some entries /\
     map ChatData.jid entries = map WAChat.id chats /\
     map ChatData.name entries
       = map (fun c => Js.or_text (WAChat.name c) (Some (WAChat.id c))) chats /\
     map ChatData.lastMessage entries = map entryPreview chats) /\
  (forall chat, In chat chats ->
     Database.chatExists (WAChat.id chat) (db st') = true) /\
  (consistent (db st) -> consistent (db st')) /\
  (consistent (db st) -> chats <> [] -> isFirstTimeLogin st' = false).
Proof.
  intros st'. subst st'. rewrite handleHistorySet_eq.
  destruct (historyChats_result chats st) as (Ej & En & El & C & X).
  set (entries := fst (historyChats chats st)) in *.
  set (st1 := snd (historyChats chats st)) in *.
  assert (D : db (publishInitialChats entries st1) = db st1).
  { unfold publishInitialChats. destruct (clientIsWaitingForChats _); reflexivity. }
  assert (P : initialChatsPayload (publishInitialChats entries st1) = Some entries).
  { unfold publishInitialChats. destruct (clientIsWaitingForChats _); reflexivity. }
  rewrite D. split; [|split; [|split]].
  - exists entries. auto.
  - intros chat Hc. apply X. right. apply in_map. exact Hc.
  - exact C.
  - intros Hd N. unfold isFirstTimeLogin. rewrite D.
    destruct (Database.getChats 1 (db st1)) eqn:G; [|reflexivity].
    exfalso. revert G. apply getChats_nonempty.
    + apply (cons_plain _ (C Hd)).
    + destruct chats as [|chat rest]; [congruence|].
      assert (E : Database.chatExists (WAChat.id chat) (db st1) = true).
      { apply X. right. left. reflexivity. }
      unfold Database.chatExists in E. intros Z0. rewrite Z0 in E. discriminate.
    + discriminate.
Qed.

End HistorySet.

Lemma handleHistorySet_snapshot_witness :
  let st' := Backend.handleHistorySet Sample.history Sample.fresh in
  Backend.isFirstTimeLogin Sample.fresh = true /\
  Backend.isFirstTimeLogin st' = false /\
  consistent (Backend.db st').
Proof.
  intros st'.
  destruct (handleHistorySet_snapshot Sample.history Sample.fresh) as (_ & _ & C & F).
  split; [reflexivity|]. split.
  - apply F; [apply consistent_empty | discriminate].
  - apply C. apply consistent_empty.
Defined.

(** ** What the sync engine writes *)
Section SyncWrites.

Import Backend.

Variable upstream : nat -> string -> Z -> fetchResult.


Lemma others_absent id l :
  find (fun m => (Message.id m =? id)%string) l = None ->
  others id l = map (Database.clearReply id) l.
Proof.
  intros F. unfold others. f_equal. apply forallb_filter_id. apply forallb_forall.
  intros m Hm. rewrite (find_none _ _ F m Hm). reflexivity.
Qed.

(** A successful [saveMessage] keeps every stored identifier stored and
    stores its own; for a new identifier the table grows by one row. *)
Lemma saveMessage_stored
    now id chatJid fromMe content timestamp messageType status d d' :
  Database.saveMessage now id chatJid fromMe content timestamp messageType status d
    = Database.Ok d' ->
  stored id d' /\
  (forall j, stored j d -> stored j d') /\
  (Database.findMessage id d = None ->
     length (Database.messages d') = S (length (Database.messages d))).
Proof.
  intros H. apply saveMessage_Ok in H. destruct H as (_ & Hm & _ & _).
  split; [|split].
  - eexists. split; [rewrite Hm; apply in_or_app; right; left; reflexivity|].
    reflexivity.
  - intros j [m [Hin E]]. destruct (Message.id m =? id)%string eqn:Ei.
    + apply String.eqb_eq in Ei. eexists.
      split; [rewrite Hm; apply in_or_app; right; left; reflexivity|].
      simpl. congruence.
    + exists (Database.clearReply id m). split; [|rewrite id_clearReply; exact E].
      rewrite Hm. apply in_or_app. left. unfold others. apply in_map.
      apply filter_In. split; [exact Hin|]. rewrite Ei. reflexivity.
  - intros F. rewrite Hm, (others_absent id _ F), length_app, length_map. simpl. lia.
Qed.

Lemma saveMessage_jids
    now id chatJid fromMe content timestamp messageType status d d' :
  Database.saveMessage now id chatJid fromMe content timestamp messageType status d
    = Database.Ok d' ->
  map Chat.jid (Database.chats d') = map Chat.jid (Database.chats d) /\
  Database.contacts d' = Database.contacts d.
Proof.
  intros H. apply saveMessage_Ok in H. destruct H as (_ & _ & Hch & Hk).
  split; [rewrite Hch; apply touchChat_jids | exact Hk].
Qed.

Lemma grows_refl st st' :
  db st' = db st -> grows st st' 0.
Proof. intros E. unfold grows. rewrite E. repeat split; auto; lia. Qed.

Lemma grows_trans st1 st2 st3 a b :
  grows st1 st2 a -> grows st2 st3 b -> grows st1 st3 (a + b).
Proof.
  intros (A0 & A1 & A2 & A3 & A4) (B0 & B1 & B2 & B3 & B4).
  unfold grows. split; [lia|]. split; [lia|]. split; [auto|].
  split; congruence.
Qed.

Lemma saveBatch_grows jid msgs : forall st n,
  grows st (fst (saveBatch jid msgs st n)) (snd (saveBatch jid msgs st n) - n).
Proof.
  induction msgs as [|msg rest IH]; intros st n; simpl.
  - replace (n - n) with 0 by lia. apply grows_refl. reflexivity.
  - destruct (Database.getMessage (WAMessage.key_id msg) (db st)) eqn:G; [apply IH|].
    destruct (Js.truthy (Display.getDisplayMessage msg)
              || negb (Display.getMessageType msg =? "text")%string); [|apply IH].
    destruct (Database.saveMessage _ _ _ _ _ _ _ _ _) as [d|] eqn:E; [|apply IH].
    destruct (saveMessage_stored _ _ _ _ _ _ _ _ _ _ E) as (_ & M & L).
    destruct (saveMessage_jids _ _ _ _ _ _ _ _ _ _ E) as (J & K).
    specialize (IH (set_db d st) (n + 1)).
    replace (snd (saveBatch jid rest (set_db d st) (n + 1)) - n)
      with (1 + (snd (saveBatch jid rest (set_db d st) (n + 1)) - (n + 1))) by lia.
    eapply grows_trans; [|exact IH].
    unfold grows. simpl. split; [lia|]. split; [rewrite (L G); lia|]. auto.
Qed.



End SyncWrites.



(** ** What is saved, and as what *)
Section Saved.

Import Backend.

(** X15: the messages that the first-sync download passes over. A fetched
    message fails the test of the download exactly when it has no payload,
    or when it is an extended text (and no plain text) whose text is empty
    or missing; every message of any other shape passes it. *)
Theorem worthSaving_rule msg :
  worthSaving msg = false <->
  Js.truthy (WAMessage.message msg) = false \/
  (Js.truthy (Js.get (WAMessage.message msg) "conversation") = false /\
   Js.truthy (Js.get (WAMessage.message msg) "extendedTextMessage") = true /\
   Js.truthy (Js.get (Js.get (WAMessage.message msg) "extendedTextMessage") "text")
     = false).
Proof.
  unfold worthSaving, Display.getDisplayMessage, Display.getMessageType.
  remember (Display.firstType (WAMessage.message msg) Display.messageTypes) as ty eqn:Ety.
  destruct (Js.truthy (WAMessage.message msg)) eqn:T; cbn [negb].
  - destruct (Js.truthy (Js.get (WAMessage.message msg) "conversation")) eqn:C.
    + rewrite C. simpl. split; [discriminate|].
      intros [H | (H & _)]; discriminate.
    + destruct (Js.truthy (Js.get (WAMessage.message msg) "extendedTextMessage")) eqn:E.
      * assert (Et : ty = "text"%string).
        { subst ty. unfold Display.messageTypes. simpl. rewrite C, E. reflexivity. }
        rewrite Et. simpl. rewrite orb_false_r. split; [auto|].
        intros [H | (_ & _ & H)]; [discriminate | exact H].
      * pose proof (firstType_non_text _ C E) as N. rewrite <- Ety in N.
        apply nonTextTypes_not_text in N. apply String.eqb_neq in N. rewrite N.
        simpl. rewrite orb_true_r. split; [discriminate|].
        intros [H | (_ & H & _)]; discriminate.
  - simpl. split; auto.
Qed.

Lemma worthSaving_rule_witness :
  worthSaving Sample.voiceNote = true /\
  worthSaving
    {| WAMessage.key_id := "3EB0D0"; WAMessage.key_fromMe := false;
       WAMessage.messageTimestamp := 1700000400; WAMessage.pushName := None;
       WAMessage.message := Js.Obj [ ("extendedTextMessage", Js.Obj []) ] |} = false.
Proof.
  split; [reflexivity|].
  apply worthSaving_rule. right. repeat split.
Defined.

Lemma saveBatch_chatExists jid msgs st n j :
  Database.chatExists j (db (fst (saveBatch jid msgs st n))) = Database.chatExists j (db st).
Proof.
  destruct (saveBatch_grows jid msgs st n) as (_ & _ & _ & J & _).
  apply chatExists_jids. exact J.
Qed.





Variable upstream : nat -> string -> Z -> fetchResult.


End Saved.



(** The voice note that the first sync stores as audio is stored by the
    incremental sync as text. *)
Example voice_note_types :
  map Message.message_type
    (Database.messages
       (Backend.db (fst (Backend.saveBatch Sample.alice [Sample.voiceNote]
                           Sample.opened 0)))) = ["audio"%string] /\
  map Message.message_type
    (Database.messages
       (Backend.db (fst (Backend.syncChatMessages
                           (fun _ _ _ => Backend.Messages [Sample.voiceNote])
                           Sample.alice 0 Sample.opened)))) = ["text"%string].
Proof. split; reflexivity. Qed.

(** ** Contact synchronisation *)
Section ContactSync.

Import Backend.

Lemma getContact_saveContact_same now jid name phoneNumber d :
  Database.getContact jid (Database.saveContact now jid name phoneNumber d) =
    Some {| Contact.jid := jid; Contact.name := name;
            Contact.phone_number := phoneNumber; Contact.avatar_path := None;
            Contact.is_blocked := false; Contact.created_at := now;
            Contact.updated_at := now |}.
Proof.
  unfold Database.getContact, Database.saveContact. simpl.
  apply find_last_only.
  - intros y Hy. apply filter_In in Hy. apply negb_true_iff. tauto.
  - apply String.eqb_refl.
Qed.

Lemma getContact_saveContact_other now jid name phoneNumber d j :
  j <> jid ->
  Database.getContact j (Database.saveContact now jid name phoneNumber d) =
    Database.getContact j d.
Proof.
  intros N. unfold Database.getContact, Database.saveContact. simpl.
  rewrite find_skip_last.
  - apply (find_filter_other Contact.jid). exact N.
  - simpl. apply String.eqb_neq. congruence.
Qed.

(** X18: the contact sync of one chat settles. [syncContactData] never
    reports an avatar, writes neither chats nor messages and sends nothing to
    the client; when it reports a name update, the identifier is a group's,
    the upstream answered with a non-empty subject, and the contact now holds
    that subject as its name and no phone number; when it reports none, the
    state is as it was; and a second run on the resulting state with the
    same answer of the upstream changes nothing and reports no update. *)
Theorem syncContactData_settles answer jid st :
  let r := syncContactData answer jid st in
  snd (snd r) = false /\
  Database.chats (db (fst r)) = Database.chats (db st) /\
  Database.messages (db (fst r)) = Database.messages (db st) /\
  frontend (fst r) = frontend st /\
  (fst (snd r) = true ->
     exists subject k,
       answer = GroupMetadata (Some subject) /\ subject <> ""%string /\
       endsWith jid "@g.us" = true /\
       Database.getContact jid (db (fst r)) = Some k /\
       Contact.name k = Some subject /\ Contact.phone_number k = None) /\
  (fst (snd r) = false -> fst r = st) /\
  syncContactData answer jid (fst r) = (fst r, (false, false)).
Proof.
  intros r. subst r. unfold syncContactData.
  destruct (connected st) eqn:Cn; cbn [negb fst snd];
    [|rewrite Cn; cbn [negb]; repeat split; auto; discriminate].
  destruct (endsWith jid "@g.us") eqn:G;
    [|cbn [fst snd]; rewrite ?Cn, ?G; cbn [negb]; repeat split; auto; discriminate].
  destruct answer as [[subject|]|];
    [|cbn [fst snd]; rewrite ?Cn, ?G; cbn [negb]; repeat split; auto; discriminate
     |cbn [fst snd]; rewrite ?Cn, ?G; cbn [negb]; repeat split; auto; discriminate].
  destruct (negb (subject =? "")%string && _) eqn:U.
  - apply andb_true_iff in U. destruct U as [U1 U2].
    cbn [fst snd]. split; [reflexivity|]. split; [reflexivity|].
    split; [reflexivity|]. split; [reflexivity|].
    split; [|split; [discriminate|]].
    + intros _. eexists subject, _.
      split; [reflexivity|]. split.
      { apply String.eqb_neq. apply negb_true_iff. exact U1. }
      split; [reflexivity|].
      split; [apply getContact_saveContact_same|]. split; reflexivity.
    + change (connected (set_db _ st)) with (connected st). rewrite ?Cn, ?G. cbn [negb].
      change (db (set_db ?d st)) with d.
      rewrite getContact_saveContact_same. cbn [Contact.name].
      rewrite U1, String.eqb_refl. reflexivity.
  - cbn [fst snd]. rewrite ?Cn, ?G. cbn [negb]. rewrite U.
    repeat split; auto; discriminate.
Qed.

Lemma NoDup_firstn {A : Type} n (l : list A) : NoDup l -> NoDup (firstn n l).
Proof.
  intros N. rewrite <- (firstn_skipn n l) in N. apply NoDup_app_remove_r in N. exact N.
Qed.

Lemma getChats_jids limit d :
  uniqueChats d -> NoDup (map ChatListRow.jid (Database.getChats limit d)).
Proof.
  intros U. unfold Database.getChats, Database.limitOffset. simpl skipn.
  assert (N : NoDup (map ChatListRow.jid
                       (Database.orderByDesc ChatListRow.updated_at
                          (map (Database.joinLastMessage d)
                             (filter (fun c => negb (Chat.is_archived c))
                                (Database.chats d)))))).
  { eapply Permutation_NoDup.
    - apply Permutation_sym. apply Permutation_map. apply orderByDesc_Permutation.
    - rewrite map_map. simpl. apply NoDup_map_filter. exact U. }
  destruct (limit <? 0); [exact N|].
  rewrite <- firstn_map. apply NoDup_firstn. exact N.
Qed.

Lemma syncContacts_invariant chats : forall st n,
  NoDup (map ChatListRow.jid chats) ->
  Forall (fun chat => ChatListRow.contact_name chat = None) chats ->
  let r := syncContacts chats st n in
  Database.chats (db (fst r)) = Database.chats (db st) /\
  Database.messages (db (fst r)) = Database.messages (db st) /\
  frontend (fst r) = frontend st /\
  n <= snd r <= n + Z.of_nat (length chats) /\
  (forall j, ~ In j (map ChatListRow.jid chats) ->
     Database.getContact j (db (fst r)) = Database.getContact j (db st)) /\
  (forall chat name, In chat chats -> ChatListRow.name chat = Some name ->
     name <> ""%string -> name <> ChatListRow.jid chat -> includes name "@" = false ->
     exists k, Database.getContact (ChatListRow.jid chat) (db (fst r)) = Some k /\
               Contact.name k = Some name /\ Contact.phone_number k = None).
Proof.
  induction chats as [|chat rest IH]; intros st n N F r; subst r.
  - simpl. repeat split; auto; try lia; try contradiction.
  - inversion N as [|? ? Nh Nr]; subst. inversion F as [|? ? Fh Fr]; subst.
    cbn [syncContacts]. rewrite Fh.
    change (Js.or_text None (ChatListRow.name chat)) with (ChatListRow.name chat).
    match goal with
    | |- context [let '(st1, syncedCount1) := ?p in _] => destruct p as [st1 n1] eqn:P
    end.
    destruct (IH (delay 100 st1) n1 Nr Fr) as (C & M & Fe & Cnt & O & S1).
    cbn [length]. rewrite Nat2Z.inj_succ.
    destruct (match ChatListRow.name chat with
              | Some n0 => _
              | None => false
              end) eqn:Mean; inversion P; subst st1 n1; clear P.
    + split; [exact C|]. split; [exact M|]. split; [exact Fe|].
      split; [lia|]. split.
      * intros j Hj. rewrite O by (intros Hin; apply Hj; right; exact Hin).
        apply getContact_saveContact_other.
        intros ->. apply Hj. left. reflexivity.
      * intros c name [<- | Hin] Hn N1 N2 N3.
        { rewrite O by exact Nh. simpl db. rewrite Hn.
          eexists. split; [apply getContact_saveContact_same|]. split; reflexivity. }
        { apply (S1 c name Hin Hn N1 N2 N3). }
    + split; [exact C|]. split; [exact M|]. split; [exact Fe|].
      split; [lia|]. split.
      * intros j Hj. rewrite O by (intros Hin; apply Hj; right; exact Hin). reflexivity.
      * intros c name [<- | Hin] Hn N1 N2 N3.
        { exfalso. rewrite Hn in Mean.
          apply String.eqb_neq in N1, N2. rewrite N1, N2, N3 in Mean. discriminate. }
        { apply (S1 c name Hin Hn N1 N2 N3). }
Qed.

Lemma getChats_length limit d :
  0 <= limit -> Z.of_nat (length (Database.getChats limit d)) <= limit.
Proof.
  intros L. unfold Database.getChats, Database.limitOffset.
  destruct (limit <? 0) eqn:E; [apply Z.ltb_lt in E; lia|].
  rewrite length_firstn. lia.
Qed.

(** X19: the background contact sync copies chat names. In a connected
    backend whose store has one row per chat, [syncContactsInBackground]
    writes neither chats nor messages and sends nothing to the client; it
    saves at most one contact per listed chat, so at most 100; after it,
    every listed chat whose stored name is not empty, is not the chat
    identifier and holds no at-sign has a contact with that name and with no
    phone number, whatever the contact held before; and the contact of an
    identifier that is not listed is as it was. *)
Theorem syncContactsInBackground_copies_names st :
  connected st = true -> uniqueChats (db st) ->
  let r := syncContactsInBackground st in
  Database.chats (db (fst r)) = Database.chats (db st) /\
  Database.messages (db (fst r)) = Database.messages (db st) /\
  frontend (fst r) = frontend st /\
  0 <= snd r <= 100 /\
  (forall chat name, In chat (Database.getChats 100 (db st)) ->
     ChatListRow.name chat = Some name ->
     name <> ""%string -> name <> ChatListRow.jid chat -> includes name "@" = false ->
     exists k, Database.getContact (ChatListRow.jid chat) (db (fst r)) = Some k /\
               Contact.name k = Some name /\ Contact.phone_number k = None) /\
  (forall j, ~ In j (map ChatListRow.jid (Database.getChats 100 (db st))) ->
     Database.getContact j (db (fst r)) = Database.getContact j (db st)).
Proof.
  intros Cn U r. subst r. unfold syncContactsInBackground. rewrite Cn. cbn [negb].
  assert (F : Forall (fun chat => ChatListRow.contact_name chat = None)
                (Database.getChats 100 (db st))).
  { apply Forall_forall. intros chat Hc.
    destruct (getChats_no_contact_columns _ _ _ Hc) as [E _]. exact E. }
  destruct (syncContacts_invariant (Database.getChats 100 (db st)) st 0
              (getChats_jids 100 (db st) U) F) as (C & M & Fe & Cnt & O & S1).
  pose proof (getChats_length 100 (db st)) as L.
  split; [exact C|]. split; [exact M|]. split; [exact Fe|].
  split; [lia|]. split; [exact S1 | exact O].
Qed.

Lemma syncContactsInBackground_copies_names_witness :
  let r := syncContactsInBackground Sample.opened in
  snd r = 2 /\
  (exists k, Database.getContact Sample.bob (db (fst r)) = Some k /\
             Contact.name k = Some "Bob"%string /\ Contact.phone_number k = None).
Proof.
  split; [reflexivity|].
  destruct (syncContactsInBackground_copies_names Sample.opened eq_refl
              (cons_chats _ (built_consistent_aux _ built_twoChats)))
    as (_ & _ & _ & _ & S1 & _).
  apply (S1 (Database.joinLastMessage Sample.twoChats
               {| Chat.jid := Sample.bob; Chat.name := Some "Bob"%string;
                  Chat.last_message_id := None; Chat.last_message_timestamp := None;
                  Chat.unread_count := 0; Chat.is_archived := false;
                  Chat.created_at := 1; Chat.updated_at := 1 |}) "Bob"%string).
  - vm_compute. auto.
  - reflexivity.
  - discriminate.
  - discriminate.
  - reflexivity.
Defined.

(** X20: what counts as a first login. In a store built by the writing
    operations, [isFirstTimeLogin] answers yes exactly when the store has no
    chat. *)
Theorem isFirstTimeLogin_no_chat st :
  built (db st) ->
  (isFirstTimeLogin st = true <-> Database.chats (db st) = []).
Proof.
  intros B. pose proof (cons_plain _ (built_consistent_aux _ B)) as P.
  unfold isFirstTimeLogin. split.
  - intros H. destruct (Database.chats (db st)) as [|c l] eqn:E; [reflexivity|].
    exfalso. apply (getChats_nonempty 1 (db st) P); [rewrite E; discriminate | lia |].
    destruct (Database.getChats 1 (db st)); [reflexivity | discriminate].
  - intros E. unfold Database.getChats. rewrite E. reflexivity.
Qed.

Lemma isFirstTimeLogin_no_chat_witness :
  isFirstTimeLogin Sample.opened = false.
Proof.
  destruct (isFirstTimeLogin Sample.opened) eqn:E; [|reflexivity].
  apply (isFirstTimeLogin_no_chat Sample.opened built_twoChats) in E. discriminate.
Defined.

End ContactSync.
